(** * uniswapx-service: query routing, cursors, order writes and order validation

    A shallow embedding of
      - [src/lib/repositories/generic-orders-repository.ts]
        (class [GenericOrdersRepository]) and
      - [src/lib/handlers/index.ts] (class [OrderValidator]),
    followed by the properties the specification states about them.

    Conventions.
      - A JavaScript value is a [JSValue]; JavaScript numbers are restricted
        to the integers (chain ids, timestamps, limits, amounts), so [NaN],
        fractions and the exponent notation of very large numbers are outside
        the model.
      - An object used as a dictionary (the query filter set, an order item)
        is a [gmap string JSValue].  The code only ever asks such an object
        for its key list through [length], [includes] and [every], so the
        insertion order of [Object.keys] is not observable and the key list
        is taken in the map's own order.
      - A function that can throw returns a [result]. *)

From Stdlib Require Import Ascii.
From stdpp Require Import gmap strings list fin_maps pretty.

Local Set Warnings "-register-all,-clear-no-such-hyp".
Local Open Scope Z_scope.
Local Open Scope string_scope.

(** ** JavaScript values *)

Inductive JSValue : Type :=
  | JSUndefined
  | JSNull
  | JSBoolean (b : bool)
  | JSNumber (n : Z)
  | JSString (s : string)
  | JSArray (elems : list JSValue)
  | JSObject (fields : list (string * JSValue)).

(** [ToString], as applied by a template literal [`${v}`]. *)
Fixpoint ToString (v : JSValue) : string :=
  match v with
  | JSUndefined => "undefined"
  | JSNull => "null"
  | JSBoolean b => if b then "true" else "false"
  | JSNumber n => pretty n
  | JSString s => s
  | JSArray elems =>
      String.concat ","
        (map (fun e => match e with
                       | JSUndefined | JSNull => ""
                       | _ => ToString e
                       end) elems)
  | JSObject _ => "[object Object]"
  end.

(** [ToBoolean]: the truthiness tested by [if (v)], [v && e] and [v ? a : b]. *)
Definition ToBoolean (v : JSValue) : bool :=
  match v with
  | JSUndefined | JSNull => false
  | JSBoolean b => b
  | JSNumber n => negb (n =? 0)%Z
  | JSString s => negb (String.eqb s "")
  | JSArray _ | JSObject _ => true
  end.

(** An absent property or argument reads as [undefined]. *)
Definition prop (o : gmap string JSValue) (k : string) : JSValue :=
  default JSUndefined (o !! k).

(** [a ?? b] *)
Definition nullish_coalesce (a b : JSValue) : JSValue :=
  match a with
  | JSUndefined | JSNull => b
  | _ => a
  end.

(** ** Exceptions *)

Inductive JSError : Type :=
  | Error (message : string)
  | TypeError (message : string).

Inductive result (A : Type) : Type :=
  | Ok (a : A)
  | Throw (e : JSError).
Arguments Ok {A} a.
Arguments Throw {A} e.

#[global] Instance result_ret : MRet result := fun A a => Ok a.
#[global] Instance result_fmap : FMap result := fun A B f m =>
  match m with
  | Ok a => Ok (f a)
  | Throw e => Throw e
  end.
#[global] Instance result_bind : MBind result := fun A B f m =>
  match m with
  | Ok a => f a
  | Throw e => Throw e
  end.

(** ** The order validator ([src/lib/handlers/index.ts]) *)

Module Validator.

Record OrderValidationResponse : Type := {
  valid : bool;
  errorString : option string
}.

(** The part of the SDK's [DutchLimitOrder] the validator reads.  Amounts and
    the nonce are [BigNumber]s, here integers; [hash] is what the SDK's
    [order.hash()] returns. *)
Record DutchOutput : Type := {
  token : string;
  recipient : string;
  startAmount : Z;
  endAmount : Z
}.

Record DutchInput : Type := {
  input_token : string;
  amount : Z
}.

Record OrderInfo : Type := {
  deadline : Z;
  startTime : Z;
  nonce : Z;
  offerer : string;
  reactor : string;
  input : DutchInput;
  outputs : list DutchOutput
}.

Record DutchLimitOrder : Type := {
  info : OrderInfo;
  hash : string
}.

Definition ONE_YEAR_IN_SECONDS : Z := 60 * 60 * 24 * 365.

Definition ok_response : OrderValidationResponse :=
  {| valid := true; errorString := None |}.
Definition invalid (reason : string) : OrderValidationResponse :=
  {| valid := false; errorString := Some reason |}.

(** [value.gte(0) && value.lt(BigNumber.from(1).shl(256))] *)
Definition isValidUint256 (value : Z) : bool :=
  ((0 <=? value) && (value <? Z.shiftl 1 256))%Z.

Section OrderValidator.
(** [./field-validator] is not part of the sources: each of its validators
    is a parameter giving the [.error] of [validate(x)], rendered as a
    template literal renders it, or [None] when there is none. *)
Variable isValidNonce : string -> option string.
Variable isValidEthAddress : string -> option string.
Variable isValidOrderHash : string -> option string.
(** The constructor's arguments: the injected clock, which answers one and
    the same reading throughout a validation, and [minOffset]. *)
Variable getCurrentTime : unit -> Z.
Variable minOffset : Z.

Definition validateDeadline (deadline : Z) : OrderValidationResponse :=
  if decide (deadline < getCurrentTime tt + minOffset) then
    invalid "Insufficient Deadline"
  else if decide (deadline > getCurrentTime tt + ONE_YEAR_IN_SECONDS) then
    invalid "Deadline field invalid: Order expiry cannot be larger than one year"
  else ok_response.

Definition validateStartTime (startTime deadline : Z) : OrderValidationResponse :=
  if decide (startTime > deadline) then
    invalid "Invalid startTime: startTime > deadline"
  else ok_response.

Definition validateNonce (nonce : Z) : OrderValidationResponse :=
  match isValidNonce (pretty nonce) with
  | Some error => invalid ("Invalid nonce: " +:+ error)
  | None => ok_response
  end.

Definition validateOfferer (offerer : string) : OrderValidationResponse :=
  match isValidEthAddress offerer with
  | Some error => invalid ("Invalid offerer: " +:+ error)
  | None => ok_response
  end.

Definition validateReactor (reactor : string) : OrderValidationResponse :=
  match isValidEthAddress reactor with
  | Some error => invalid ("Invalid reactor: " +:+ error)
  | None => ok_response
  end.

Definition validateInputToken (token : string) : OrderValidationResponse :=
  match isValidEthAddress token with
  | Some error => invalid ("Invalid input token: " +:+ error)
  | None => ok_response
  end.

Definition validateInputAmount (amount : Z) : OrderValidationResponse :=
  if negb (isValidUint256 amount) then
    invalid ("Invalid input amount: " +:+ pretty amount)
  else ok_response.

(** The [for ... of] loop with its early returns. *)
Fixpoint validateOutputs (dutchOutputs : list DutchOutput) : OrderValidationResponse :=
  match dutchOutputs with
  | [] => ok_response
  | output :: rest =>
      if isValidEthAddress (token output) is Some _ then
        invalid ("Invalid output token " +:+ token output)
      else if isValidEthAddress (recipient output) is Some _ then
        invalid ("Invalid recipient " +:+ recipient output)
      else if negb (isValidUint256 (startAmount output)) then
        invalid ("Invalid startAmount " +:+ pretty (startAmount output))
      else if negb (isValidUint256 (endAmount output)) then
        invalid ("Invalid endAmount " +:+ pretty (endAmount output))
      else if decide (endAmount output > startAmount output) then
        invalid "Invalid endAmount > startAmount"
      else validateOutputs rest
  end.

Definition validateHash (orderHash : string) : OrderValidationResponse :=
  match isValidOrderHash orderHash with
  | Some error => invalid ("Invalid orderHash: " +:+ error)
  | None => ok_response
  end.

Definition validate (order : DutchLimitOrder) : OrderValidationResponse :=
  let deadlineValidation := validateDeadline (deadline (info order)) in
  if negb (valid deadlineValidation) then deadlineValidation else
  let startTimeValidation :=
    validateStartTime (startTime (info order)) (deadline (info order)) in
  if negb (valid startTimeValidation) then startTimeValidation else
  let nonceValidation := validateNonce (nonce (info order)) in
  if negb (valid nonceValidation) then nonceValidation else
  let offererValidation := validateOfferer (offerer (info order)) in
  if negb (valid offererValidation) then offererValidation else
  let reactorValidation := validateReactor (reactor (info order)) in
  if negb (valid reactorValidation) then reactorValidation else
  let inputTokenValidation := validateInputToken (input_token (input (info order))) in
  if negb (valid inputTokenValidation) then inputTokenValidation else
  let inputAmountValidation := validateInputAmount (amount (input (info order))) in
  if negb (valid inputAmountValidation) then inputAmountValidation else
  let outputsValidation := validateOutputs (outputs (info order)) in
  if negb (valid outputsValidation) then outputsValidation else
  let orderHashValidation := validateHash (hash order) in
  if negb (valid orderHashValidation) then orderHashValidation else
  ok_response.

(** *** The specification's reading: a list of checks, first failure wins *)

Fixpoint first_failure (checks : list OrderValidationResponse) : OrderValidationResponse :=
  match checks with
  | [] => ok_response
  | r :: rest => if valid r then first_failure rest else r
  end.

(** The five checks the specification lists for one output, in its order. *)
Definition output_checks (output : DutchOutput) : list OrderValidationResponse :=
  [ match isValidEthAddress (token output) with
    | Some _ => invalid ("Invalid output token " +:+ token output)
    | None => ok_response
    end;
    match isValidEthAddress (recipient output) with
    | Some _ => invalid ("Invalid recipient " +:+ recipient output)
    | None => ok_response
    end;
    if isValidUint256 (startAmount output) then ok_response
    else invalid ("Invalid startAmount " +:+ pretty (startAmount output));
    if isValidUint256 (endAmount output) then ok_response
    else invalid ("Invalid endAmount " +:+ pretty (endAmount output));
    if decide (endAmount output <= startAmount output) then ok_response
    else invalid "Invalid endAmount > startAmount" ].

(** The nine checks of the specification, in its order. *)
Definition order_checks (order : DutchLimitOrder) : list OrderValidationResponse :=
  [ validateDeadline (deadline (info order));
    validateStartTime (startTime (info order)) (deadline (info order));
    validateNonce (nonce (info order));
    validateOfferer (offerer (info order));
    validateReactor (reactor (info order));
    validateInputToken (input_token (input (info order)));
    validateInputAmount (amount (input (info order)));
    first_failure (flat_map output_checks (outputs (info order)));
    validateHash (hash order) ].

End OrderValidator.

End Validator.

(** ** The orders repository ([src/lib/repositories/generic-orders-repository.ts]) *)

Module Repository.

(** Modelled from the spec: the members of [TABLE_KEY] ([../config/dynamodb],
    not part of the sources) that the repository names.  Their values are the
    field names of the data model; the literals of the source
    (['offerer_orderStatus-createdAt-all'], [{ orderHash: hash }]) agree. *)
Module TABLE_KEY.
Definition ORDER_HASH : string := "orderHash".
Definition OFFERER : string := "offerer".
Definition ORDER_STATUS : string := "orderStatus".
Definition FILLER : string := "filler".
Definition CHAIN_ID : string := "chainId".
Definition CREATED_AT : string := "createdAt".
End TABLE_KEY.

(** Modelled from the spec: the members of [GET_QUERY_PARAMS]
    ([../handlers/get-orders/schema], not part of the sources) that the
    repository names: the recognised dimension and modifier names. *)
Module GET_QUERY_PARAMS.
Definition OFFERER : string := "offerer".
Definition ORDER_STATUS : string := "orderStatus".
Definition ORDER_HASH : string := "orderHash".
Definition ORDER_HASHES : string := "orderHashes".
Definition SORT_KEY : string := "sortKey".
Definition SORT : string := "sort".
Definition FILLER : string := "filler".
Definition CHAIN_ID : string := "chainId".
Definition DESC : string := "desc".
End GET_QUERY_PARAMS.

Definition MAX_ORDERS : Z := 50.

(** Modelled from the spec: [ComparisonFilter] ([../util/comparison], not part
    of the sources): one of the six operators and its operands. *)
Inductive Operator : Type := op_eq | op_lt | op_lte | op_gt | op_gte | op_between.

Record ComparisonFilter : Type := {
  operator : Operator;
  values : list Z
}.

(** An item of a table: attribute name to value. *)
Abbreviation Item := (gmap string JSValue).

(** The options object handed to [entity.query]; an optional member that the
    object literal leaves out is [None]. *)
Record QueryOptions : Type := {
  index : string;
  execute : bool;
  limit : Z;
  comparison : option (Operator * JSValue);
  reverse : option JSValue;
  startKey : option JSValue
}.

(** What [entity.query] answers. *)
Record QueryResponse : Type := {
  Items : list Item;
  LastEvaluatedKey : JSValue
}.

Record QueryResult : Type := {
  orders : list Item;
  cursor : option string
}.

(** The two tables behind [entity] and [nonceEntity], each keyed by its
    partition key.  The marshalling done by dynamodb-toolbox (attribute
    schema, defaults, dropped [undefined]s) is outside the model: an item is
    stored as the object it is written from. *)
Record DB : Type := {
  orders_table : gmap string Item;
  nonce_table : gmap string Item
}.

(** ** Built-ins *)

(** [s.split(sep)] for a one-character separator. *)
Fixpoint split (sep : ascii) (s : string) : list string :=
  match s with
  | EmptyString => [""]
  | String c rest =>
      if Ascii.eqb c sep then "" :: split sep rest
      else match split sep rest with
           | [] => [String c ""]
           | piece :: pieces => String c piece :: pieces
           end
  end.

(** [arr.includes(x)] and [arr.every(p)] on arrays of strings. *)
Definition includes (arr : list string) (x : string) : bool := bool_decide (x ∈ arr).
Definition every (p : string -> bool) (arr : list string) : bool := forallb p arr.

(** [Object.keys] of a dictionary object. *)
Definition Object_keys (o : gmap string JSValue) : list string := elements (dom o).

(** The index keys ["0"], ..., ["n-1"] of a string or an array. *)
Definition index_keys (n : nat) : list string := pretty <$> seq 0 n.

(** [Object.keys] of an arbitrary value, as [JSON.parse] may return one.  The
    fields of a [JSObject] name its properties; a name listed twice is one
    property. *)
Definition Object_keys_of (v : JSValue) : result (list string) :=
  match v with
  | JSUndefined | JSNull =>
      Throw (TypeError "Cannot convert undefined or null to object")
  | JSBoolean _ | JSNumber _ => Ok []
  | JSString s => Ok (index_keys (String.length s))
  | JSArray elems => Ok (index_keys (length elems))
  | JSObject fields => Ok (remove_dups fields.*1)
  end.

(** An object literal [{ ...spread, k1: v1, ..., kn: vn }]: the members are
    set from left to right, a later one overriding an earlier one. *)
Definition object_literal (spread : Item) (members : list (string * JSValue)) : Item :=
  foldl (fun o kv => <[kv.1 := kv.2]> o) spread members.

(** [...(cond && { k: v })] inside an object literal. *)
Definition spread_if (cond : JSValue) (k : string) (v : JSValue) (o : Item) : Item :=
  if ToBoolean cond then <[k := v]> o else o.

(** Modelled from the spec: [checkDefined] ([../preconditions/preconditions],
    not part of the sources) fails with the given message when the value is
    absent (the specification's NotFound), and returns the value otherwise. *)
Definition checkDefined {A : Type} (value : option A) (message : string) : result A :=
  match value with
  | Some a => Ok a
  | None => Throw (Error message)
  end.

(** ** The store's primary-key operations

    A key that is not a string is refused by the store. *)
Definition store_key (v : JSValue) : result string :=
  match v with
  | JSString h => Ok h
  | _ => Throw (Error "The provided key element does not match the schema")
  end.

(** [entity.get({ orderHash })] *)
Definition entity_get (db : DB) (orderHash : JSValue) : result (option Item) :=
  h ← store_key orderHash; Ok (orders_table db !! h).

(** [entity.putTransaction(item)]: the item replaces what its key held. *)
Definition entity_put (item : Item) (db : DB) : result DB :=
  h ← store_key (prop item TABLE_KEY.ORDER_HASH);
  Ok {| orders_table := <[h := item]> (orders_table db);
        nonce_table := nonce_table db |}.

(** [entity.update(attrs)]: the given attributes are set on the item of that
    key, its other attributes stay. *)
Definition entity_update (attrs : Item) (db : DB) : result DB :=
  h ← store_key (prop attrs TABLE_KEY.ORDER_HASH);
  Ok {| orders_table := <[h := attrs ∪ default ∅ (orders_table db !! h)]> (orders_table db);
        nonce_table := nonce_table db |}.

(** [nonceEntity.updateTransaction(attrs)], keyed by its [offerer] attribute. *)
Definition nonceEntity_update (attrs : Item) (db : DB) : result DB :=
  k ← store_key (prop attrs "offerer");
  Ok {| orders_table := orders_table db;
        nonce_table := <[k := attrs ∪ default ∅ (nonce_table db !! k)]> (nonce_table db) |}.

(** [table.batchGet(keys.map(getBatch))]: the items found, a missing key is
    left out. *)
Definition table_batchGet (db : DB) (orderHashes : list JSValue) : result (list Item) :=
  hs ← mapM store_key orderHashes; Ok (omap (fun h => orders_table db !! h) hs).

Section GenericOrdersRepository.
(** [Object.values(TABLE_KEY)]: the enumeration is not part of the sources. *)
Variable TABLE_KEY_values : list string.
(** [../util/encryption], not part of the sources; [decode] answers [None]
    when it throws. *)
Variable encode : string -> string.
Variable decode : string -> option string.
(** [JSON.parse] ([None]: it throws) and [JSON.stringify]. *)
Variable JSON_parse : string -> option JSValue.
Variable JSON_stringify : JSValue -> string.
(** [../util/comparison], not part of the sources. *)
Variable parseComparisonFilter : JSValue -> result (option ComparisonFilter).
(** [../util/time], not part of the sources. *)
Variable currentTimestampInSeconds : unit -> JSValue.
(** The store's range query on a secondary index. *)
Variable entity_query : DB -> JSValue -> QueryOptions -> result QueryResponse.

Definition getByHash (db : DB) (hash : JSValue) : result (option Item) :=
  entity_get db hash.

Definition putOrderAndUpdateNonceTransaction (order : Item) (db : DB) : result DB :=
  let item :=
    object_literal order
      [ ("offerer_orderStatus",
          JSString (ToString (prop order "offerer") +:+ "_" +:+ ToString (prop order "orderStatus")));
        ("filler_orderStatus",
          JSString (ToString (prop order "filler") +:+ "_" +:+ ToString (prop order "orderStatus")));
        ("filler_offerer",
          JSString (ToString (prop order "filler") +:+ "_" +:+ ToString (prop order "offerer")));
        ("chainId_filler",
          JSString (ToString (prop order "chainId") +:+ "_" +:+ ToString (prop order "filler")));
        ("chainId_orderStatus",
          JSString (ToString (prop order "chainId") +:+ "_" +:+ ToString (prop order "orderStatus")));
        ("chainId_orderStatus_filler",
          JSString (ToString (prop order "chainId") +:+ "_" +:+ ToString (prop order "orderStatus")
                    +:+ "_" +:+ ToString (prop order "filler")));
        ("filler_offerer_orderStatus",
          JSString (ToString (prop order "filler") +:+ "_" +:+ ToString (prop order "offerer")
                    +:+ "_" +:+ ToString (prop order "orderStatus")));
        ("createdAt", currentTimestampInSeconds tt) ] in
  let nonceUpdate :=
    object_literal ∅
      [ ("offerer",
          JSString (ToString (prop order "offerer") +:+ "-" +:+ ToString (prop order "chainId")));
        ("nonce", prop order "nonce") ] in
  (* table.transactWrite: both writes or none *)
  db1 ← entity_put item db;
  nonceEntity_update nonceUpdate db1.

Definition updateOrderStatus (orderHash : string) (status : string)
    (txHash settledAmounts : JSValue) (db : DB) : result DB :=
  found ← getByHash db (JSString orderHash);
  order ← checkDefined found "cannot find order by hash when updating order status";
  entity_update
    (spread_if settledAmounts "settledAmounts" settledAmounts
      (spread_if txHash "txHash" txHash
        (object_literal ∅
          [ (TABLE_KEY.ORDER_HASH, JSString orderHash);
            ("orderStatus", JSString status);
            ("offerer_orderStatus",
              JSString (ToString (prop order "offerer") +:+ "_" +:+ status));
            ("filler_orderStatus",
              JSString (ToString (prop order "filler") +:+ "_" +:+ status));
            ("filler_offerer_orderStatus",
              JSString (ToString (prop order "filler") +:+ "_" +:+ ToString (prop order "offerer")
                        +:+ "_" +:+ status));
            ("chainId_orderStatus",
              JSString (ToString (prop order "chainId") +:+ "_" +:+ status));
            ("chainId_orderStatus_filler",
              JSString (ToString (prop order "chainId") +:+ "_" +:+ status
                        +:+ "_" +:+ ToString (prop order "filler"))) ])))
    db.

(** *** Cursors *)

(** The list [validKeys] that [getStartKey] builds for an index name: the
    primary key, then the pieces of the name that are table keys. *)
Definition validKeys (index : string) : list string :=
  ([TABLE_KEY.ORDER_HASH] ++
   filter (fun key => key ≠ "")
     (filter (fun key => key ∈ TABLE_KEY_values) (split "-" index)))%list.

Definition getStartKey (cursor : string) (index : string) : result JSValue :=
  match decode cursor ≫= JSON_parse with
  | None => Throw (Error "Invalid cursor.")
  | Some lastEvaluatedKey =>
      keys ← Object_keys_of lastEvaluatedKey;
      let keysMatch := every (fun key => includes (validKeys index) key) keys in
      if negb (length keys =? length (validKeys index))%nat || negb keysMatch then
        Throw (Error "Invalid cursor.")
      else Ok lastEvaluatedKey
  end.

(** *** Range queries *)

(** The index name [`${index}-${sortKey ?? TABLE_KEY.CREATED_AT}-all`]. *)
Definition formattedIndex (index : string) (sortKey : JSValue) : string :=
  index +:+ "-" +:+
  ToString (nullish_coalesce sortKey (JSString TABLE_KEY.CREATED_AT)) +:+ "-all".

(** The object literal handed to [entity.query]. *)
Definition queryOptions (index : string) (limit : option Z) (cursor : option string)
    (sortKey sort desc_arg : JSValue) : result QueryOptions :=
  (* desc = true *)
  let desc := match desc_arg with JSUndefined => JSBoolean true | _ => desc_arg end in
  comparison ← (if ToBoolean sortKey then parseComparisonFilter sort else Ok None);
  startKey ← match cursor with
             | Some c =>
                 if negb (String.eqb c "")
                 then Some <$> getStartKey c (formattedIndex index sortKey)
                 else Ok None
             | None => Ok None
             end;
  Ok {| index := formattedIndex index sortKey;
        execute := true;
        limit := match limit with
                 | Some l => if (l =? 0)%Z then MAX_ORDERS else Z.min l MAX_ORDERS
                 | None => MAX_ORDERS
                 end;
        comparison :=
          if ToBoolean sortKey then
            (fun c => (operator c,
                       match operator c with
                       | op_between => JSArray (JSNumber <$> values c)
                       | _ => default JSUndefined (JSNumber <$> head (values c))
                       end)) <$> comparison
          else None;
        reverse :=
          if ToBoolean sortKey then (fun _ => desc) <$> comparison else None;
        startKey := startKey |}.

Definition queryOrderEntity (db : DB) (partitionKey : JSValue) (index : string)
    (limit : option Z) (cursor : option string) (sortKey sort desc : JSValue)
    : result QueryResult :=
  options ← queryOptions index limit cursor sortKey sort desc;
  queryResult ← entity_query db partitionKey options;
  Ok {| orders := Items queryResult;
        cursor := if ToBoolean (LastEvaluatedKey queryResult)
                  then Some (encode (JSON_stringify (LastEvaluatedKey queryResult)))
                  else None |}.

(** *** Routing *)

Definition getByOfferer (db : DB) (offerer : JSValue) (limit : option Z)
    (cursor : option string) (sortKey sort desc : JSValue) : result QueryResult :=
  queryOrderEntity db offerer TABLE_KEY.OFFERER limit cursor sortKey sort desc.

Definition getByOrderStatus (db : DB) (orderStatus : JSValue) (limit : option Z)
    (cursor : option string) (sortKey sort desc : JSValue) : result QueryResult :=
  queryOrderEntity db orderStatus TABLE_KEY.ORDER_STATUS limit cursor sortKey sort desc.

Definition getByFiller (db : DB) (filler : JSValue) (limit : option Z)
    (cursor : option string) (sortKey sort desc : JSValue) : result QueryResult :=
  queryOrderEntity db filler TABLE_KEY.FILLER limit cursor sortKey sort desc.

Definition getByChainId (db : DB) (chainId : JSValue) (limit : option Z)
    (cursor : option string) (sortKey sort desc : JSValue) : result QueryResult :=
  queryOrderEntity db chainId TABLE_KEY.CHAIN_ID limit cursor sortKey sort desc.

Definition areParamsRequested (queryParams requestedParams : list string) : bool :=
  (length requestedParams =? length queryParams)%nat &&
  every (fun filter => includes requestedParams filter) queryParams.

Definition getRequestedParams (queryFilters : Item) : list string :=
  filter
    (fun requestedParam =>
       requestedParam ∉
         [GET_QUERY_PARAMS.SORT_KEY; GET_QUERY_PARAMS.SORT; GET_QUERY_PARAMS.DESC])
    (Object_keys queryFilters).

(** The [switch (true)]: the first case whose test holds is taken. *)
Definition getOrders (db : DB) (limit : option Z) (queryFilters : Item)
    (cursor : option string) : result QueryResult :=
  let requestedParams := getRequestedParams queryFilters in
  if
    areParamsRequested
      [GET_QUERY_PARAMS.FILLER;
       GET_QUERY_PARAMS.OFFERER;
       GET_QUERY_PARAMS.ORDER_STATUS]
      requestedParams
  then
    queryOrderEntity db
      (JSString (ToString (prop queryFilters "filler") +:+ "_" +:+
                 ToString (prop queryFilters "offerer") +:+ "_" +:+
                 ToString (prop queryFilters "orderStatus")))
      (TABLE_KEY.FILLER +:+ "_" +:+ TABLE_KEY.OFFERER +:+ "_" +:+ TABLE_KEY.ORDER_STATUS)
      limit cursor
      (prop queryFilters "sortKey") (prop queryFilters "sort") (prop queryFilters "desc")
  else if
    areParamsRequested
      [GET_QUERY_PARAMS.CHAIN_ID;
       GET_QUERY_PARAMS.FILLER]
      requestedParams
  then
    queryOrderEntity db
      (JSString (ToString (prop queryFilters "chainId") +:+ "_" +:+
                 ToString (prop queryFilters "filler")))
      (TABLE_KEY.CHAIN_ID +:+ "_" +:+ TABLE_KEY.FILLER)
      limit cursor
      (prop queryFilters "sortKey") (prop queryFilters "sort") (prop queryFilters "desc")
  else if
    areParamsRequested
      [GET_QUERY_PARAMS.CHAIN_ID;
       GET_QUERY_PARAMS.ORDER_STATUS]
      requestedParams
  then
    queryOrderEntity db
      (JSString (ToString (prop queryFilters "chainId") +:+ "_" +:+
                 ToString (prop queryFilters "orderStatus")))
      (TABLE_KEY.CHAIN_ID +:+ "_" +:+ TABLE_KEY.ORDER_STATUS)
      limit cursor
      (prop queryFilters "sortKey") (prop queryFilters "sort") (prop queryFilters "desc")
  else if
    areParamsRequested
      [GET_QUERY_PARAMS.CHAIN_ID;
       GET_QUERY_PARAMS.ORDER_STATUS;
       GET_QUERY_PARAMS.FILLER]
      requestedParams
  then
    queryOrderEntity db
      (JSString (ToString (prop queryFilters "chainId") +:+ "_" +:+
                 ToString (prop queryFilters "orderStatus") +:+ "_" +:+
                 ToString (prop queryFilters "filler")))
      (TABLE_KEY.CHAIN_ID +:+ "_" +:+ TABLE_KEY.ORDER_STATUS +:+ "_" +:+ TABLE_KEY.FILLER)
      limit cursor
      (prop queryFilters "sortKey") (prop queryFilters "sort") (prop queryFilters "desc")
  else if
    areParamsRequested
      [GET_QUERY_PARAMS.FILLER;
       GET_QUERY_PARAMS.ORDER_STATUS]
      requestedParams
  then
    queryOrderEntity db
      (JSString (ToString (prop queryFilters "filler") +:+ "_" +:+
                 ToString (prop queryFilters "orderStatus")))
      (TABLE_KEY.FILLER +:+ "_" +:+ TABLE_KEY.ORDER_STATUS)
      limit cursor
      (prop queryFilters "sortKey") (prop queryFilters "sort") (prop queryFilters "desc")
  else if
    areParamsRequested
      [GET_QUERY_PARAMS.FILLER;
       GET_QUERY_PARAMS.OFFERER]
      requestedParams
  then
    queryOrderEntity db
      (JSString (ToString (prop queryFilters "filler") +:+ "_" +:+
                 ToString (prop queryFilters "offerer")))
      (TABLE_KEY.FILLER +:+ "_" +:+ TABLE_KEY.OFFERER)
      limit cursor
      (prop queryFilters "sortKey") (prop queryFilters "sort") (prop queryFilters "desc")
  else if
    areParamsRequested
      [GET_QUERY_PARAMS.OFFERER;
       GET_QUERY_PARAMS.ORDER_STATUS]
      requestedParams
  then
    queryOrderEntity db
      (JSString (ToString (prop queryFilters "offerer") +:+ "_" +:+
                 ToString (prop queryFilters "orderStatus")))
      (TABLE_KEY.OFFERER +:+ "_" +:+ TABLE_KEY.ORDER_STATUS)
      limit cursor
      (prop queryFilters "sortKey") (prop queryFilters "sort") (prop queryFilters "desc")
  else if includes requestedParams GET_QUERY_PARAMS.ORDER_HASH then
    order ← getByHash db (prop queryFilters "orderHash");
    Ok {| orders := match order with Some o => [o] | None => [] end;
          cursor := None |}
  else if includes requestedParams GET_QUERY_PARAMS.ORDER_HASHES then
    match prop queryFilters "orderHashes" with
    | JSArray orderHashes =>
        batchQuery ← table_batchGet db orderHashes;
        Ok {| orders := batchQuery; cursor := None |}
    | _ => Throw (TypeError "orderHashes.map is not a function")
    end
  else if areParamsRequested [GET_QUERY_PARAMS.OFFERER] requestedParams then
    getByOfferer db (prop queryFilters "offerer") limit cursor
      (prop queryFilters "sortKey") (prop queryFilters "sort") (prop queryFilters "desc")
  else if areParamsRequested [GET_QUERY_PARAMS.ORDER_STATUS] requestedParams then
    getByOrderStatus db (prop queryFilters "orderStatus") limit cursor
      (prop queryFilters "sortKey") (prop queryFilters "sort") (prop queryFilters "desc")
  else if areParamsRequested [GET_QUERY_PARAMS.FILLER] requestedParams then
    getByFiller db (prop queryFilters "filler") limit cursor
      (prop queryFilters "sortKey") (prop queryFilters "sort") (prop queryFilters "desc")
  else if areParamsRequested [GET_QUERY_PARAMS.CHAIN_ID] requestedParams then
    getByChainId db (prop queryFilters "chainId") limit cursor
      (prop queryFilters "sortKey") (prop queryFilters "sort") (prop queryFilters "desc")
  else
    Throw
      (Error
         "Invalid query, must query with one of the following params: [orderHash, orderHashes, chainId, orderStatus, swapper, filler]").

End GenericOrdersRepository.

End Repository.

(** ** The missing helpers, as the examples instantiate them

    The repository's definitions above take the helpers that are not part of
    the sources as parameters.  This module gives one instance of each, so
    that the statements below can be run on concrete inputs.  The round trip
    of cursors is proved of this codec: Base64 over JSON. *)

Module Reference.
Import Repository.

(** Modelled from the spec: [Object.values(TABLE_KEY)] ([../config/dynamodb]):
    the field names of the data model and the derived composite attributes. *)
Definition TABLE_KEY_values : list string :=
  [ "orderHash"; "offerer"; "createdAt"; "nonce"; "encodedOrder"; "signature";
    "orderStatus"; "deadline"; "filler"; "txHash"; "chainId";
    "offerer_orderStatus"; "filler_orderStatus"; "filler_offerer";
    "chainId_filler"; "chainId_orderStatus"; "chainId_orderStatus_filler";
    "filler_offerer_orderStatus" ].

(** *** Base64 *)

Definition base64_digit (n : N) : ascii :=
  if (n <? 26)%N then ascii_of_N (n + 65)
  else if (n <? 52)%N then ascii_of_N (n - 26 + 97)
  else if (n <? 62)%N then ascii_of_N (n - 52 + 48)
  else if (n =? 62)%N then "+"%char
  else "/"%char.

Definition base64_value (c : ascii) : option N :=
  let n := N_of_ascii c in
  if (65 <=? n)%N && (n <=? 90)%N then Some (n - 65)%N
  else if (97 <=? n)%N && (n <=? 122)%N then Some (n - 97 + 26)%N
  else if (48 <=? n)%N && (n <=? 57)%N then Some (n - 48 + 52)%N
  else if (n =? 43)%N then Some 62%N
  else if (n =? 47)%N then Some 63%N
  else None.

Fixpoint base64_encode (s : string) : string :=
  match s with
  | EmptyString => ""
  | String a EmptyString =>
      let n := (N_of_ascii a * 65536)%N in
      String (base64_digit (n / 262144))
        (String (base64_digit ((n / 4096) mod 64)) "==")
  | String a (String b EmptyString) =>
      let n := (N_of_ascii a * 65536 + N_of_ascii b * 256)%N in
      String (base64_digit (n / 262144))
        (String (base64_digit ((n / 4096) mod 64))
          (String (base64_digit ((n / 64) mod 64)) "="))
  | String a (String b (String c rest)) =>
      let n := (N_of_ascii a * 65536 + N_of_ascii b * 256 + N_of_ascii c)%N in
      String (base64_digit (n / 262144))
        (String (base64_digit ((n / 4096) mod 64))
          (String (base64_digit ((n / 64) mod 64))
            (String (base64_digit (n mod 64)) (base64_encode rest))))
  end.

Fixpoint base64_bytes (digits : list N) : string :=
  match digits with
  | a :: b :: c :: d :: rest =>
      let n := (a * 262144 + b * 4096 + c * 64 + d)%N in
      String (ascii_of_N (n / 65536))
        (String (ascii_of_N ((n / 256) mod 256))
          (String (ascii_of_N (n mod 256)) (base64_bytes rest)))
  | [a; b; c] =>
      let n := (a * 262144 + b * 4096 + c * 64)%N in
      String (ascii_of_N (n / 65536)) (String (ascii_of_N ((n / 256) mod 256)) "")
  | [a; b] =>
      let n := (a * 262144 + b * 4096)%N in
      String (ascii_of_N (n / 65536)) ""
  | _ => ""
  end.

(** Modelled from the spec: [encode] and [decode] ([../util/encryption]):
    a reversible, non-cryptographic transform, here Base64.  Decoding skips
    what is not a Base64 digit and never throws. *)
Definition encode (s : string) : string := base64_encode s.
Definition decode (s : string) : option string :=
  Some (base64_bytes (omap base64_value (String.list_ascii_of_string s))).

(** *** JSON *)

Definition dquote : ascii := ascii_of_N 34.
Definition backslash : ascii := ascii_of_N 92.
Definition quoted (body : string) : string :=
  String dquote body +:+ String dquote "".

Fixpoint JSON_quote (s : string) : string :=
  match s with
  | EmptyString => ""
  | String c rest =>
      if Ascii.eqb c dquote || Ascii.eqb c backslash
      then String backslash (String c (JSON_quote rest))
      else String c (JSON_quote rest)
  end.

(** [JSON.stringify] on the values of the model whose strings hold no control
    character; a member whose value is [undefined] is left out. *)
Fixpoint JSON_stringify (v : JSValue) : string :=
  match v with
  | JSUndefined | JSNull => "null"
  | JSBoolean b => if b then "true" else "false"
  | JSNumber n => pretty n
  | JSString s => quoted (JSON_quote s)
  | JSArray elems => "[" +:+ String.concat "," (map JSON_stringify elems) +:+ "]"
  | JSObject fields =>
      "{" +:+
      String.concat ","
        (flat_map
           (fun kv => match kv.2 with
                      | JSUndefined => []
                      | _ => [quoted (JSON_quote kv.1) +:+ ":" +:+
                              match kv with (_, x) => JSON_stringify x end]
                      end) fields)
      +:+ "}"
  end.

Fixpoint skip_ws (s : string) : string :=
  match s with
  | String c rest =>
      if bool_decide (N_of_ascii c ∈ [32; 9; 10; 13]%N) then skip_ws rest else s
  | EmptyString => s
  end.

Definition digit_value (c : ascii) : option N :=
  let n := N_of_ascii c in
  if (48 <=? n)%N && (n <=? 57)%N then Some (n - 48)%N else None.

Fixpoint parse_digits (acc : N) (s : string) : N * string :=
  match s with
  | String c rest =>
      match digit_value c with
      | Some d => parse_digits (acc * 10 + d) rest
      | None => (acc, s)
      end
  | EmptyString => (acc, s)
  end.

(** A string of digits, and nothing else, as a number. *)
Definition parse_uint (s : string) : option N :=
  match s with
  | EmptyString => None
  | _ => match parse_digits 0 s with
         | (n, EmptyString) => Some n
         | _ => None
         end
  end.

(** A JSON integer; a fraction or an exponent is outside the model. *)
Definition parse_number (s : string) : option (Z * string) :=
  let '(negative, body) :=
    match s with
    | String "-" rest => (true, rest)
    | _ => (false, s)
    end in
  match body with
  | String c _ =>
      match digit_value c with
      | Some _ =>
          let '(n, rest) := parse_digits 0 body in
          match rest with
          | String "." _ | String "e" _ | String "E" _ => None
          | _ => Some (if negative then (- Z.of_N n)%Z else Z.of_N n, rest)
          end
      | None => None
      end
  | EmptyString => None
  end.

(** The body of a JSON string, up to its closing quote. *)
Fixpoint parse_string_body (s : string) : option (string * string) :=
  match s with
  | EmptyString => None
  | String c rest =>
      if Ascii.eqb c dquote then Some ("", rest)
      else if Ascii.eqb c backslash then
        match rest with
        | String e rest' =>
            if Ascii.eqb e dquote || Ascii.eqb e backslash || Ascii.eqb e "/" then
              '(body, after) ← parse_string_body rest'; Some (String e body, after)
            else None
        | EmptyString => None
        end
      else '(body, after) ← parse_string_body rest; Some (String c body, after)
  end.

Fixpoint parse_value (fuel : nat) (s : string) : option (JSValue * string) :=
  match fuel with
  | O => None
  | S fuel =>
      match skip_ws s with
      | String "n" (String "u" (String "l" (String "l" rest))) => Some (JSNull, rest)
      | String "t" (String "r" (String "u" (String "e" rest))) => Some (JSBoolean true, rest)
      | String "f" (String "a" (String "l" (String "s" (String "e" rest)))) =>
          Some (JSBoolean false, rest)
      | String "[" rest =>
          match skip_ws rest with
          | String "]" after => Some (JSArray [], after)
          | _ => '(elems, after) ← parse_elems fuel rest; Some (JSArray elems, after)
          end
      | String "{" rest =>
          match skip_ws rest with
          | String "}" after => Some (JSObject [], after)
          | _ => '(fields, after) ← parse_members fuel rest; Some (JSObject fields, after)
          end
      | String c rest as t =>
          if Ascii.eqb c dquote then
            '(body, after) ← parse_string_body rest; Some (JSString body, after)
          else '(n, after) ← parse_number t; Some (JSNumber n, after)
      | EmptyString => None
      end
  end
with parse_elems (fuel : nat) (s : string) : option (list JSValue * string) :=
  match fuel with
  | O => None
  | S fuel =>
      '(v, after) ← parse_value fuel s;
      match skip_ws after with
      | String "," rest => '(vs, after') ← parse_elems fuel rest; Some (v :: vs, after')
      | String "]" rest => Some ([v], rest)
      | _ => None
      end
  end
with parse_members (fuel : nat) (s : string) : option (list (string * JSValue) * string) :=
  match fuel with
  | O => None
  | S fuel =>
      match skip_ws s with
      | String c rest =>
          if Ascii.eqb c dquote then
            '(key, after) ← parse_string_body rest;
            match skip_ws after with
            | String ":" rest' =>
                '(v, after') ← parse_value fuel rest';
                match skip_ws after' with
                | String "," rest'' =>
                    '(fields, after'') ← parse_members fuel rest'';
                    Some ((key, v) :: fields, after'')
                | String "}" rest'' => Some ([(key, v)], rest'')
                | _ => None
                end
            | _ => None
            end
          else None
      | EmptyString => None
      end
  end.

(** [JSON.parse] on integers, strings with the escapes of [JSON_quote],
    literals, arrays and objects; [None] where it throws. *)
Definition JSON_parse (s : string) : option JSValue :=
  match parse_value (S (String.length s)) s with
  | Some (v, rest) => if String.eqb (skip_ws rest) "" then Some v else None
  | None => None
  end.

(** *** Comparator expressions *)

Definition parse_operator (name : string) : option Operator :=
  if String.eqb name "eq" then Some op_eq
  else if String.eqb name "lt" then Some op_lt
  else if String.eqb name "lte" then Some op_lte
  else if String.eqb name "gt" then Some op_gt
  else if String.eqb name "gte" then Some op_gte
  else if String.eqb name "between" then Some op_between
  else None.

(** Modelled from the spec: [parseComparisonFilter] ([../util/comparison]):
    an expression [op(value)] or [between(value,value)]; an absent
    expression is no restriction; anything else is refused. *)
Definition parseComparisonFilter (sort : JSValue) : result (option ComparisonFilter) :=
  let refused := Throw (Error "Unable to parse operator and value for query param") in
  match sort with
  | JSUndefined => Ok None
  | JSString s =>
      match split "(" s with
      | [name; args] =>
          match parse_operator name, split ")" args with
          | Some op, [operands; EmptyString] =>
              match mapM parse_uint (split "," operands), op with
              | Some [a; b], op_between => Ok (Some {| operator := op; values := [Z.of_N a; Z.of_N b] |})
              | Some [a], (op_eq | op_lt | op_lte | op_gt | op_gte) =>
                  Ok (Some {| operator := op; values := [Z.of_N a] |})
              | _, _ => refused
              end
          | _, _ => refused
          end
      | _ => refused
      end
  | _ => refused
  end.

(** *** A clock and a store *)

Definition currentTimestampInSeconds (_ : unit) : JSValue := JSString "1700000000".

(** A store double: the items whose index partition attribute reads as the
    partition key, in the table's own order, cut at the limit; when it cuts,
    the continuation key names the last item returned by its primary key and
    the two attributes of the index.  It honours neither the sort key, nor a
    comparator, nor a start key. *)
Definition entity_query (db : DB) (partitionKey : JSValue) (options : QueryOptions)
    : result QueryResponse :=
  let partitionAttr := default "" (split "-" (index options) !! 0%nat) in
  let sortAttr := default "" (split "-" (index options) !! 1%nat) in
  let matching :=
    filter (fun item : Item => ToString (prop item partitionAttr) = ToString partitionKey)
      ((map_to_list (orders_table db)).*2) in
  let page := take (Z.to_nat (limit options)) matching in
  Ok {| Items := page;
        LastEvaluatedKey :=
          match last page with
          | Some item =>
              if (length page <? length matching)%nat then
                JSObject [ ("orderHash", prop item "orderHash");
                           (partitionAttr, prop item partitionAttr);
                           (sortAttr, prop item sortAttr) ]
              else JSUndefined
          | None => JSUndefined
          end |}.

(** *** Field validators *)

Definition is_hex (c : ascii) : bool :=
  let n := N_of_ascii c in
  ((48 <=? n) && (n <=? 57) || (65 <=? n) && (n <=? 70) || (97 <=? n) && (n <=? 102))%N.

Definition is_hex_of_length (digits : nat) (s : string) : bool :=
  match s with
  | String "0" (String "x" body) =>
      (String.length body =? digits)%nat && forallb is_hex (String.list_ascii_of_string body)
  | _ => false
  end.

(** Modelled from the spec: the validators of [./field-validator]: a
    well-formed address, a non-negative integer string, and the format of an
    order hash. *)
Definition isValidEthAddress (s : string) : option string :=
  if is_hex_of_length 40 s then None else Some "ValidationError: invalid address".
Definition isValidNonce (s : string) : option string :=
  if parse_uint s is Some _ then None else Some "ValidationError: invalid nonce".
Definition isValidOrderHash (s : string) : option string :=
  if is_hex_of_length 64 s then None else Some "ValidationError: invalid order hash".

(** *** Sample orders *)

Import Validator.

(** An order that passes every check at time 1000 with an offset of 60. *)
Definition sample_order : Validator.DutchLimitOrder :=
  {| info :=
       {| deadline := 2000; startTime := 1500; nonce := 7;
          offerer := "0x11E4857Bb9993a50c685A79AFad4E6F65D518DDa";
          reactor := "0x11E4857Bb9993a50c685A79AFad4E6F65D518DDa";
          input := {| input_token := "0x6B3595068778DD592e39A122f4f5a5cF09C90fE2";
                      amount := 1000000000000000000 |};
          outputs :=
            [ {| token := "0x6B3595068778DD592e39A122f4f5a5cF09C90fE2";
                 recipient := "0x11E4857Bb9993a50c685A79AFad4E6F65D518DDa";
                 startAmount := 2000000000000000000;
                 endAmount := 1000000000000000000 |} ] |};
     hash := "0xa2444ef606a0d99809e1878f7b819541618f2b7990bb9a7275996b362680cae4" |}.

Definition with_deadline (deadline : Z) (order : DutchLimitOrder) : DutchLimitOrder :=
  {| info :=
       {| deadline := deadline; startTime := startTime (info order);
          nonce := nonce (info order); offerer := offerer (info order);
          reactor := reactor (info order); input := input (info order);
          outputs := outputs (info order) |};
     hash := hash order |}.

Definition with_outputs (outputs : list DutchOutput) (order : DutchLimitOrder)
    : DutchLimitOrder :=
  {| info :=
       {| deadline := deadline (info order); startTime := startTime (info order);
          nonce := nonce (info order); offerer := offerer (info order);
          reactor := reactor (info order); input := input (info order);
          outputs := outputs |};
     hash := hash order |}.

(** The mock order of the repository's tests, with a [createdAt] of the
    caller's. *)
Definition MOCK_ORDER_ENTITY : Item :=
  {[ "orderHash" := JSString "0xc57af022";
     "encodedOrder" := JSString "0x0000";
     "signature" := JSString "0x5cb4";
     "nonce" := JSString "0xnonce";
     "offerer" := JSString "0xofferer";
     "orderStatus" := JSString "open";
     "chainId" := JSNumber 1;
     "deadline" := JSNumber 3;
     "createdAt" := JSNumber 5 ]}.

End Reference.

(** ** The index catalog, in the specification's words *)

Module Catalog.
Import Repository.

(** The dimension-set templates bound to an index, each in its canonical
    field order: those of several dimensions, then those of one. *)
Definition composite_templates : list (list string) :=
  [ ["filler"; "offerer"; "orderStatus"];
    ["chainId"; "filler"];
    ["chainId"; "orderStatus"];
    ["chainId"; "orderStatus"; "filler"];
    ["filler"; "orderStatus"];
    ["filler"; "offerer"];
    ["offerer"; "orderStatus"] ].

Definition single_templates : list (list string) :=
  [ ["offerer"]; ["orderStatus"]; ["filler"]; ["chainId"] ].

Definition templates : list (list string) :=
  (composite_templates ++ single_templates)%list.

(** The two dimension sets that bypass index routing. *)
Definition lookups : list (list string) := [ ["orderHash"]; ["orderHashes"] ].

(** The supported dimension sets. *)
Definition supported : list (list string) := (templates ++ lookups)%list.

Definition modifiers : gset string := {[ "sortKey"; "sort"; "desc" ]}.

(** The requested dimension set: the filter keys minus the modifier keys. *)
Definition requestedDimensions (queryFilters : Item) : gset string :=
  dom queryFilters ∖ modifiers.

(** A template's index: its field names joined in the canonical order. *)
Definition template_index (template : list string) : string :=
  String.concat "_" template.

(** A template's partition key: the filter values joined in the canonical
    order; the key of a one-dimension template is the filter value itself. *)
Definition template_key (template : list string) (queryFilters : Item) : JSValue :=
  match template with
  | [dimension] => prop queryFilters dimension
  | _ => JSString (String.concat "_" ((fun d => ToString (prop queryFilters d)) <$> template))
  end.

Definition invalid_cursor : JSError := Error "Invalid cursor.".

Definition invalid_query : JSError :=
  Error "Invalid query, must query with one of the following params: [orderHash, orderHashes, chainId, orderStatus, swapper, filler]".

(** C2 as the specification words it: a requested dimension set that is not
    one of the supported ones always fails with the invalid-query error. *)
Definition unsupported_combination_fails_as_stated : Prop :=
  ∀ (TABLE_KEY_values : list string) (encode : string -> string)
    (decode : string -> option string) (JSON_parse : string -> option JSValue)
    (JSON_stringify : JSValue -> string)
    (parseComparisonFilter : JSValue -> result (option ComparisonFilter))
    (entity_query : DB -> JSValue -> QueryOptions -> result QueryResponse)
    (db : DB) (limit : option Z) (queryFilters : Item) (cursor : option string),
    requestedDimensions queryFilters ∉ (list_to_set <$> supported : list (gset string)) →
    getOrders TABLE_KEY_values encode decode JSON_parse JSON_stringify
      parseComparisonFilter entity_query db limit queryFilters cursor
    = Throw invalid_query.

End Catalog.

(** ** The derived composite attributes, in the specification's words *)

Module Composites.
Import Repository.

(** Each composite attribute with the primary fields it is joined from. *)
Definition composite_attributes : list (string * list string) :=
  [ ("offerer_orderStatus", ["offerer"; "orderStatus"]);
    ("filler_orderStatus", ["filler"; "orderStatus"]);
    ("filler_offerer", ["filler"; "offerer"]);
    ("chainId_filler", ["chainId"; "filler"]);
    ("chainId_orderStatus", ["chainId"; "orderStatus"]);
    ("chainId_orderStatus_filler", ["chainId"; "orderStatus"; "filler"]);
    ("filler_offerer_orderStatus", ["filler"; "offerer"; "orderStatus"]) ].

(** The join of the values an item holds for the given fields. *)
Definition join_fields (item : Item) (fields : list string) : JSValue :=
  JSString (String.concat "_" ((fun f => ToString (prop item f)) <$> fields)).

(** An item is consistent when each composite attribute it holds is the join
    of its own primary fields. *)
Definition composites_consistent (item : Item) : Prop :=
  ∀ name fields, (name, fields) ∈ composite_attributes →
    item !! name = Some (join_fields item fields).

(** The attributes [putOrderAndUpdateNonceTransaction] sets itself. *)
Definition written_attributes : list string :=
  (composite_attributes.*1 ++ ["createdAt"])%list.

End Composites.

(** ** The two reasons of the validator's deadline gate *)

Module ValidatorClaims.
Import Validator.

Definition insufficient_deadline : OrderValidationResponse :=
  invalid "Insufficient Deadline".
Definition expiry_too_far : OrderValidationResponse :=
  invalid "Deadline field invalid: Order expiry cannot be larger than one year".

End ValidatorClaims.

(** ** Range queries as the store sees them *)

Module QueryClaims.
Import Repository.

(** The direction the [desc] flag selects: descending unless supplied. *)
Definition selected_direction (desc : JSValue) : JSValue :=
  match desc with
  | JSUndefined => JSBoolean true
  | _ => desc
  end.

(** The sort key a query resolves to: the caller's, else [createdAt]. *)
Definition resolved_sort_key (sortKey : JSValue) : string :=
  match sortKey with
  | JSUndefined | JSNull => "createdAt"
  | _ => ToString sortKey
  end.

(** The page [queryOrderEntity] builds from the store's answer. *)
Definition page_of (encode : string -> string) (JSON_stringify : JSValue -> string)
    (queryResult : QueryResponse) : QueryResult :=
  {| orders := Items queryResult;
     cursor := if ToBoolean (LastEvaluatedKey queryResult)
               then Some (encode (JSON_stringify (LastEvaluatedKey queryResult)))
               else None |}.

(** A query, given as a function of the store it runs against, asks the
    store with a partition key and an options object: whatever the store is,
    the query's result is the page built from the store's answer to this key
    and these options, or the store's failure. *)
Definition asks_store (encode : string -> string) (JSON_stringify : JSValue -> string)
    (query : (DB -> JSValue -> QueryOptions -> result QueryResponse) -> result QueryResult)
    (db : DB) (partitionKey : JSValue) (options : QueryOptions) : Prop :=
  ∀ entity_query,
    query entity_query
    = (queryResult ← entity_query db partitionKey options;
       Ok (page_of encode JSON_stringify queryResult)).

(** A store that holds no item and reports, as its continuation key, what it
    read in the options it was asked with. *)
Definition telltale_store (report : QueryOptions -> JSValue)
    (_ : DB) (_ : JSValue) (options : QueryOptions) : result QueryResponse :=
  Ok {| Items := []; LastEvaluatedKey := report options |}.

(** C8 as the specification words it: every range query that reaches the
    store names the resolved sort key and passes the selected direction. *)
Definition scan_direction_as_stated : Prop :=
  ∀ (TABLE_KEY_values : list string) (encode : string -> string)
    (decode : string -> option string) (JSON_parse : string -> option JSValue)
    (JSON_stringify : JSValue -> string)
    (parseComparisonFilter : JSValue -> result (option ComparisonFilter))
    (db : DB) (partitionKey : JSValue) (name : string) (requested : option Z)
    (cursor : option string) (sortKey sort desc : JSValue),
    (ToBoolean sortKey = true → ∃ parsed, parseComparisonFilter sort = Ok parsed) →
    (∀ c, cursor = Some c → c ≠ "" →
          ∃ key, getStartKey TABLE_KEY_values decode JSON_parse c
                   (formattedIndex name sortKey) = Ok key) →
    ∃ options,
      asks_store encode JSON_stringify
        (fun entity_query =>
           queryOrderEntity TABLE_KEY_values encode decode JSON_parse JSON_stringify
             parseComparisonFilter entity_query
             db partitionKey name requested cursor sortKey sort desc)
        db partitionKey options
      ∧ index options = name +:+ "-" +:+ resolved_sort_key sortKey +:+ "-all"
      ∧ reverse options = Some (selected_direction desc).

End QueryClaims.

(** ** Continuation keys and their text *)

Module CursorClaims.
Import Repository.

(** The values a continuation key holds: the key attributes of a table are
    strings and numbers. *)
Definition key_attribute (v : JSValue) : Prop :=
  match v with
  | JSString _ | JSNumber _ => True
  | _ => False
  end.

End CursorClaims.

Module JSONText.
Import Repository.

(** The characters a number starts with. *)
Definition number_heads : list ascii :=
  ["0"; "1"; "2"; "3"; "4"; "5"; "6"; "7"; "8"; "9"]%char.

(** What follows a value inside an object. *)
Definition ends_value (rest : string) : Prop :=
  ∃ r, rest = String "," r ∨ rest = String "}" r.

(** The text of one member of an object. *)
Definition member_text (field : string * JSValue) : string :=
  String Reference.dquote
    (Reference.JSON_quote field.1 +:+
     String Reference.dquote (String ":" (Reference.JSON_stringify field.2))).

End JSONText.

(** ** The rest of the repository *)

Module RepositoryRest.
Import Repository.

(** [nonceEntity.query(key, { limit: 1, reverse: true, consistent: true })]:
    the nonce table holds one record per key. *)
Definition nonceEntity_query (db : DB) (key : string) : list Item :=
  match nonce_table db !! key with
  | Some record => [record]
  | None => []
  end.

(** [entity.deleteBatch({ orderHash: hash })] inside [table.batchWrite]: the
    item of that key is removed; the store's batch size limits are outside
    the model. *)
Definition entity_delete (hash : string) (db : DB) : DB :=
  {| orders_table := delete hash (orders_table db);
     nonce_table := nonce_table db |}.

Section Rest.
(** [../util/nonce], not part of the sources. *)
Variable generateRandomNonce : unit -> JSValue.

Definition getNonceByAddressAndChain (db : DB) (address : string) (chainId : Z)
    : JSValue :=
  match nonceEntity_query db (address +:+ "-" +:+ pretty chainId) with
  | record :: _ => prop record "nonce"
  | [] => generateRandomNonce tt
  end.

Definition deleteOrders (orderHashes : list string) (db : DB) : DB :=
  foldl (fun db hash => entity_delete hash db) db orderHashes.

End Rest.

End RepositoryRest.

(** ** What the validator accepts, and keys without the delimiter *)

Module ExtraSpec.
Import Validator Repository.

(** A response is well formed when it is valid without a reason or invalid
    with one. *)
Definition well_formed (r : OrderValidationResponse) : Prop :=
  (valid r = true ∧ errorString r = None)
  ∨ (valid r = false ∧ ∃ reason, errorString r = Some reason).

(** What one output must satisfy. *)
Definition output_acceptable (isValidEthAddress : string -> option string)
    (output : DutchOutput) : Prop :=
  isValidEthAddress (token output) = None
  ∧ isValidEthAddress (recipient output) = None
  ∧ 0 <= startAmount output < 2 ^ 256
  ∧ 0 <= endAmount output < 2 ^ 256
  ∧ endAmount output <= startAmount output.


End ExtraSpec.

(** ** A table with two orders, for the examples *)

Module ReferenceRest.
Import Repository.

(** Modelled from the spec: [generateRandomNonce] ([../util/nonce]): a
    freshly generated nonce, here a fixed one. *)
Definition generateRandomNonce (_ : unit) : JSValue := JSString "0x2a".

Definition empty_db : DB := {| orders_table := ∅; nonce_table := ∅ |}.

(** The table after the writes of the mock order and of a second order of
    the same offerer. *)
Definition two_orders : DB :=
  match
    putOrderAndUpdateNonceTransaction Reference.currentTimestampInSeconds
      Reference.MOCK_ORDER_ENTITY empty_db
    ≫= putOrderAndUpdateNonceTransaction Reference.currentTimestampInSeconds
         (<["orderHash" := JSString "0xa2444ef6"]> Reference.MOCK_ORDER_ENTITY)
  with
  | Ok db => db
  | Throw _ => empty_db
  end.

End ReferenceRest.

(** ** Proof tools *)

(** The value an object literal holds for one of its members. *)
Ltac lookup_literal :=
  unfold Repository.object_literal; simpl;
  rewrite ?lookup_insert_ne by done; rewrite ?lookup_insert_eq.

(** Tests on closed dimension sets are settled by evaluation. *)
Ltac settle_dimension_tests :=
  repeat match goal with
  | |- context [bool_decide ?P] =>
      let b := eval vm_compute in (bool_decide P) in
      replace (bool_decide P) with b by (vm_compute; reflexivity);
      cbv iota
  end.

Ltac NoDup_by_evaluation :=
  refine (bool_decide_unpack _ _); vm_compute; exact I.

(** * Properties *)

Module RoutingFacts.
Import Repository Catalog.

Lemma getRequestedParams_NoDup (queryFilters : Item) :
  NoDup (getRequestedParams queryFilters).
Proof. apply NoDup_filter. unfold Object_keys. apply NoDup_elements. Qed.

Lemma elem_of_getRequestedParams (queryFilters : Item) (x : string) :
  x ∈ getRequestedParams queryFilters ↔ x ∈ requestedDimensions queryFilters.
Proof.
  unfold getRequestedParams, requestedDimensions, Object_keys, modifiers.
  rewrite list_elem_of_filter, elem_of_elements, elem_of_difference.
  unfold GET_QUERY_PARAMS.SORT_KEY, GET_QUERY_PARAMS.SORT, GET_QUERY_PARAMS.DESC.
  set_solver.
Qed.

Lemma includes_requested (queryFilters : Item) (x : string) :
  includes (getRequestedParams queryFilters) x
  = bool_decide (x ∈ requestedDimensions queryFilters).
Proof. apply bool_decide_ext, elem_of_getRequestedParams. Qed.

(** [areParamsRequested] is set equality: the key list of an object has no
    duplicate, and no template lists a dimension twice. *)
Lemma areParamsRequested_set_equality (queryParams : list string) (queryFilters : Item) :
  NoDup queryParams →
  areParamsRequested queryParams (getRequestedParams queryFilters)
  = bool_decide (list_to_set queryParams = requestedDimensions queryFilters).
Proof.
  intros Hnd. unfold areParamsRequested, every.
  pose proof (getRequestedParams_NoDup queryFilters) as HR.
  pose proof (elem_of_getRequestedParams queryFilters) as Hin.
  set (R := getRequestedParams queryFilters) in *.
  destruct (decide (list_to_set queryParams = requestedDimensions queryFilters)) as [Heq|Hne].
  - rewrite (bool_decide_eq_true_2 _ Heq).
    assert (R ≡ₚ queryParams) as Hperm.
    { apply NoDup_Permutation; [done..|]. intros x. rewrite Hin, <- Heq. set_solver. }
    apply andb_true_iff; split.
    + apply Nat.eqb_eq. by rewrite Hperm.
    + apply forallb_forall. intros x Hx. apply bool_decide_eq_true.
      rewrite Hperm. by apply list_elem_of_In.
  - rewrite (bool_decide_eq_false_2 _ Hne).
    apply not_true_is_false. intros [Hlen Hall]%andb_true_iff.
    apply Nat.eqb_eq in Hlen. rewrite forallb_forall in Hall.
    apply Hne.
    assert (queryParams ⊆+ R) as Hsub.
    { apply NoDup_submseteq; [done|]. intros x Hx.
      apply list_elem_of_In, Hall in Hx. by apply bool_decide_eq_true in Hx. }
    apply submseteq_length_Permutation in Hsub; [|lia].
    apply set_eq. intros x. rewrite <- Hin, elem_of_list_to_set. by rewrite Hsub.
Qed.

Section Routing.
Variable TABLE_KEY_values : list string.
Variable encode : string -> string.
Variable decode : string -> option string.
Variable JSON_parse : string -> option JSValue.
Variable JSON_stringify : JSValue -> string.
Variable parseComparisonFilter : JSValue -> result (option ComparisonFilter).
Variable entity_query : DB -> JSValue -> QueryOptions -> result QueryResponse.

Local Abbreviation getOrders :=
  (getOrders TABLE_KEY_values encode decode JSON_parse JSON_stringify
     parseComparisonFilter entity_query).
Local Abbreviation queryOrderEntity :=
  (queryOrderEntity TABLE_KEY_values encode decode JSON_parse JSON_stringify
     parseComparisonFilter entity_query).

(** The [switch] of [getOrders], with every test read as a test on the
    requested dimension set. *)
Lemma getOrders_unfold db limit queryFilters cursor :
  getOrders db limit queryFilters cursor
  = let D := requestedDimensions queryFilters in
    let query template :=
      queryOrderEntity db (template_key template queryFilters)
        (template_index template) limit cursor
        (prop queryFilters "sortKey") (prop queryFilters "sort")
        (prop queryFilters "desc") in
    if bool_decide (list_to_set ["filler"; "offerer"; "orderStatus"] = D)
    then query ["filler"; "offerer"; "orderStatus"]
    else if bool_decide (list_to_set ["chainId"; "filler"] = D)
    then query ["chainId"; "filler"]
    else if bool_decide (list_to_set ["chainId"; "orderStatus"] = D)
    then query ["chainId"; "orderStatus"]
    else if bool_decide (list_to_set ["chainId"; "orderStatus"; "filler"] = D)
    then query ["chainId"; "orderStatus"; "filler"]
    else if bool_decide (list_to_set ["filler"; "orderStatus"] = D)
    then query ["filler"; "orderStatus"]
    else if bool_decide (list_to_set ["filler"; "offerer"] = D)
    then query ["filler"; "offerer"]
    else if bool_decide (list_to_set ["offerer"; "orderStatus"] = D)
    then query ["offerer"; "orderStatus"]
    else if bool_decide ("orderHash" ∈ D) then
      order ← getByHash db (prop queryFilters "orderHash");
      Ok {| orders := match order with Some o => [o] | None => [] end;
            cursor := None |}
    else if bool_decide ("orderHashes" ∈ D) then
      match prop queryFilters "orderHashes" with
      | JSArray orderHashes =>
          batchQuery ← table_batchGet db orderHashes;
          Ok {| orders := batchQuery; cursor := None |}
      | _ => Throw (TypeError "orderHashes.map is not a function")
      end
    else if bool_decide (list_to_set ["offerer"] = D) then query ["offerer"]
    else if bool_decide (list_to_set ["orderStatus"] = D) then query ["orderStatus"]
    else if bool_decide (list_to_set ["filler"] = D) then query ["filler"]
    else if bool_decide (list_to_set ["chainId"] = D) then query ["chainId"]
    else Throw invalid_query.
Proof.
  unfold Repository.getOrders.
  rewrite !includes_requested.
  rewrite !areParamsRequested_set_equality by NoDup_by_evaluation.
  reflexivity.
Qed.

Lemma templates_NoDup template : template ∈ templates → NoDup template.
Proof.
  revert template. apply Forall_forall.
  refine (bool_decide_unpack _ _). vm_compute. exact I.
Qed.

(** C1.  A filter set whose requested dimension set (its keys minus
    [sortKey], [sort], [desc]) is exactly the dimension set of a template
    is routed by [getOrders] to the range query on that template's index,
    with the partition key built from the filter values in the template's
    canonical field order (the value itself for a one-dimension template),
    and with the caller's limit, cursor and modifiers.  A filter set whose
    requested dimensions are a strict subset or a strict superset of a
    template's dimension set does not match that template. *)
Theorem getOrders_routes_exact_dimension_set
    (db : DB) (limit : option Z) (queryFilters : Item) (cursor : option string)
    (template : list string) :
  template ∈ templates →
  (requestedDimensions queryFilters = list_to_set template →
   getOrders db limit queryFilters cursor
   = queryOrderEntity db (template_key template queryFilters)
       (template_index template) limit cursor
       (prop queryFilters "sortKey") (prop queryFilters "sort")
       (prop queryFilters "desc"))
  ∧ (requestedDimensions queryFilters ⊂ list_to_set template
     ∨ list_to_set template ⊂ requestedDimensions queryFilters →
     areParamsRequested template (getRequestedParams queryFilters) = false).
Proof.
  intros Hin. split.
  - intros HD. rewrite getOrders_unfold. cbv zeta. rewrite HD. clear HD.
    unfold templates in Hin.
    repeat (apply elem_of_cons in Hin as [->|Hin]);
      [..|by apply elem_of_nil in Hin];
      settle_dimension_tests; reflexivity.
  - intros Hstrict.
    rewrite areParamsRequested_set_equality by by apply templates_NoDup.
    apply bool_decide_eq_false_2. intros Heq. rewrite Heq in Hstrict.
    destruct Hstrict as [[_ Hs]|[_ Hs]]; by apply Hs.
Qed.

(** A dimension set that holds [orderHash] or [orderHashes] is none of the
    templates. *)
Lemma lookup_dimension_not_template (D : gset string) (template : list string) :
  template ∈ templates →
  "orderHash" ∈ D ∨ "orderHashes" ∈ D →
  list_to_set template ≠ D.
Proof.
  intros Hin Hlookup <-.
  assert (Forall (fun t => ¬ ("orderHash" ∈ (list_to_set t : gset string)
                             ∨ "orderHashes" ∈ (list_to_set t : gset string)))
            templates) as Hnone.
  { refine (bool_decide_unpack _ _). vm_compute. exact I. }
  rewrite Forall_forall in Hnone. by apply (Hnone template).
Qed.

(** C2, amended.  A filter set whose requested dimension set is not one of
    the supported ones, and holds neither [orderHash] nor [orderHashes],
    makes [getOrders] fail with the invalid-query error, whatever the filter
    values.  A filter set that holds [orderHash] is answered by the
    primary-key lookup of that hash, and one that holds [orderHashes] and not
    [orderHash] by the batch lookup of these hashes, whatever other
    dimensions come with them. *)
Theorem getOrders_unsupported_combination
    (db : DB) (limit : option Z) (queryFilters : Item) (cursor : option string) :
  (requestedDimensions queryFilters ∉ (list_to_set <$> supported : list (gset string)) →
   "orderHash" ∉ requestedDimensions queryFilters →
   "orderHashes" ∉ requestedDimensions queryFilters →
   getOrders db limit queryFilters cursor = Throw invalid_query)
  ∧ ("orderHash" ∈ requestedDimensions queryFilters →
     getOrders db limit queryFilters cursor
     = (order ← getByHash db (prop queryFilters "orderHash");
        Ok {| orders := match order with Some o => [o] | None => [] end;
              cursor := None |}))
  ∧ ("orderHash" ∉ requestedDimensions queryFilters →
     "orderHashes" ∈ requestedDimensions queryFilters →
     getOrders db limit queryFilters cursor
     = match prop queryFilters "orderHashes" with
       | JSArray orderHashes =>
           batchQuery ← table_batchGet db orderHashes;
           Ok {| orders := batchQuery; cursor := None |}
       | _ => Throw (TypeError "orderHashes.map is not a function")
       end).
Proof.
  split; [|split].
  - intros Hnot Hhash Hhashes.
    assert (∀ t, t ∈ supported → list_to_set t ≠ requestedDimensions queryFilters) as Hne.
    { intros t Ht Heq. apply Hnot. rewrite <- Heq. by apply list_elem_of_fmap_2. }
    rewrite getOrders_unfold. cbv zeta.
    rewrite (bool_decide_eq_false_2 _ Hhash), (bool_decide_eq_false_2 _ Hhashes).
    repeat match goal with
    | |- context [bool_decide (list_to_set ?t = _)] =>
        rewrite (bool_decide_eq_false_2 (list_to_set t = _))
          by (apply Hne; refine (bool_decide_unpack _ _); vm_compute; exact I)
    end.
    reflexivity.
  - intros Hhash.
    rewrite getOrders_unfold. cbv zeta.
    rewrite (bool_decide_eq_true_2 _ Hhash).
    repeat match goal with
    | |- context [bool_decide (list_to_set ?t = _)] =>
        rewrite (bool_decide_eq_false_2 (list_to_set t = _))
          by (apply lookup_dimension_not_template; [|by left];
              refine (bool_decide_unpack _ _); vm_compute; exact I)
    end.
    reflexivity.
  - intros Hhash Hhashes.
    rewrite getOrders_unfold. cbv zeta.
    rewrite (bool_decide_eq_false_2 _ Hhash), (bool_decide_eq_true_2 _ Hhashes).
    repeat match goal with
    | |- context [bool_decide (list_to_set ?t = _)] =>
        rewrite (bool_decide_eq_false_2 (list_to_set t = _))
          by (apply lookup_dimension_not_template; [|by right];
              refine (bool_decide_unpack _ _); vm_compute; exact I)
    end.
    reflexivity.
Qed.

End Routing.

(** The repository over the reference helpers. *)
Abbreviation reference_getOrders :=
  (getOrders Reference.TABLE_KEY_values Reference.encode Reference.decode
     Reference.JSON_parse Reference.JSON_stringify Reference.parseComparisonFilter
     Reference.entity_query).
Abbreviation reference_queryOrderEntity :=
  (queryOrderEntity Reference.TABLE_KEY_values Reference.encode Reference.decode
     Reference.JSON_parse Reference.JSON_stringify Reference.parseComparisonFilter
     Reference.entity_query).

Lemma getOrders_routes_exact_dimension_set_witness :
  let queryFilters : Item :=
    {[ "orderStatus" := JSString "open"; "offerer" := JSString "0xA";
       "desc" := JSBoolean false ]} in
  let db := {| orders_table := ∅; nonce_table := ∅ |} in
  reference_getOrders db (Some 10) queryFilters None
  = reference_queryOrderEntity db (JSString "0xA_open") "offerer_orderStatus"
      (Some 10) None JSUndefined JSUndefined (JSBoolean false)
  ∧ areParamsRequested ["filler"; "offerer"; "orderStatus"]
      (getRequestedParams queryFilters) = false.
Proof.
  intros queryFilters db. split.
  - refine (proj1 (getOrders_routes_exact_dimension_set _ _ _ _ _ _ _
               db (Some 10) queryFilters None ["offerer"; "orderStatus"] _) _).
    + refine (bool_decide_unpack _ _). vm_compute. exact I.
    + refine (bool_decide_unpack _ _). vm_compute. exact I.
  - refine (proj2 (getOrders_routes_exact_dimension_set
               Reference.TABLE_KEY_values Reference.encode Reference.decode
               Reference.JSON_parse Reference.JSON_stringify
               Reference.parseComparisonFilter Reference.entity_query
               db None queryFilters None ["filler"; "offerer"; "orderStatus"] _) _).
    + refine (bool_decide_unpack _ _). vm_compute. exact I.
    + left. refine (bool_decide_unpack _ _). vm_compute. exact I.
Defined.

(** C2 as stated fails: a filter set naming [orderHash] and [offerer] is not
    a supported dimension set, yet it is answered by the lookup of the hash. *)
Lemma unsupported_combination_counterexample :
  ¬ unsupported_combination_fails_as_stated.
Proof.
  intros Hclaim.
  specialize (Hclaim Reference.TABLE_KEY_values Reference.encode Reference.decode
                Reference.JSON_parse Reference.JSON_stringify
                Reference.parseComparisonFilter Reference.entity_query
                {| orders_table := ∅; nonce_table := ∅ |} (Some 10)
                {[ "orderHash" := JSString "0x01"; "offerer" := JSString "0xA" ]} None).
  assert (reference_getOrders {| orders_table := ∅; nonce_table := ∅ |} (Some 10)
            {[ "orderHash" := JSString "0x01"; "offerer" := JSString "0xA" ]} None
          = Ok {| orders := []; cursor := None |}) as Hruns.
  { vm_compute. reflexivity. }
  rewrite Hruns in Hclaim. discriminate Hclaim.
  refine (bool_decide_unpack _ _). vm_compute. exact I.
Qed.

Lemma getOrders_unsupported_combination_witness :
  let db := {| orders_table := ∅; nonce_table := ∅ |} in
  reference_getOrders db (Some 10)
    {[ "offerer" := JSString "0xA"; "sellToken" := JSString "0xT" ]} None
  = Throw invalid_query
  ∧ reference_getOrders db (Some 10)
      {[ "orderHash" := JSString "0x01"; "offerer" := JSString "0xA" ]} None
    = (order ← getByHash db (JSString "0x01");
       Ok {| orders := match order with Some o => [o] | None => [] end;
             cursor := None |})
  ∧ reference_getOrders db (Some 10)
      {[ "orderHashes" := JSArray [JSString "0x01"]; "chainId" := JSNumber 1 ]} None
    = (batchQuery ← table_batchGet db [JSString "0x01"];
       Ok {| orders := batchQuery; cursor := None |}).
Proof.
  intros db. split; [|split].
  - refine (proj1 (getOrders_unsupported_combination _ _ _ _ _ _ _ db (Some 10)
               {[ "offerer" := JSString "0xA"; "sellToken" := JSString "0xT" ]} None)
               _ _ _);
      refine (bool_decide_unpack _ _); vm_compute; exact I.
  - refine (proj1 (proj2 (getOrders_unsupported_combination
               Reference.TABLE_KEY_values Reference.encode Reference.decode
               Reference.JSON_parse Reference.JSON_stringify
               Reference.parseComparisonFilter Reference.entity_query db (Some 10)
               {[ "orderHash" := JSString "0x01"; "offerer" := JSString "0xA" ]} None))
               _).
    refine (bool_decide_unpack _ _). vm_compute. exact I.
  - refine (proj2 (proj2 (getOrders_unsupported_combination
               Reference.TABLE_KEY_values Reference.encode Reference.decode
               Reference.JSON_parse Reference.JSON_stringify
               Reference.parseComparisonFilter Reference.entity_query db (Some 10)
               {[ "orderHashes" := JSArray [JSString "0x01"]; "chainId" := JSNumber 1 ]}
               None)) _ _);
      refine (bool_decide_unpack _ _); vm_compute; exact I.
Defined.

End RoutingFacts.

(** ** The codec of cursors

    Base64 over JSON gives back every key whose attributes are strings and
    numbers. *)

Module CodecFacts.
Import Repository.

(** *** Base64 *)

Lemma base64_value_digit (d : N) :
  (d < 64)%N → Reference.base64_value (Reference.base64_digit d) = Some d.
Proof.
  intros Hd.
  assert (Forall (fun d => Reference.base64_value (Reference.base64_digit d) = Some d)
            (N.of_nat <$> seq 0 64)) as Hall.
  { refine (bool_decide_unpack _ _). vm_compute. exact I. }
  rewrite Forall_forall in Hall. apply Hall.
  apply list_elem_of_fmap. exists (N.to_nat d). split; [lia|].
  apply elem_of_seq. lia.
Qed.

Lemma base64_value_padding : Reference.base64_value "="%char = None.
Proof. reflexivity. Qed.

(** The four digits of a 24-bit group, read back in radix 64. *)
Lemma radix64 (n : N) :
  ((n / 262144) * 262144 + ((n / 4096) mod 64) * 4096 + ((n / 64) mod 64) * 64
   + n mod 64 = n)%N.
Proof.
  pose proof (N.div_mod n 64 ltac:(done)) as H1.
  pose proof (N.div_mod (n / 64) 64 ltac:(done)) as H2.
  pose proof (N.div_mod (n / 4096) 64 ltac:(done)) as H3.
  rewrite N.Div0.div_div in H2. change (64 * 64)%N with 4096%N in H2.
  rewrite N.Div0.div_div in H3. change (4096 * 64)%N with 262144%N in H3.
  generalize dependent (n / 262144)%N. generalize dependent ((n / 4096) mod 64)%N.
  generalize dependent (n / 4096)%N. generalize dependent ((n / 64) mod 64)%N.
  generalize dependent (n / 64)%N. generalize dependent (n mod 64)%N.
  intros. lia.
Qed.

Lemma digit_bounds (n : N) :
  (n < 16777216)%N →
  (n / 262144 < 64 ∧ (n / 4096) mod 64 < 64 ∧ (n / 64) mod 64 < 64 ∧ n mod 64 < 64)%N.
Proof.
  intros Hn. split; [|split; [|split]]; try by apply N.mod_lt.
  by apply N.Div0.div_lt_upper_bound.
Qed.

(** The three bytes of a 24-bit group. *)
Lemma group_bytes (a b c : N) :
  (a < 256)%N → (b < 256)%N → (c < 256)%N →
  let n := (a * 65536 + b * 256 + c)%N in
  (n / 65536 = a ∧ (n / 256) mod 256 = b ∧ n mod 256 = c ∧ n < 16777216)%N.
Proof.
  intros Ha Hb Hc n. subst n.
  assert ((a * 65536 + b * 256 + c) / 256 = a * 256 + b)%N as Hhigh.
  { symmetry. apply (N.div_unique _ _ _ c); lia. }
  split; [|split; [|split]].
  - symmetry. apply (N.div_unique _ _ _ (b * 256 + c)); lia.
  - rewrite Hhigh. symmetry. apply (N.mod_unique _ _ a); lia.
  - symmetry. apply (N.mod_unique _ _ (a * 256 + b)); lia.
  - lia.
Qed.

Lemma base64_values_group (d1 d2 d3 d4 : N) (rest : string) :
  (d1 < 64)%N → (d2 < 64)%N → (d3 < 64)%N → (d4 < 64)%N →
  omap Reference.base64_value
    (String.list_ascii_of_string
       (String (Reference.base64_digit d1) (String (Reference.base64_digit d2)
          (String (Reference.base64_digit d3) (String (Reference.base64_digit d4) rest)))))
  = d1 :: d2 :: d3 :: d4 :: omap Reference.base64_value (String.list_ascii_of_string rest).
Proof.
  intros H1 H2 H3 H4. cbn [String.list_ascii_of_string omap list_omap].
  by rewrite !base64_value_digit by done.
Qed.

(** Decoding gives back the bytes that were encoded. *)
Lemma base64_bytes_encode (s : string) :
  Reference.base64_bytes
    (omap Reference.base64_value
       (String.list_ascii_of_string (Reference.base64_encode s))) = s.
Proof.
  cut ((Reference.base64_bytes
          (omap Reference.base64_value
             (String.list_ascii_of_string (Reference.base64_encode s))) = s)
       ∧ (∀ a, Reference.base64_bytes
                 (omap Reference.base64_value
                    (String.list_ascii_of_string (Reference.base64_encode (String a s))))
               = String a s)
       ∧ (∀ a b, Reference.base64_bytes
                   (omap Reference.base64_value
                      (String.list_ascii_of_string
                         (Reference.base64_encode (String a (String b s)))))
                 = String a (String b s))).
  { by intros [? _]. }
  induction s as [|c s (IH0 & IH1 & IH2)].
  - split; [done|]. split.
    + intros a. pose proof (N_ascii_bounded a) as Ha.
      change (Reference.base64_encode (String a ""))
        with (let n := (N_of_ascii a * 65536)%N in
              String (Reference.base64_digit (n / 262144))
                (String (Reference.base64_digit ((n / 4096) mod 64)) "==")).
      cbv zeta.
      destruct (group_bytes (N_of_ascii a) 0 0 Ha) as (Hh & _ & _ & Hn); [done..|].
      rewrite !N.add_0_r in Hh, Hn.
      destruct (digit_bounds _ Hn) as (H1 & H2 & _ & _).
      cbn [String.list_ascii_of_string omap list_omap].
      rewrite !base64_value_digit by done. rewrite base64_value_padding.
      cbn [Reference.base64_bytes]. cbv zeta.
      pose proof (radix64 (N_of_ascii a * 65536)) as Hradix.
      assert ((N_of_ascii a * 65536) mod 64 = 0
              ∧ ((N_of_ascii a * 65536) / 64) mod 64 = 0)%N as [Hm1 Hm2].
      { split.
        - symmetry. apply (N.mod_unique _ _ (N_of_ascii a * 1024)); lia.
        - replace (N_of_ascii a * 65536 / 64)%N with (N_of_ascii a * 1024)%N.
          + symmetry. apply (N.mod_unique _ _ (N_of_ascii a * 16)); lia.
          + apply (N.div_unique _ _ _ 0); lia. }
      rewrite Hm1, Hm2 in Hradix. rewrite !N.mul_0_l, !N.add_0_r in Hradix.
      rewrite Hradix, Hh. by rewrite ascii_N_embedding.
    + intros a b. pose proof (N_ascii_bounded a) as Ha.
      pose proof (N_ascii_bounded b) as Hb.
      change (Reference.base64_encode (String a (String b "")))
        with (let n := (N_of_ascii a * 65536 + N_of_ascii b * 256)%N in
              String (Reference.base64_digit (n / 262144))
                (String (Reference.base64_digit ((n / 4096) mod 64))
                   (String (Reference.base64_digit ((n / 64) mod 64)) "="))).
      cbv zeta.
      destruct (group_bytes (N_of_ascii a) (N_of_ascii b) 0 Ha Hb) as (Hh & Hmid & _ & Hn);
        [done|].
      rewrite !N.add_0_r in Hh, Hmid, Hn.
      destruct (digit_bounds _ Hn) as (H1 & H2 & H3 & _).
      cbn [String.list_ascii_of_string omap list_omap].
      rewrite !base64_value_digit by done. rewrite base64_value_padding.
      cbn [Reference.base64_bytes]. cbv zeta.
      pose proof (radix64 (N_of_ascii a * 65536 + N_of_ascii b * 256)) as Hradix.
      assert ((N_of_ascii a * 65536 + N_of_ascii b * 256) mod 64 = 0)%N as Hm1.
      { symmetry. apply (N.mod_unique _ _ (N_of_ascii a * 1024 + N_of_ascii b * 4)); lia. }
      rewrite Hm1, N.add_0_r in Hradix.
      rewrite Hradix, Hh, Hmid. by rewrite !ascii_N_embedding.
  - split; [apply IH1|]. split; [intros a; apply IH2|].
    intros a b. pose proof (N_ascii_bounded a) as Ha.
    pose proof (N_ascii_bounded b) as Hb. pose proof (N_ascii_bounded c) as Hc.
    change (Reference.base64_encode (String a (String b (String c s))))
      with (let n := (N_of_ascii a * 65536 + N_of_ascii b * 256 + N_of_ascii c)%N in
            String (Reference.base64_digit (n / 262144))
              (String (Reference.base64_digit ((n / 4096) mod 64))
                 (String (Reference.base64_digit ((n / 64) mod 64))
                    (String (Reference.base64_digit (n mod 64))
                       (Reference.base64_encode s))))).
    cbv zeta.
    destruct (group_bytes (N_of_ascii a) (N_of_ascii b) (N_of_ascii c) Ha Hb Hc)
      as (Hh & Hmid & Hlow & Hn).
    destruct (digit_bounds _ Hn) as (H1 & H2 & H3 & H4).
    rewrite base64_values_group by done.
    cbn [Reference.base64_bytes]. cbv zeta.
    rewrite radix64, Hh, Hmid, Hlow, IH0. by rewrite !ascii_N_embedding.
Qed.

Lemma decode_encode (s : string) : Reference.decode (Reference.encode s) = Some s.
Proof. unfold Reference.decode, Reference.encode. by rewrite base64_bytes_encode. Qed.

End CodecFacts.

Module JSONFacts.
Import Repository CursorClaims JSONText.

Lemma append_cons (c : ascii) (s t : string) : String c s +:+ t = String c (s +:+ t).
Proof. reflexivity. Qed.

Lemma append_assoc (s t u : string) : (s +:+ t) +:+ u = s +:+ t +:+ u.
Proof. induction s as [|c s IH]; [done|]. by rewrite !append_cons, IH. Qed.

Lemma length_append (s t : string) :
  String.length (s +:+ t) = (String.length s + String.length t)%nat.
Proof. induction s as [|c s IH]; [done|]. rewrite append_cons. simpl. by rewrite IH. Qed.

(** *** Strings *)

Lemma parse_string_body_quote (s rest : string) :
  Reference.parse_string_body (Reference.JSON_quote s +:+ String Reference.dquote rest)
  = Some (s, rest).
Proof.
  induction s as [|c s IH].
  - reflexivity.
  - cbn [Reference.JSON_quote].
    destruct (Ascii.eqb c Reference.dquote) eqn:Hq.
    + cbn [orb]. rewrite !append_cons. cbn [Reference.parse_string_body].
      change (Ascii.eqb Reference.backslash Reference.dquote) with false.
      change (Ascii.eqb Reference.backslash Reference.backslash) with true.
      cbv iota. rewrite Hq. cbn [orb]. rewrite IH. reflexivity.
    + destruct (Ascii.eqb c Reference.backslash) eqn:Hb.
      * cbn [orb]. rewrite !append_cons. cbn [Reference.parse_string_body].
        change (Ascii.eqb Reference.backslash Reference.dquote) with false.
        change (Ascii.eqb Reference.backslash Reference.backslash) with true.
        cbv iota. rewrite Hq, Hb. cbn [orb]. rewrite IH. reflexivity.
      * cbn [orb]. rewrite append_cons. cbn [Reference.parse_string_body].
        rewrite Hq, Hb, IH. reflexivity.
Qed.

(** *** Numbers *)

Lemma digit_value_pretty_N_char (m : N) :
  (m < 10)%N → Reference.digit_value (pretty_N_char m) = Some m.
Proof.
  intros Hm.
  assert (m = 0 ∨ m = 1 ∨ m = 2 ∨ m = 3 ∨ m = 4 ∨ m = 5 ∨ m = 6 ∨ m = 7 ∨ m = 8 ∨ m = 9)%N
    as Hcases by lia.
  repeat (destruct Hcases as [->|Hcases]; [reflexivity|]). by subst.
Qed.

Lemma pretty_N_go_append (x : N) (s rest : string) :
  pretty_N_go x s +:+ rest = pretty_N_go x (s +:+ rest).
Proof.
  revert s. induction (N.lt_wf_0 x) as [x _ IH]. intros s.
  assert (x = 0 ∨ 0 < x)%N as [->|Hx] by lia.
  - by rewrite !pretty_N_go_0.
  - rewrite (pretty_N_go_step x s), (pretty_N_go_step x (s +:+ rest)) by done.
    rewrite IH by by apply N.div_lt. by rewrite append_cons.
Qed.

(** Reading the digits of [x] back gives [x]. *)
Lemma parse_digits_pretty_N_go (x : N) (s : string) (acc : N) :
  ∃ acc', Reference.parse_digits acc (pretty_N_go x s) = Reference.parse_digits acc' s
          ∧ (acc = 0%N → acc' = x).
Proof.
  revert s. induction (N.lt_wf_0 x) as [x _ IH]. intros s.
  assert (x = 0 ∨ 0 < x)%N as [->|Hx] by lia.
  - exists acc. rewrite pretty_N_go_0. by split.
  - rewrite pretty_N_go_step by done.
    destruct (IH (x `div` 10)%N ltac:(by apply N.div_lt)
                (String (pretty_N_char (x `mod` 10)) s)) as (acc1 & -> & Hacc1).
    exists (acc1 * 10 + x `mod` 10)%N. split.
    + cbn [Reference.parse_digits].
      by rewrite digit_value_pretty_N_char by by apply N.mod_lt.
    + intros Hacc. rewrite (Hacc1 Hacc).
      pose proof (N.div_mod x 10 ltac:(done)). lia.
Qed.

Lemma pretty_N_char_head (m : N) : pretty_N_char m ∈ number_heads.
Proof.
  unfold pretty_N_char, number_heads.
  repeat case_match; set_solver.
Qed.

Lemma pretty_N_go_head (x : N) (s : string) :
  (0 < x)%N → ∃ c r, pretty_N_go x s = String c r ∧ c ∈ number_heads.
Proof.
  revert s. induction (N.lt_wf_0 x) as [x _ IH]. intros s Hx.
  rewrite pretty_N_go_step by done.
  destruct (decide (x `div` 10 = 0)%N) as [->|Hdiv].
  - rewrite pretty_N_go_0. do 2 eexists. split; [done|]. apply pretty_N_char_head.
  - apply IH; [by apply N.div_lt|by apply N.neq_0_lt_0].
Qed.

Lemma parse_digits_end (n : N) (rest : string) :
  ends_value rest → Reference.parse_digits n rest = (n, rest).
Proof. by intros [r [->| ->]]. Qed.

Lemma parse_number_unsigned (c : ascii) (r : string) :
  c ∈ number_heads →
  Reference.parse_number (String c r)
  = (let '(n, rest) := Reference.parse_digits 0 (String c r) in
     match rest with
     | String "." _ | String "e" _ | String "E" _ => None
     | _ => Some (Z.of_N n, rest)
     end).
Proof.
  unfold number_heads. intros Hc.
  repeat (apply elem_of_cons in Hc as [->|Hc]; [reflexivity|]).
  by apply elem_of_nil in Hc.
Qed.

Lemma parse_number_signed (c : ascii) (r : string) :
  c ∈ number_heads →
  Reference.parse_number (String "-" (String c r))
  = (let '(n, rest) := Reference.parse_digits 0 (String c r) in
     match rest with
     | String "." _ | String "e" _ | String "E" _ => None
     | _ => Some ((- Z.of_N n)%Z, rest)
     end).
Proof.
  unfold number_heads. intros Hc.
  repeat (apply elem_of_cons in Hc as [->|Hc]; [reflexivity|]).
  by apply elem_of_nil in Hc.
Qed.

Lemma parse_number_pretty_N (x : N) (rest : string) :
  ends_value rest →
  ∃ c r, pretty x +:+ rest = String c r ∧ c ∈ number_heads
         ∧ Reference.parse_digits 0 (String c r) = (x, rest).
Proof.
  intros Hrest. unfold pretty, pretty_N. case_decide as Hx.
  - subst x. exists "0"%char, rest. split; [done|]. split; [set_solver|].
    cbn [Reference.parse_digits]. change (Reference.digit_value "0") with (Some 0%N).
    cbv iota. by apply parse_digits_end.
  - rewrite pretty_N_go_append. change ("" +:+ rest) with rest.
    destruct (pretty_N_go_head x rest ltac:(lia)) as (c & r & Hhead & Hc).
    exists c, r. split; [done|]. split; [done|]. rewrite <- Hhead.
    destruct (parse_digits_pretty_N_go x rest 0) as (acc' & -> & Hacc).
    rewrite (Hacc eq_refl). by apply parse_digits_end.
Qed.

Lemma parse_number_result (n : N) (rest : string) (sign : N -> Z) :
  ends_value rest →
  match rest with
  | String "." _ | String "e" _ | String "E" _ => None
  | _ => Some (sign n, rest)
  end = Some (sign n, rest).
Proof. by intros [r [->| ->]]. Qed.

Lemma parse_number_pretty (z : Z) (rest : string) :
  ends_value rest →
  Reference.parse_number (pretty z +:+ rest) = Some (z, rest)
  ∧ ∃ c r, pretty z +:+ rest = String c r ∧ c ∈ ("-"%char :: number_heads).
Proof.
  intros Hrest. destruct z as [|p|p].
  - change (pretty 0%Z) with (pretty 0%N).
    destruct (parse_number_pretty_N 0 rest Hrest) as (c & r & -> & Hc & Hdigits).
    split; [|exists c, r; split; [done|set_solver]].
    rewrite (parse_number_unsigned c r Hc), Hdigits.
    by rewrite (parse_number_result 0 rest Z.of_N).
  - change (pretty (Z.pos p)) with (pretty (N.pos p)).
    destruct (parse_number_pretty_N (N.pos p) rest Hrest) as (c & r & -> & Hc & Hdigits).
    split; [|exists c, r; split; [done|set_solver]].
    rewrite (parse_number_unsigned c r Hc), Hdigits.
    by rewrite (parse_number_result (N.pos p) rest Z.of_N).
  - change (pretty (Z.neg p)) with ("-" +:+ pretty (N.pos p)).
    rewrite append_assoc. change ("-" +:+ ?s) with (String "-" s).
    split; [|do 2 eexists; split; [done|set_solver]].
    destruct (parse_number_pretty_N (N.pos p) rest Hrest) as (c & r & -> & Hc & Hdigits).
    rewrite (parse_number_signed c r Hc), Hdigits.
    by rewrite (parse_number_result (N.pos p) rest (fun n => (- Z.of_N n)%Z)).
Qed.

(** *** Values and objects *)

Lemma option_bind_value {A B : Type} (f : A -> option B) (x : A) : Some x ≫= f = f x.
Proof. reflexivity. Qed.

Lemma skip_ws_solid (c : ascii) (r : string) :
  bool_decide (N_of_ascii c ∈ [32; 9; 10; 13]%N) = false →
  Reference.skip_ws (String c r) = String c r.
Proof. intros H. cbn [Reference.skip_ws]. by rewrite H. Qed.

Lemma skip_ws_end (rest : string) : ends_value rest → Reference.skip_ws rest = rest.
Proof. intros [r [->| ->]]; by apply skip_ws_solid. Qed.

Lemma parse_value_string (fuel : nat) (body : string) :
  Reference.parse_value (S fuel) (String Reference.dquote body)
  = ('(s, after) ← Reference.parse_string_body body; Some (JSString s, after)).
Proof. reflexivity. Qed.

Lemma parse_value_number (fuel : nat) (c : ascii) (r : string) :
  c ∈ ("-"%char :: number_heads) →
  Reference.parse_value (S fuel) (String c r)
  = ('(n, after) ← Reference.parse_number (String c r); Some (JSNumber n, after)).
Proof.
  unfold number_heads. intros Hc.
  repeat (apply elem_of_cons in Hc as [->|Hc]; [reflexivity|]).
  by apply elem_of_nil in Hc.
Qed.

Lemma parse_value_object (fuel : nat) (body : string) :
  Reference.parse_value (S fuel) (String "{" (String Reference.dquote body))
  = ('(fields, after) ← Reference.parse_members fuel (String Reference.dquote body);
     Some (JSObject fields, after)).
Proof. reflexivity. Qed.

Lemma parse_members_quote (fuel : nat) (body : string) :
  Reference.parse_members (S fuel) (String Reference.dquote body)
  = ('(key, after) ← Reference.parse_string_body body;
     match Reference.skip_ws after with
     | String ":" rest' =>
         '(v, after') ← Reference.parse_value fuel rest';
         match Reference.skip_ws after' with
         | String "," rest'' =>
             '(fields, after'') ← Reference.parse_members fuel rest'';
             Some ((key, v) :: fields, after'')
         | String "}" rest'' => Some ([(key, v)], rest'')
         | _ => None
         end
     | _ => None
     end).
Proof. reflexivity. Qed.

(** A key attribute followed by a separator parses back to itself. *)
Lemma parse_value_key_attribute (fuel : nat) (v : JSValue) (rest : string) :
  key_attribute v → ends_value rest →
  Reference.parse_value (S fuel) (Reference.JSON_stringify v +:+ rest) = Some (v, rest).
Proof.
  intros Hv Hrest. destruct v as [| | |z|s| |]; try done.
  - change (Reference.JSON_stringify (JSNumber z)) with (pretty z).
    destruct (parse_number_pretty z rest Hrest) as (Hnumber & c & r & Hhead & Hc).
    rewrite Hhead in Hnumber |- *.
    by rewrite (parse_value_number fuel c r Hc), Hnumber.
  - change (Reference.JSON_stringify (JSString s))
      with (String Reference.dquote (Reference.JSON_quote s +:+ String Reference.dquote "")).
    rewrite append_cons, append_assoc, append_cons.
    change ("" +:+ rest) with rest.
    by rewrite parse_value_string, parse_string_body_quote.
Qed.

Lemma JSON_stringify_key (fields : list (string * JSValue)) :
  Forall (fun field => key_attribute field.2) fields →
  Reference.JSON_stringify (JSObject fields)
  = String "{" (String.concat "," (member_text <$> fields) +:+ "}").
Proof.
  intros Hfields.
  change (Reference.JSON_stringify (JSObject fields))
    with (String "{"
            (String.concat ","
               (flat_map
                  (fun kv : string * JSValue =>
                     match kv.2 with
                     | JSUndefined => []
                     | _ => [Reference.quoted (Reference.JSON_quote kv.1) +:+ ":" +:+
                             match kv with (_, x) => Reference.JSON_stringify x end]
                     end) fields) +:+ "}")).
  do 2 f_equal. f_equal.
  induction Hfields as [|[k v] fields Hv _ IH]; [done|].
  cbn [flat_map fmap list_fmap]. rewrite <- IH. cbn [snd fst] in *.
  assert (Reference.quoted (Reference.JSON_quote k) +:+ ":" +:+ Reference.JSON_stringify v
          = member_text (k, v)) as ->.
  { unfold member_text, Reference.quoted. cbn [fst snd].
    rewrite append_assoc. reflexivity. }
  by destruct v.
Qed.

Lemma member_text_append (field : string * JSValue) (rest : string) :
  member_text field +:+ rest
  = String Reference.dquote
      (Reference.JSON_quote field.1 +:+
       String Reference.dquote (String ":" (Reference.JSON_stringify field.2 +:+ rest))).
Proof. unfold member_text. by rewrite append_cons, append_assoc, !append_cons. Qed.

(** The members of a key, followed by the closing brace, parse back. *)
Lemma parse_members_key (fields : list (string * JSValue)) (fuel : nat) (rest : string) :
  fields ≠ [] →
  Forall (fun field => key_attribute field.2) fields →
  (length fields < fuel)%nat →
  Reference.parse_members fuel
    (String.concat "," (member_text <$> fields) +:+ String "}" rest)
  = Some (fields, rest).
Proof.
  revert fuel. induction fields as [|[k v] fields IH]; [done|].
  intros fuel _ Hfields Hfuel.
  apply Forall_cons in Hfields as [Hv Hfields]. cbn [snd] in Hv.
  destruct fuel as [|[|fuel]]; [simpl in Hfuel; lia..|].
  destruct fields as [|field fields].
  - change (String.concat "," (member_text <$> [(k, v)])) with (member_text (k, v)).
    rewrite member_text_append, parse_members_quote. cbn [fst snd].
    rewrite parse_string_body_quote, option_bind_value. cbv beta iota.
    rewrite skip_ws_solid by reflexivity. cbv beta iota.
    rewrite parse_value_key_attribute by (done || by eexists; right).
    rewrite option_bind_value. cbv beta iota.
    rewrite skip_ws_solid by reflexivity. reflexivity.
  - change (String.concat "," (member_text <$> (k, v) :: field :: fields))
      with (member_text (k, v) +:+ "," +:+
            String.concat "," (member_text <$> field :: fields)).
    rewrite !append_assoc. change ("," +:+ ?s) with (String "," s).
    rewrite member_text_append, parse_members_quote. cbn [fst snd].
    rewrite parse_string_body_quote, option_bind_value. cbv beta iota.
    rewrite skip_ws_solid by reflexivity. cbv beta iota.
    rewrite parse_value_key_attribute by (done || by eexists; left).
    rewrite option_bind_value. cbv beta iota.
    rewrite skip_ws_solid by reflexivity. cbv beta iota.
    rewrite IH; [reflexivity|done|done|simpl in Hfuel |- *; lia].
Qed.

Lemma concat_length (members : list string) :
  Forall (fun member => (0 < String.length member)%nat) members →
  (length members <= String.length (String.concat "," members))%nat.
Proof.
  induction 1 as [|member members Hmember Hmembers IH]; [done|].
  destruct members as [|member' members]; [simpl; lia|].
  change (String.concat "," (member :: member' :: members))
    with (member +:+ "," +:+ String.concat "," (member' :: members)).
  rewrite !length_append. simpl in IH |- *. lia.
Qed.

(** A key whose attributes are strings and numbers is parsed back from its
    text. *)
Lemma JSON_parse_stringify (fields : list (string * JSValue)) :
  fields ≠ [] →
  Forall (fun field => key_attribute field.2) fields →
  Reference.JSON_parse (Reference.JSON_stringify (JSObject fields))
  = Some (JSObject fields).
Proof.
  intros Hne Hfields. rewrite JSON_stringify_key by done.
  unfold Reference.JSON_parse.
  assert (∃ body, String.concat "," (member_text <$> fields) +:+ "}"
                  = String Reference.dquote body) as [body Hbody].
  { destruct fields as [|field [|field' fields]]; [done|..].
    - change (String.concat "," (member_text <$> [field])) with (member_text field).
      rewrite member_text_append. by eexists.
    - change (String.concat "," (member_text <$> field :: field' :: fields))
        with (member_text field +:+ "," +:+
              String.concat "," (member_text <$> field' :: fields)).
      rewrite append_assoc, member_text_append. by eexists. }
  assert (length fields
          <= String.length (String.concat "," (member_text <$> fields)))%nat as Hlength.
  { rewrite <- (length_fmap member_text fields) at 1. apply concat_length.
    apply Forall_fmap, Forall_true. intros field. simpl. lia. }
  cbn [String.length]. rewrite length_append. rewrite Hbody, parse_value_object, <- Hbody.
  rewrite parse_members_key; [|done|done|simpl; lia].
  reflexivity.
Qed.

End JSONFacts.

Module CursorFacts.
Import Repository Catalog QueryClaims CursorClaims.

Lemma split_nonempty (sep : ascii) (s : string) : split sep s ≠ [].
Proof.
  destruct s as [|c s]; simpl; [done|].
  destruct (Ascii.eqb c sep); [done|]. by destruct (split sep s).
Qed.

(** Splitting distributes over a separator in the middle. *)
Lemma split_app (sep : ascii) (a b : string) :
  split sep (a +:+ String sep b) = (split sep a ++ split sep b)%list.
Proof.
  induction a as [|c a IH]; simpl.
  - by rewrite Ascii.eqb_refl.
  - destruct (Ascii.eqb c sep); [by rewrite IH|].
    rewrite IH. pose proof (split_nonempty sep a) as Hne.
    by destruct (split sep a).
Qed.

Lemma index_keys_NoDup (n : nat) : NoDup (index_keys n).
Proof. apply (NoDup_fmap_2 _), NoDup_seq. Qed.

(** A value never lists a property name twice. *)
Lemma Object_keys_of_NoDup (v : JSValue) (keys : list string) :
  Object_keys_of v = Ok keys → NoDup keys.
Proof.
  destruct v; simpl; intros [= <-];
    auto using NoDup_nil_2, index_keys_NoDup, NoDup_remove_dups.
Qed.

Section Cursor.
Variable TABLE_KEY_values : list string.
Variable encode : string -> string.
Variable decode : string -> option string.
Variable JSON_parse : string -> option JSValue.
Variable JSON_stringify : JSValue -> string.

Local Abbreviation validKeys := (validKeys TABLE_KEY_values).
Local Abbreviation getStartKey := (getStartKey TABLE_KEY_values decode JSON_parse).

(** A cursor that does not decode and parse is an invalid cursor. *)
Lemma getStartKey_unparsable (cursor index : string) :
  decode cursor ≫= JSON_parse = None →
  getStartKey cursor index = Throw invalid_cursor.
Proof. intros H. unfold Repository.getStartKey. by rewrite H. Qed.

(** A parsed key whose field set is the one the index expects is returned. *)
Lemma getStartKey_accepts (cursor index : string) (key : JSValue) (keys : list string) :
  decode cursor ≫= JSON_parse = Some key →
  Object_keys_of key = Ok keys →
  NoDup (validKeys index) →
  list_to_set keys = (list_to_set (validKeys index) : gset string) →
  getStartKey cursor index = Ok key.
Proof.
  intros Hparse Hkeys Hvalid Hset.
  unfold Repository.getStartKey. rewrite Hparse, Hkeys.
  cbv beta iota zeta delta [mbind result_bind].
  assert (keys ≡ₚ validKeys index) as Hperm.
  { apply NoDup_Permutation; [by eapply Object_keys_of_NoDup|done|].
    intros x. by rewrite <- !(elem_of_list_to_set (C := gset string)), Hset. }
  assert (((length keys =? length (validKeys index))%nat) = true) as ->.
  { apply Nat.eqb_eq. by rewrite Hperm. }
  assert (every (fun key => includes (validKeys index) key) keys = true) as ->; [|done].
  apply forallb_forall. intros x Hx%list_elem_of_In.
  apply bool_decide_eq_true. by rewrite <- Hperm.
Qed.

(** A parsed value that has keys, but not exactly those the index expects,
    is an invalid cursor. *)
Lemma getStartKey_rejects (cursor index : string) (key : JSValue) (keys : list string) :
  decode cursor ≫= JSON_parse = Some key →
  Object_keys_of key = Ok keys →
  list_to_set keys ≠ (list_to_set (validKeys index) : gset string) →
  getStartKey cursor index = Throw invalid_cursor.
Proof.
  intros Hparse Hkeys Hset.
  unfold Repository.getStartKey. rewrite Hparse, Hkeys.
  cbv beta iota zeta delta [mbind result_bind].
  destruct (negb (length keys =? length (validKeys index))%nat
            || negb (every (fun key => includes (validKeys index) key) keys))
    eqn:Htest; [done|].
  exfalso. apply Hset.
  apply orb_false_iff in Htest as [Hlen%negb_false_iff Hall%negb_false_iff].
  apply Nat.eqb_eq in Hlen. unfold every in Hall. rewrite forallb_forall in Hall.
  assert (keys ⊆+ validKeys index) as Hsub.
  { apply NoDup_submseteq; [by eapply Object_keys_of_NoDup|].
    intros x Hx%list_elem_of_In%Hall. by apply bool_decide_eq_true in Hx. }
  apply submseteq_length_Permutation in Hsub; [|lia].
  apply set_eq. intros x. by rewrite !elem_of_list_to_set, Hsub.
Qed.

(** Every valid key is the primary key or a piece of the index name. *)
Lemma elem_of_validKeys (index key : string) :
  key ∈ validKeys index → key = "orderHash" ∨ key ∈ split "-" index.
Proof.
  unfold Repository.validKeys. rewrite elem_of_app, list_elem_of_singleton.
  rewrite !list_elem_of_filter. unfold TABLE_KEY.ORDER_HASH. tauto.
Qed.

Lemma split_formattedIndex (index : string) (sortKey : JSValue) :
  split "-" (formattedIndex index sortKey)
  = (split "-" index
     ++ split "-" (ToString (nullish_coalesce sortKey (JSString TABLE_KEY.CREATED_AT)))
     ++ ["all"])%list.
Proof.
  unfold formattedIndex.
  change ("-" +:+ ?x) with (String "-" x).
  rewrite split_app.
  change "-all" with (String "-"%char "all").
  by rewrite split_app.
Qed.

(** The index names of the catalog are apart: the name of one template is
    neither the primary key, nor a piece of another template's name, nor the
    suffix of a formatted index name. *)
Lemma template_index_apart (a b : list string) :
  a ∈ templates → b ∈ templates → a ≠ b →
  template_index a ≠ "orderHash"
  ∧ (template_index a ∉ split "-" (template_index b))
  ∧ template_index a ≠ "all".
Proof.
  revert b. revert a.
  assert (Forall (fun a => Forall (fun b => a ≠ b →
            template_index a ≠ "orderHash"
            ∧ (template_index a ∉ split "-" (template_index b))
            ∧ template_index a ≠ "all") templates) templates) as H.
  { refine (bool_decide_unpack _ _). vm_compute. exact I. }
  intros a b Ha Hb. rewrite Forall_forall in H. specialize (H a Ha).
  rewrite Forall_forall in H. by apply H.
Qed.

(** Cross-index replay.  A continuation key of a query against the index of
    template [a] carries that index's partition attribute; submitted to a
    query against the index of another template [b], whose sort attribute is
    not that attribute, it is an invalid cursor. *)
Lemma getStartKey_rejects_other_index (a b : list string) (sortKey : JSValue)
    (cursor : string) (key : JSValue) (keys : list string) :
  a ∈ templates → b ∈ templates → a ≠ b →
  template_index a
    ∉ split "-" (ToString (nullish_coalesce sortKey (JSString TABLE_KEY.CREATED_AT))) →
  decode cursor ≫= JSON_parse = Some key →
  Object_keys_of key = Ok keys →
  template_index a ∈ keys →
  getStartKey cursor (formattedIndex (template_index b) sortKey) = Throw invalid_cursor.
Proof.
  intros Ha Hb Hab Hsort Hparse Hkeys Hin.
  eapply getStartKey_rejects; [done..|].
  intros Heq.
  assert (template_index a ∈ validKeys (formattedIndex (template_index b) sortKey)) as Hv.
  { rewrite <- (elem_of_list_to_set (C := gset string)), <- Heq.
    by apply elem_of_list_to_set. }
  apply elem_of_validKeys in Hv. rewrite split_formattedIndex in Hv.
  rewrite !elem_of_app, list_elem_of_singleton in Hv.
  destruct (template_index_apart a b Ha Hb Hab) as (Hhash & Hother & Hall).
  naive_solver.
Qed.

(** C3, at the input where the code departs from it.  A cursor that decodes
    and parses to [null] does not fail with the invalid-cursor error:
    [Object.keys(null)] throws a [TypeError] outside the [try] block. *)
Theorem getStartKey_null_cursor (cursor index : string) :
  decode cursor ≫= JSON_parse = Some JSNull →
  getStartKey cursor index
  = Throw (TypeError "Cannot convert undefined or null to object").
Proof. intros H. unfold Repository.getStartKey. by rewrite H. Qed.

End Cursor.

Lemma resolved_sort_key_eq (sortKey : JSValue) :
  ToString (nullish_coalesce sortKey (JSString TABLE_KEY.CREATED_AT))
  = resolved_sort_key sortKey.
Proof. by destruct sortKey. Qed.

(** The fields an index of the catalog implies: the primary key, the
    index's partition attribute and its sort attribute, provided the table
    keys name the two attributes and not the suffix of the index name. *)
Lemma validKeys_index (TABLE_KEY_values : list string) (template : list string)
    (sortKey : JSValue) :
  template ∈ templates →
  template_index template ∈ TABLE_KEY_values →
  resolved_sort_key sortKey ∈ TABLE_KEY_values →
  "all" ∉ TABLE_KEY_values →
  resolved_sort_key sortKey ≠ "" →
  split "-" (resolved_sort_key sortKey) = [resolved_sort_key sortKey] →
  validKeys TABLE_KEY_values (formattedIndex (template_index template) sortKey)
  = ["orderHash"; template_index template; resolved_sort_key sortKey].
Proof.
  intros Hin Hattr Hsort Hall Hne' Hsplit'.
  assert (split "-" (template_index template) = [template_index template]
          ∧ template_index template ≠ "") as [Hsplit Hne].
  { clear Hattr. revert template Hin. apply Forall_forall.
    refine (bool_decide_unpack _ _). vm_compute. exact I. }
  unfold Repository.validKeys.
  rewrite split_formattedIndex, resolved_sort_key_eq, Hsplit, Hsplit'.
  cbn [app].
  rewrite !filter_cons_True by done.
  rewrite filter_cons_False by done.
  by rewrite !filter_nil.
Qed.

Lemma template_index_not_primary (template : list string) :
  template ∈ templates → template_index template ≠ "orderHash".
Proof.
  revert template. apply Forall_forall.
  refine (bool_decide_unpack _ _). vm_compute. exact I.
Qed.

(** C9.  For every index of the catalog, with the caller's sort key or the
    default one, a continuation key that holds exactly the fields the index
    implies (the primary key [orderHash], the index's partition attribute and
    its sort attribute), each a string or a number, survives the round trip:
    decoding, for that index, the cursor that encodes the key gives the key
    back.  So does the cursor a query on that index returns when the store
    answers with that key.  The table keys, which are not part of the
    sources, are taken to name the two attributes of the index and not the
    suffix [all]; the codec is Base64 over JSON. *)
Theorem cursor_round_trip (TABLE_KEY_values : list string) (template : list string)
    (sortKey : JSValue) (fields : list (string * JSValue)) :
  let partition := template_index template in
  let sort := resolved_sort_key sortKey in
  let index := formattedIndex partition sortKey in
  let getStartKey :=
    getStartKey TABLE_KEY_values Reference.decode Reference.JSON_parse in
  template ∈ templates →
  partition ∈ TABLE_KEY_values → sort ∈ TABLE_KEY_values → "all" ∉ TABLE_KEY_values →
  sort ∉ ["orderHash"; partition; ""] → split "-" sort = [sort] →
  fields.*1 ≡ₚ ["orderHash"; partition; sort] →
  Forall (fun field => key_attribute field.2) fields →
  getStartKey (Reference.encode (Reference.JSON_stringify (JSObject fields))) index
  = Ok (JSObject fields)
  ∧ ∀ parseComparisonFilter entity_query db partitionKey requested cursor comparator
      desc page,
      queryOrderEntity TABLE_KEY_values Reference.encode Reference.decode
        Reference.JSON_parse Reference.JSON_stringify parseComparisonFilter entity_query
        db partitionKey partition requested cursor sortKey comparator desc = Ok page →
      (∀ options response,
         entity_query db partitionKey options = Ok response →
         LastEvaluatedKey response = JSObject fields) →
      ∃ next, Repository.cursor page = Some next
              ∧ getStartKey next index = Ok (JSObject fields).
Proof.
  intros partition sort index getStartKey Hin Hpartition Hsort Hall Hapart Hsplit
    Hfields Hvalues.
  assert (getStartKey (Reference.encode (Reference.JSON_stringify (JSObject fields)))
            index = Ok (JSObject fields)) as Hround.
  { assert (sort ≠ "orderHash" ∧ sort ≠ partition ∧ sort ≠ "") as (H1 & H2 & H3).
    { rewrite !not_elem_of_cons in Hapart. naive_solver. }
    pose proof (template_index_not_primary template Hin) as H4.
    pose proof (validKeys_index TABLE_KEY_values template sortKey Hin Hpartition Hsort
                  Hall H3 Hsplit) as Hkeys.
    assert (NoDup ["orderHash"; partition; sort]) as Hnodup.
    { repeat (apply NoDup_cons; split; [set_solver|]). apply NoDup_nil_2. }
    apply getStartKey_accepts with (keys := remove_dups fields.*1).
    - rewrite CodecFacts.decode_encode. cbn [mbind option_bind].
      apply JSONFacts.JSON_parse_stringify; [|done].
      intros ->. by apply Permutation_nil_cons in Hfields.
    - reflexivity.
    - fold partition sort index in Hkeys. by rewrite Hkeys.
    - fold partition sort index in Hkeys. rewrite Hkeys, <- Hfields.
      apply set_eq. intros x. by rewrite !elem_of_list_to_set, elem_of_remove_dups. }
  split; [exact Hround|].
  intros parseComparisonFilter entity_query db partitionKey requested cursor comparator
    desc page Hpage Hstore.
  unfold queryOrderEntity in Hpage.
  destruct (queryOptions TABLE_KEY_values Reference.decode Reference.JSON_parse
              parseComparisonFilter partition requested cursor sortKey comparator desc)
    as [options|e]; [|done].
  cbn [mbind result_bind] in Hpage.
  destruct (entity_query db partitionKey options) as [response|e] eqn:Hresponse; [|done].
  cbn [mbind result_bind] in Hpage. injection Hpage as <-.
  rewrite (Hstore options response Hresponse). cbn [ToBoolean Repository.cursor].
  eexists. split; [reflexivity|exact Hround].
Qed.

Abbreviation reference_getStartKey :=
  (getStartKey Reference.TABLE_KEY_values Reference.decode Reference.JSON_parse).

Lemma cursor_round_trip_witness :
  let fields := [ ("orderHash", JSString "0xabc"); ("filler_offerer", JSString "0xF_0xA");
                  ("createdAt", JSNumber 1700) ] in
  reference_getStartKey
    "eyJvcmRlckhhc2giOiIweGFiYyIsImZpbGxlcl9vZmZlcmVyIjoiMHhGXzB4QSIsImNyZWF0ZWRBdCI6MTcwMH0="
    "filler_offerer-createdAt-all"
  = Ok (JSObject fields).
Proof.
  intros fields.
  refine (proj1 (cursor_round_trip Reference.TABLE_KEY_values ["filler"; "offerer"]
                   JSUndefined fields _ _ _ _ _ _ _ _)).
  - refine (bool_decide_unpack _ _). vm_compute. exact I.
  - refine (bool_decide_unpack _ _). vm_compute. exact I.
  - refine (bool_decide_unpack _ _). vm_compute. exact I.
  - refine (bool_decide_unpack _ _). vm_compute. exact I.
  - refine (bool_decide_unpack _ _). vm_compute. exact I.
  - reflexivity.
  - reflexivity.
  - repeat constructor.
Defined.

Lemma getStartKey_null_cursor_witness :
  reference_getStartKey "bnVsbA==" "offerer-createdAt-all"
  = Throw (TypeError "Cannot convert undefined or null to object").
Proof.
  refine (getStartKey_null_cursor Reference.TABLE_KEY_values Reference.decode
            Reference.JSON_parse "bnVsbA==" "offerer-createdAt-all" _).
  vm_compute. reflexivity.
Defined.

(** The cursor of a query against [offerer-createdAt-all] is refused by a
    query against [filler-createdAt-all]. *)
Example cursor_replayed_against_other_index :
  reference_getStartKey
    "eyJvcmRlckhhc2giOiIweGFiYyIsIm9mZmVyZXIiOiIweEEiLCJjcmVhdGVkQXQiOjE3MDB9"
    (formattedIndex (template_index ["filler"]) JSUndefined)
  = Throw invalid_cursor.
Proof.
  refine (getStartKey_rejects_other_index Reference.TABLE_KEY_values
            Reference.encode Reference.decode Reference.JSON_parse
            Reference.JSON_stringify ["offerer"] ["filler"] JSUndefined
            _ _ ["orderHash"; "offerer"; "createdAt"] _ _ _ _ _ _ _).
  - refine (bool_decide_unpack _ _). vm_compute. exact I.
  - refine (bool_decide_unpack _ _). vm_compute. exact I.
  - discriminate.
  - refine (bool_decide_unpack _ _). vm_compute. exact I.
  - vm_compute. reflexivity.
  - vm_compute. reflexivity.
  - refine (bool_decide_unpack _ _). vm_compute. exact I.
Qed.

End CursorFacts.

Module WriteFacts.
Import Repository Composites.

(** The item [putOrderAndUpdateNonceTransaction] writes for an order. *)
Lemma put_writes (currentTimestampInSeconds : unit -> JSValue) (order : Item)
    (db : DB) (h : string) :
  prop order "orderHash" = JSString h →
  ∃ db' item,
    putOrderAndUpdateNonceTransaction currentTimestampInSeconds order db = Ok db'
    ∧ orders_table db' !! h = Some item
    ∧ (∀ h', h' ≠ h → orders_table db' !! h' = orders_table db !! h')
    ∧ item !! "createdAt" = Some (currentTimestampInSeconds tt)
    ∧ (∀ name fields, (name, fields) ∈ composite_attributes →
         item !! name = Some (join_fields order fields))
    ∧ (∀ k, k ∉ written_attributes → item !! k = order !! k)
    ∧ (∃ record,
         nonce_table db'
           !! (ToString (prop order "offerer") +:+ "-" +:+ ToString (prop order "chainId"))
         = Some record
         ∧ record !! "nonce" = Some (prop order "nonce")).
Proof.
  intros Hhash.
  unfold putOrderAndUpdateNonceTransaction.
  set (item := object_literal order _).
  assert (∀ k, k ∉ written_attributes → item !! k = order !! k) as Hframe.
  { intros k Hk. unfold written_attributes in Hk. simpl in Hk.
    unfold item, object_literal. simpl.
    rewrite !lookup_insert_ne; [done|set_solver..]. }
  assert (prop item TABLE_KEY.ORDER_HASH = JSString h) as Hkey.
  { unfold prop. rewrite Hframe; [done|].
    refine (bool_decide_unpack _ _). vm_compute. exact I. }
  unfold entity_put. rewrite Hkey. simpl.
  eexists _, item. split; [reflexivity|]. simpl.
  split; [by rewrite lookup_insert_eq|].
  split; [by intros h' Hh'; rewrite lookup_insert_ne|].
  split; [by unfold item, object_literal; simpl; rewrite lookup_insert_eq|].
  split.
  { intros name fields Hin. unfold composite_attributes in Hin.
    repeat (apply elem_of_cons in Hin as [[= -> ->]|Hin]);
      [..|by apply elem_of_nil in Hin];
      unfold item, object_literal; simpl;
      by rewrite ?lookup_insert_ne by done; rewrite lookup_insert_eq. }
  split; [done|].
  eexists. split; [by rewrite lookup_insert_eq|].
  apply lookup_union_Some_l. unfold object_literal. simpl.
  by rewrite lookup_insert_eq.
Qed.

Lemma lookup_spread_if_ne (cond : JSValue) (k k' : string) (v : JSValue) (o : Item) :
  k ≠ k' → spread_if cond k v o !! k' = o !! k'.
Proof. intros Hne. unfold spread_if. destruct (ToBoolean cond); by rewrite ?lookup_insert_ne. Qed.

(** The joins of two items that agree on the primary fields agree. *)
Lemma join_fields_agree (item item' : Item) (name : string) (fields : list string) :
  (name, fields) ∈ composite_attributes →
  (∀ f, f ∈ ["offerer"; "filler"; "chainId"; "orderStatus"] → prop item' f = prop item f) →
  join_fields item' fields = join_fields item fields.
Proof.
  intros Hin Hagree. unfold composite_attributes in Hin.
  repeat (apply elem_of_cons in Hin as [[= -> ->]|Hin]);
    [..|by apply elem_of_nil in Hin];
    unfold join_fields; simpl; by rewrite !Hagree by set_solver.
Qed.

(** The item [updateOrderStatus] leaves behind for an order it finds. *)
Lemma update_writes (db : DB) (h status : string) (txHash settledAmounts : JSValue)
    (old : Item) :
  orders_table db !! h = Some old →
  ∃ db' item,
    updateOrderStatus h status txHash settledAmounts db = Ok db'
    ∧ orders_table db' !! h = Some item
    ∧ item !! "orderStatus" = Some (JSString status)
    ∧ (∀ f, f ∈ ["offerer"; "filler"; "chainId"; "filler_offerer"; "chainId_filler"] →
         item !! f = old !! f)
    ∧ item !! "offerer_orderStatus"
      = Some (JSString (ToString (prop old "offerer") +:+ "_" +:+ status))
    ∧ item !! "filler_orderStatus"
      = Some (JSString (ToString (prop old "filler") +:+ "_" +:+ status))
    ∧ item !! "chainId_orderStatus"
      = Some (JSString (ToString (prop old "chainId") +:+ "_" +:+ status))
    ∧ item !! "chainId_orderStatus_filler"
      = Some (JSString (ToString (prop old "chainId") +:+ "_" +:+ status
                        +:+ "_" +:+ ToString (prop old "filler")))
    ∧ item !! "filler_offerer_orderStatus"
      = Some (JSString (ToString (prop old "filler") +:+ "_"
                        +:+ ToString (prop old "offerer") +:+ "_" +:+ status)).
Proof.
  intros Hold.
  unfold updateOrderStatus, getByHash, entity_get. simpl. rewrite Hold. simpl.
  match goal with
  | |- context [spread_if settledAmounts _ _ (spread_if txHash _ _ ?b)] =>
      set (base := b)
  end.
  set (attrs := spread_if _ _ _ _).
  assert (∀ k, k ≠ "settledAmounts" → k ≠ "txHash" → attrs !! k = base !! k) as Hattrs.
  { intros k H1 H2. unfold attrs. by rewrite !lookup_spread_if_ne. }
  assert (prop attrs TABLE_KEY.ORDER_HASH = JSString h) as Hkey.
  { unfold prop. rewrite Hattrs by done. unfold base. by lookup_literal. }
  unfold entity_update. rewrite Hkey. simpl. rewrite Hold. simpl.
  eexists _, (attrs ∪ old). split; [reflexivity|]. simpl.
  split; [by rewrite lookup_insert_eq|].
  split.
  { apply lookup_union_Some_l. rewrite Hattrs by done. unfold base. by lookup_literal. }
  split.
  { intros f Hf. apply lookup_union_r. rewrite Hattrs by set_solver.
    unfold base, object_literal. simpl. rewrite !lookup_insert_ne by set_solver. done. }
  repeat split; apply lookup_union_Some_l; rewrite Hattrs by done; unfold base;
    by lookup_literal.
Qed.

(** C4.  Both writes keep the seven composite attributes consistent with
    the primary fields.  The item that [putOrderAndUpdateNonceTransaction]
    stores holds the caller's offerer, filler, chainId and orderStatus, and
    each composite is the join of these stored values.  [updateOrderStatus],
    on an order it finds, stores the new status, leaves offerer, filler and
    chainId as they were, recomputes every composite that involves the status
    with the new status, and the composites without the status, consistent
    before, are consistent after. *)
Theorem composites_consistent_after_writes :
  (∀ (currentTimestampInSeconds : unit -> JSValue) (order : Item) (db : DB) (h : string),
     prop order "orderHash" = JSString h →
     ∃ db' item,
       putOrderAndUpdateNonceTransaction currentTimestampInSeconds order db = Ok db'
       ∧ orders_table db' !! h = Some item
       ∧ (∀ f, f ∈ ["offerer"; "filler"; "chainId"; "orderStatus"] →
            item !! f = order !! f)
       ∧ composites_consistent item)
  ∧ (∀ (db : DB) (h status : string) (txHash settledAmounts : JSValue) (old : Item),
       orders_table db !! h = Some old →
       old !! "filler_offerer" = Some (join_fields old ["filler"; "offerer"]) →
       old !! "chainId_filler" = Some (join_fields old ["chainId"; "filler"]) →
       ∃ db' item,
         updateOrderStatus h status txHash settledAmounts db = Ok db'
         ∧ orders_table db' !! h = Some item
         ∧ item !! "orderStatus" = Some (JSString status)
         ∧ (∀ f, f ∈ ["offerer"; "filler"; "chainId"] → item !! f = old !! f)
         ∧ composites_consistent item).
Proof.
  split.
  - intros now order db h Hhash.
    destruct (put_writes now order db h Hhash)
      as (db' & item & Hput & Hitem & _ & _ & Hcomposites & Hframe & _).
    exists db', item. split; [done|]. split; [done|].
    assert (∀ f, f ∈ ["offerer"; "filler"; "chainId"; "orderStatus"] →
              item !! f = order !! f) as Hprimary.
    { intros f Hf. apply Hframe. unfold written_attributes. simpl. set_solver. }
    split; [done|].
    intros name fields Hin. rewrite (Hcomposites name fields Hin). f_equal.
    symmetry. apply (join_fields_agree _ _ name); [done|].
    intros f Hf. unfold prop. by rewrite Hprimary.
  - intros db h status txHash settledAmounts old Hold Hfo Hcf.
    destruct (update_writes db h status txHash settledAmounts old Hold)
      as (db' & item & Hupdate & Hitem & Hstatus & Hkept & H1 & H2 & H3 & H4 & H5).
    exists db', item. split; [done|]. split; [done|]. split; [done|].
    split; [intros f Hf; apply Hkept; set_solver|].
    assert (prop item "offerer" = prop old "offerer") as Ho
      by (unfold prop; rewrite Hkept; [done|set_solver]).
    assert (prop item "filler" = prop old "filler") as Hf
      by (unfold prop; rewrite Hkept; [done|set_solver]).
    assert (prop item "chainId" = prop old "chainId") as Hc
      by (unfold prop; rewrite Hkept; [done|set_solver]).
    assert (prop item "orderStatus" = JSString status) as Hs
      by (unfold prop; by rewrite Hstatus).
    intros name fields Hin. unfold composite_attributes in Hin.
    repeat (apply elem_of_cons in Hin as [[= -> ->]|Hin]);
      [..|by apply elem_of_nil in Hin];
      unfold join_fields; simpl; rewrite ?Ho, ?Hf, ?Hc, ?Hs; simpl;
      first [ done | rewrite Hkept by set_solver; done ].
Qed.

(** C10.  [putOrderAndUpdateNonceTransaction] stores the order under its
    hash with [createdAt] set to the clock's reading, whatever [createdAt]
    the caller supplied; every attribute of the order other than
    [createdAt] and the seven composite attributes is stored as supplied;
    the other orders of the table are untouched, and the nonce record of the
    offerer and chain holds the order's nonce. *)
Theorem put_sets_createdAt_and_keeps_fields
    (currentTimestampInSeconds : unit -> JSValue) (order : Item) (db : DB) (h : string) :
  prop order "orderHash" = JSString h →
  ∃ db' item,
    putOrderAndUpdateNonceTransaction currentTimestampInSeconds order db = Ok db'
    ∧ orders_table db' !! h = Some item
    ∧ item !! "createdAt" = Some (currentTimestampInSeconds tt)
    ∧ (∀ k, k ∉ written_attributes → item !! k = order !! k)
    ∧ (∀ h', h' ≠ h → orders_table db' !! h' = orders_table db !! h')
    ∧ (∃ record,
         nonce_table db'
           !! (ToString (prop order "offerer") +:+ "-" +:+ ToString (prop order "chainId"))
         = Some record
         ∧ record !! "nonce" = Some (prop order "nonce")).
Proof.
  intros Hhash.
  destruct (put_writes currentTimestampInSeconds order db h Hhash)
    as (db' & item & Hput & Hitem & Hothers & Hcreated & _ & Hframe & Hnonce).
  by exists db', item.
Qed.

Lemma composites_consistent_after_writes_witness :
  let db := {| orders_table := ∅; nonce_table := ∅ |} in
  (∃ db' item,
     putOrderAndUpdateNonceTransaction Reference.currentTimestampInSeconds
       Reference.MOCK_ORDER_ENTITY db = Ok db'
     ∧ orders_table db' !! "0xc57af022" = Some item
     ∧ (∀ f, f ∈ ["offerer"; "filler"; "chainId"; "orderStatus"] →
          item !! f = Reference.MOCK_ORDER_ENTITY !! f)
     ∧ composites_consistent item)
  ∧ (let old : Item :=
       {[ "orderHash" := JSString "0xc57af022"; "offerer" := JSString "0xofferer";
          "orderStatus" := JSString "open"; "chainId" := JSNumber 1;
          "filler_offerer" := JSString "undefined_0xofferer";
          "chainId_filler" := JSString "1_undefined" ]} in
     let db1 := {| orders_table := {[ "0xc57af022" := old ]}; nonce_table := ∅ |} in
     ∃ db' item,
       updateOrderStatus "0xc57af022" "filled" (JSString "0xtx") JSUndefined db1 = Ok db'
       ∧ orders_table db' !! "0xc57af022" = Some item
       ∧ item !! "orderStatus" = Some (JSString "filled")
       ∧ (∀ f, f ∈ ["offerer"; "filler"; "chainId"] → item !! f = old !! f)
       ∧ composites_consistent item).
Proof.
  intros db. split.
  - apply (proj1 composites_consistent_after_writes). vm_compute. reflexivity.
  - intros old db1.
    apply (proj2 composites_consistent_after_writes); vm_compute; reflexivity.
Defined.

Lemma put_sets_createdAt_and_keeps_fields_witness :
  let db := {| orders_table := ∅; nonce_table := ∅ |} in
  ∃ db' item,
    putOrderAndUpdateNonceTransaction Reference.currentTimestampInSeconds
      Reference.MOCK_ORDER_ENTITY db = Ok db'
    ∧ orders_table db' !! "0xc57af022" = Some item
    ∧ item !! "createdAt" = Some (JSString "1700000000")
    ∧ (∀ k, k ∉ written_attributes → item !! k = Reference.MOCK_ORDER_ENTITY !! k)
    ∧ (∀ h', h' ≠ "0xc57af022" → orders_table db' !! h' = orders_table db !! h')
    ∧ (∃ record,
         nonce_table db' !! "0xofferer-1" = Some record
         ∧ record !! "nonce" = Some (JSString "0xnonce")).
Proof.
  intros db.
  apply (put_sets_createdAt_and_keeps_fields Reference.currentTimestampInSeconds
           Reference.MOCK_ORDER_ENTITY db "0xc57af022").
  vm_compute. reflexivity.
Defined.

End WriteFacts.

Module ValidatorFacts.
Import Validator ValidatorClaims.

Section Validation.
Variable isValidNonce : string -> option string.
Variable isValidEthAddress : string -> option string.
Variable isValidOrderHash : string -> option string.
Variable getCurrentTime : unit -> Z.
Variable minOffset : Z.

Local Abbreviation validateDeadline := (validateDeadline getCurrentTime minOffset).
Local Abbreviation validateNonce := (validateNonce isValidNonce).
Local Abbreviation validateOfferer := (validateOfferer isValidEthAddress).
Local Abbreviation validateReactor := (validateReactor isValidEthAddress).
Local Abbreviation validateInputToken := (validateInputToken isValidEthAddress).
Local Abbreviation validateOutputs := (validateOutputs isValidEthAddress).
Local Abbreviation validateHash := (validateHash isValidOrderHash).
Local Abbreviation output_checks := (output_checks isValidEthAddress).
Local Abbreviation order_checks :=
  (order_checks isValidNonce isValidEthAddress isValidOrderHash getCurrentTime minOffset).
Local Abbreviation validate :=
  (validate isValidNonce isValidEthAddress isValidOrderHash getCurrentTime minOffset).

Lemma first_failure_app (checks checks' : list OrderValidationResponse) :
  first_failure (checks ++ checks')
  = if valid (first_failure checks) then first_failure checks'
    else first_failure checks.
Proof.
  induction checks as [|r checks IH]; simpl; [done|].
  destruct (valid r) eqn:Hr; [done|]. by rewrite Hr.
Qed.

Lemma first_failure_all_valid (checks : list OrderValidationResponse) :
  Forall (fun r => valid r = true) checks → first_failure checks = ok_response.
Proof. induction 1 as [|r checks Hr _ IH]; simpl; [done|]. by rewrite Hr. Qed.

(** The loop of [validateOutputs] is the first failure among the checks of
    the outputs, output after output. *)
Lemma validateOutputs_first_failure (dutchOutputs : list DutchOutput) :
  validateOutputs dutchOutputs = first_failure (flat_map output_checks dutchOutputs).
Proof.
  induction dutchOutputs as [|output rest IH]; [done|].
  change (flat_map output_checks (output :: rest))
    with (output_checks output ++ flat_map output_checks rest)%list.
  rewrite first_failure_app, <- IH. unfold Validator.output_checks. simpl.
  destruct (isValidEthAddress (token output)); simpl; [done|].
  destruct (isValidEthAddress (recipient output)); simpl; [done|].
  destruct (isValidUint256 (startAmount output)); simpl; [|done].
  destruct (isValidUint256 (endAmount output)); simpl; [|done].
  repeat case_decide; simpl; try done; lia.
Qed.

(** C5.  [validate] answers the first failure among the nine checks, taken
    in the order deadline, startTime, nonce, offerer, reactor, input token,
    input amount, outputs, hash, and the valid response without a reason when
    none fails; the outputs check is the first failure among the five checks
    of each output (token, recipient, startAmount, endAmount,
    endAmount ≤ startAmount), output after output.  So when the seven checks
    before the outputs pass and every output before some output passes its
    checks, a failure of that output is the answer of the whole validation. *)
Theorem validate_first_failure_wins (order : DutchLimitOrder) :
  validate order = first_failure (order_checks order)
  ∧ validateOutputs (outputs (info order))
    = first_failure (flat_map output_checks (outputs (info order)))
  ∧ (Forall (fun r => valid r = true) (order_checks order) →
     validate order = {| valid := true; errorString := None |})
  ∧ (∀ before output after,
       outputs (info order) = (before ++ output :: after)%list →
       Forall (fun r => valid r = true) (take 7 (order_checks order)) →
       Forall (fun o => Forall (fun r => valid r = true) (output_checks o)) before →
       valid (first_failure (output_checks output)) = false →
       validate order = first_failure (output_checks output)).
Proof.
  assert (validate order = first_failure (order_checks order)) as Hvalidate.
  { unfold Validator.validate, Validator.order_checks.
    rewrite <- validateOutputs_first_failure. simpl.
    repeat match goal with
    | |- context [valid ?r] => destruct (valid r); simpl; try done
    end. }
  split; [done|]. split; [apply validateOutputs_first_failure|].
  split; [by intros Hall; rewrite Hvalidate, first_failure_all_valid|].
  intros before output after Houtputs Hfirst Hbefore Hfails.
  set (r := first_failure (output_checks output)) in *.
  assert (first_failure (flat_map output_checks (outputs (info order))) = r) as Houts.
  { rewrite Houtputs, flat_map_app, first_failure_app.
    rewrite (first_failure_all_valid (flat_map output_checks before)).
    - change (valid ok_response) with true. cbv iota.
      change (flat_map output_checks (output :: after))
        with (output_checks output ++ flat_map output_checks after)%list.
      rewrite first_failure_app. fold r. by rewrite Hfails.
    - apply Forall_flat_map. by rewrite Forall_forall in Hbefore |- *. }
  rewrite Hvalidate, <- (take_drop 7 (order_checks order)), first_failure_app.
  rewrite (first_failure_all_valid _ Hfirst).
  change (valid ok_response) with true. cbv iota.
  change (drop 7 (order_checks order))
    with [first_failure (flat_map output_checks (outputs (info order)));
          validateHash (hash order)].
  rewrite Houts. cbn [first_failure]. by rewrite Hfails.
Qed.

(** The two tests of the deadline gate in the order the code runs them,
    for every offset: a deadline below [now + minOffset] is insufficient, and
    one that passes this test and lies more than a year ahead is too far. *)
Lemma deadline_gates (order : DutchLimitOrder) :
  let now := getCurrentTime tt in
  (deadline (info order) < now + minOffset →
   validate order = insufficient_deadline)
  ∧ (now + minOffset <= deadline (info order) →
     deadline (info order) > now + ONE_YEAR_IN_SECONDS →
     validate order = expiry_too_far).
Proof.
  intros now. subst now.
  unfold Validator.validate, Validator.validateDeadline.
  split; intros; repeat (case_decide; simpl; try done; try lia).
Qed.

(** C6.  For a validator whose offset is at most one year, as the
    constructor's default of 60 seconds is: [validate] fails with the
    insufficient-deadline reason whenever [deadline < now + minOffset], with
    the one-year reason whenever [deadline > now + one year], and fails
    whenever [startTime > deadline]; a deadline within both bounds with a
    [startTime] not after it passes both gates. *)
Theorem deadline_rule (order : DutchLimitOrder) :
  minOffset <= ONE_YEAR_IN_SECONDS →
  let now := getCurrentTime tt in
  (deadline (info order) < now + minOffset →
   validate order = insufficient_deadline)
  ∧ (deadline (info order) > now + ONE_YEAR_IN_SECONDS →
     validate order = expiry_too_far)
  ∧ (startTime (info order) > deadline (info order) →
     valid (validate order) = false)
  ∧ (now + minOffset <= deadline (info order) <= now + ONE_YEAR_IN_SECONDS →
     startTime (info order) <= deadline (info order) →
     validateDeadline (deadline (info order)) = ok_response
     ∧ validateStartTime (startTime (info order)) (deadline (info order)) = ok_response).
Proof.
  intros Hoffset now. subst now.
  destruct (deadline_gates order) as [Hlow Hhigh]. cbv zeta in Hlow, Hhigh.
  split; [exact Hlow|]. split; [intros; apply Hhigh; lia|].
  unfold Validator.validate, Validator.validateDeadline, validateStartTime.
  split; intros; repeat (case_decide; simpl; try done; try lia).
Qed.

End Validation.

Abbreviation reference_validate now minOffset :=
  (validate Reference.isValidNonce Reference.isValidEthAddress
     Reference.isValidOrderHash (fun _ => now) minOffset).

Example sample_order_valid :
  reference_validate 1000 60 Reference.sample_order
  = {| valid := true; errorString := None |}.
Proof. vm_compute. reflexivity. Qed.

Example uint256_bounds :
  isValidUint256 (2 ^ 256 - 1) = true ∧ isValidUint256 (2 ^ 256) = false
  ∧ isValidUint256 (-1) = false.
Proof. vm_compute. done. Qed.

Lemma validate_first_failure_wins_witness :
  let good := {| token := "0x6B3595068778DD592e39A122f4f5a5cF09C90fE2";
                 recipient := "0x11E4857Bb9993a50c685A79AFad4E6F65D518DDa";
                 startAmount := 20; endAmount := 10 |} in
  let rising := {| token := "0x6B3595068778DD592e39A122f4f5a5cF09C90fE2";
                   recipient := "0x11E4857Bb9993a50c685A79AFad4E6F65D518DDa";
                   startAmount := 10; endAmount := 20 |} in
  let malformed := {| token := "0xcorn"; recipient := "0xbad";
                      startAmount := -1; endAmount := 2 ^ 256 |} in
  reference_validate 1000 60 Reference.sample_order
  = {| valid := true; errorString := None |}
  ∧ reference_validate 1000 60
      (Reference.with_outputs [good; rising; malformed] Reference.sample_order)
    = invalid "Invalid endAmount > startAmount".
Proof.
  intros good rising malformed. split.
  - refine (proj1 (proj2 (proj2 (validate_first_failure_wins
              Reference.isValidNonce Reference.isValidEthAddress
              Reference.isValidOrderHash (fun _ => 1000) 60 Reference.sample_order))) _).
    refine (bool_decide_unpack _ _). vm_compute. exact I.
  - refine (proj2 (proj2 (proj2 (validate_first_failure_wins
              Reference.isValidNonce Reference.isValidEthAddress
              Reference.isValidOrderHash (fun _ => 1000) 60
              (Reference.with_outputs [good; rising; malformed] Reference.sample_order))))
              [good] rising [malformed] _ _ _ _).
    + reflexivity.
    + refine (bool_decide_unpack _ _). vm_compute. exact I.
    + refine (bool_decide_unpack _ _). vm_compute. exact I.
    + vm_compute. reflexivity.
Defined.

(** With the default offset an order is valid up to the one-year bound; with
    an offset of two years a deadline 366 days ahead is already insufficient. *)
Example deadline_bounds :
  valid (reference_validate 1000 60
           (Reference.with_deadline (1000 + ONE_YEAR_IN_SECONDS) Reference.sample_order))
  = true
  ∧ reference_validate 0 (2 * ONE_YEAR_IN_SECONDS)
      (Reference.with_deadline (366 * 86400) Reference.sample_order)
    = insufficient_deadline.
Proof. vm_compute. done. Qed.

Lemma deadline_rule_witness :
  reference_validate 1000 60 (Reference.with_deadline (1000 + 30) Reference.sample_order)
  = insufficient_deadline
  ∧ reference_validate 1000 60
      (Reference.with_deadline (1000 + 366 * 86400) Reference.sample_order)
    = expiry_too_far
  ∧ valid (reference_validate 1000 60
             (Reference.with_deadline 1200 Reference.sample_order)) = false
  ∧ (validateDeadline (fun _ => 1000) 60 2000 = ok_response
     ∧ validateStartTime 1500 2000 = ok_response).
Proof.
  assert (60 <= ONE_YEAR_IN_SECONDS) as Hoffset by (vm_compute; discriminate).
  split; [|split; [|split]].
  - refine (proj1 (deadline_rule Reference.isValidNonce Reference.isValidEthAddress
              Reference.isValidOrderHash (fun _ => 1000) 60
              (Reference.with_deadline (1000 + 30) Reference.sample_order) Hoffset) _).
    vm_compute. reflexivity.
  - refine (proj1 (proj2 (deadline_rule Reference.isValidNonce
              Reference.isValidEthAddress Reference.isValidOrderHash (fun _ => 1000) 60
              (Reference.with_deadline (1000 + 366 * 86400) Reference.sample_order)
              Hoffset)) _).
    vm_compute. reflexivity.
  - refine (proj1 (proj2 (proj2 (deadline_rule Reference.isValidNonce
              Reference.isValidEthAddress Reference.isValidOrderHash (fun _ => 1000) 60
              (Reference.with_deadline 1200 Reference.sample_order) Hoffset))) _).
    vm_compute. reflexivity.
  - refine (proj2 (proj2 (proj2 (deadline_rule Reference.isValidNonce
              Reference.isValidEthAddress Reference.isValidOrderHash (fun _ => 1000) 60
              Reference.sample_order Hoffset))) _ _).
    + vm_compute. split; discriminate.
    + vm_compute. discriminate.
Defined.

End ValidatorFacts.

Module QueryFacts.
Import Repository QueryClaims Catalog.

Section RangeQuery.
Variable TABLE_KEY_values : list string.
Variable encode : string -> string.
Variable decode : string -> option string.
Variable JSON_parse : string -> option JSValue.
Variable JSON_stringify : JSValue -> string.
Variable parseComparisonFilter : JSValue -> result (option ComparisonFilter).

Local Abbreviation getStartKey := (getStartKey TABLE_KEY_values decode JSON_parse).
Local Abbreviation queryOptions :=
  (queryOptions TABLE_KEY_values decode JSON_parse parseComparisonFilter).
Local Abbreviation queryOrderEntity entity_query :=
  (queryOrderEntity TABLE_KEY_values encode decode JSON_parse JSON_stringify
     parseComparisonFilter entity_query).
Local Abbreviation getOrders entity_query :=
  (getOrders TABLE_KEY_values encode decode JSON_parse JSON_stringify
     parseComparisonFilter entity_query).
Local Abbreviation asks_store := (asks_store encode JSON_stringify).

(** What the options object holds whenever it is built. *)
Lemma queryOptions_Ok (name : string) (requested : option Z) (cursor : option string)
    (sortKey sort desc : JSValue) (options : QueryOptions) :
  queryOptions name requested cursor sortKey sort desc = Ok options →
  ∃ parsed,
    (if ToBoolean sortKey then parseComparisonFilter sort else Ok None) = Ok parsed
    ∧ index options = formattedIndex name sortKey
    ∧ limit options = match requested with
                      | Some l => if (l =? 0)%Z then MAX_ORDERS else Z.min l MAX_ORDERS
                      | None => MAX_ORDERS
                      end
    ∧ reverse options
      = (if ToBoolean sortKey then (fun _ => selected_direction desc) <$> parsed else None).
Proof.
  unfold Repository.queryOptions. intros H.
  destruct (if ToBoolean sortKey then parseComparisonFilter sort else Ok None)
    as [parsed|e] eqn:Hparsed; [|done].
  cbn [mbind result_bind] in H.
  match type of H with
  | mbind _ ?m = _ => destruct m as [startKey|e]; [|done]
  end.
  cbn [mbind result_bind] in H. injection H as <-. by exists parsed.
Qed.

(** The options object is built whenever the comparator of a sorted query
    parses and the cursor, when one is given, is accepted for the index. *)
Lemma queryOptions_built (name : string) (requested : option Z) (cursor : option string)
    (sortKey sort desc : JSValue) :
  (ToBoolean sortKey = true → ∃ parsed, parseComparisonFilter sort = Ok parsed) →
  (∀ c, cursor = Some c → c ≠ "" →
        ∃ key, getStartKey c (formattedIndex name sortKey) = Ok key) →
  ∃ options, queryOptions name requested cursor sortKey sort desc = Ok options.
Proof.
  intros Hsort Hcursor. unfold Repository.queryOptions.
  assert (∃ parsed, (if ToBoolean sortKey then parseComparisonFilter sort else Ok None)
                    = Ok parsed) as [parsed ->].
  { destruct (ToBoolean sortKey); [by apply Hsort|by eexists]. }
  cbn [mbind result_bind].
  destruct cursor as [c|]; [|by eexists].
  destruct (String.eqb_spec c "") as [->|Hc]; [by eexists|].
  destruct (Hcursor c eq_refl Hc) as [key ->]. by eexists.
Qed.

(** [queryOrderEntity] hands the store the options object it built, with the
    partition key it was given, and builds its page from the answer. *)
Lemma queryOrderEntity_asks_store (db : DB) (partitionKey : JSValue) (name : string)
    (requested : option Z) (cursor : option string) (sortKey sort desc : JSValue)
    (options : QueryOptions) :
  queryOptions name requested cursor sortKey sort desc = Ok options →
  asks_store
    (fun entity_query =>
       queryOrderEntity entity_query db partitionKey name requested cursor sortKey sort desc)
    db partitionKey options.
Proof.
  intros Hoptions entity_query. unfold Repository.queryOrderEntity.
  rewrite Hoptions. reflexivity.
Qed.

(** A filter set whose requested dimensions are a template's is answered by
    the template's range query, whatever the store is. *)
Lemma getOrders_template_query
    (entity_query : DB -> JSValue -> QueryOptions -> result QueryResponse)
    (db : DB) (requested : option Z) (queryFilters : Item) (cursor : option string)
    (template : list string) :
  template ∈ templates →
  requestedDimensions queryFilters = list_to_set template →
  getOrders entity_query db requested queryFilters cursor
  = queryOrderEntity entity_query db (template_key template queryFilters)
      (template_index template) requested cursor
      (prop queryFilters "sortKey") (prop queryFilters "sort")
      (prop queryFilters "desc").
Proof.
  intros Hin HD. rewrite RoutingFacts.getOrders_unfold. cbv zeta. rewrite HD. clear HD.
  unfold templates in Hin.
  repeat (apply elem_of_cons in Hin as [->|Hin]);
    [..|by apply elem_of_nil in Hin];
    settle_dimension_tests; reflexivity.
Qed.

(** The limit the options object holds. *)
Lemma limit_bounds (requested : option Z) (l : Z) :
  l = match requested with
      | Some l => if (l =? 0)%Z then MAX_ORDERS else Z.min l MAX_ORDERS
      | None => MAX_ORDERS
      end →
  (∀ l', requested = Some l' → 0 < l' → l = Z.min l' 50)
  ∧ (requested = Some 0 ∨ requested = None → l = 50)
  ∧ l <= 50.
Proof.
  intros ->. unfold MAX_ORDERS. repeat split.
  - intros l -> Hl. by destruct (Z.eqb_spec l 0); [lia|].
  - by intros [->| ->].
  - destruct requested as [l|]; [|done]. destruct (Z.eqb_spec l 0); lia.
Qed.

(** C7.  Every range query whose comparator and cursor are accepted asks the
    store, and the limit in the options it hands to the store is
    [min(requested, 50)] when a positive limit is requested and 50 when the
    requested limit is 0 or absent; it never exceeds 50, whatever the caller
    asked for.  This holds of [queryOrderEntity], which every range query
    goes through, and of [getOrders] on every filter set that matches a
    template, where the store is asked with the template's partition key. *)
Theorem effective_limit (db : DB) (requested : option Z) (cursor : option string)
    (sortKey sort desc : JSValue) :
  (ToBoolean sortKey = true → ∃ parsed, parseComparisonFilter sort = Ok parsed) →
  (∀ partitionKey name,
     (∀ c, cursor = Some c → c ≠ "" →
           ∃ key, getStartKey c (formattedIndex name sortKey) = Ok key) →
     ∃ options,
       asks_store
         (fun entity_query =>
            queryOrderEntity entity_query db partitionKey name requested cursor
              sortKey sort desc)
         db partitionKey options
       ∧ (∀ l, requested = Some l → 0 < l → limit options = Z.min l 50)
       ∧ (requested = Some 0 ∨ requested = None → limit options = 50)
       ∧ limit options <= 50)
  ∧ (∀ queryFilters template,
       template ∈ templates →
       requestedDimensions queryFilters = list_to_set template →
       prop queryFilters "sortKey" = sortKey →
       prop queryFilters "sort" = sort →
       prop queryFilters "desc" = desc →
       (∀ c, cursor = Some c → c ≠ "" →
             ∃ key, getStartKey c (formattedIndex (template_index template) sortKey)
                    = Ok key) →
       ∃ options,
         asks_store
           (fun entity_query => getOrders entity_query db requested queryFilters cursor)
           db (template_key template queryFilters) options
         ∧ (∀ l, requested = Some l → 0 < l → limit options = Z.min l 50)
         ∧ (requested = Some 0 ∨ requested = None → limit options = 50)
         ∧ limit options <= 50).
Proof.
  intros Hsort.
  assert (∀ partitionKey name,
     (∀ c, cursor = Some c → c ≠ "" →
           ∃ key, getStartKey c (formattedIndex name sortKey) = Ok key) →
     ∃ options,
       asks_store
         (fun entity_query =>
            queryOrderEntity entity_query db partitionKey name requested cursor
              sortKey sort desc)
         db partitionKey options
       ∧ (∀ l, requested = Some l → 0 < l → limit options = Z.min l 50)
       ∧ (requested = Some 0 ∨ requested = None → limit options = 50)
       ∧ limit options <= 50) as Hquery.
  { intros partitionKey name Hcursor.
    destruct (queryOptions_built name requested cursor sortKey sort desc Hsort Hcursor)
      as [options Hoptions].
    exists options. split; [by apply queryOrderEntity_asks_store|].
    apply queryOptions_Ok in Hoptions as (parsed & _ & _ & Hlimit & _).
    by apply limit_bounds. }
  split; [exact Hquery|].
  intros queryFilters template Hin HD <- <- <- Hcursor.
  destruct (Hquery (template_key template queryFilters) (template_index template) Hcursor)
    as (options & Hasks & Hlimit).
  exists options. split; [|exact Hlimit].
  intros entity_query. rewrite (getOrders_template_query _ _ _ _ _ _ Hin HD).
  apply Hasks.
Qed.

(** C8, amended.  Every range query whose comparator and cursor are accepted
    asks the store for the index named after the caller's sort key when one
    is given and after [createdAt] otherwise.  The scan direction is handed
    to the store only when a sort key is given and its comparator parses to a
    value: it is then the [desc] flag when supplied, and descending when not.
    Without a sort key, or without a comparator, no direction is handed to
    the store.  This holds of [queryOrderEntity], which every range query
    goes through, and of [getOrders] on every filter set that matches a
    template. *)
Theorem scan_direction (db : DB) (requested : option Z) (cursor : option string)
    (sortKey sort desc : JSValue) :
  (ToBoolean sortKey = true → ∃ parsed, parseComparisonFilter sort = Ok parsed) →
  (∀ partitionKey name,
     (∀ c, cursor = Some c → c ≠ "" →
           ∃ key, getStartKey c (formattedIndex name sortKey) = Ok key) →
     ∃ options,
       asks_store
         (fun entity_query =>
            queryOrderEntity entity_query db partitionKey name requested cursor
              sortKey sort desc)
         db partitionKey options
       ∧ index options = name +:+ "-" +:+ resolved_sort_key sortKey +:+ "-all"
       ∧ (ToBoolean sortKey = true →
          (∃ c, parseComparisonFilter sort = Ok (Some c)) →
          reverse options = Some (selected_direction desc))
       ∧ (ToBoolean sortKey = false ∨ parseComparisonFilter sort = Ok None →
          reverse options = None))
  ∧ (∀ queryFilters template,
       template ∈ templates →
       requestedDimensions queryFilters = list_to_set template →
       prop queryFilters "sortKey" = sortKey →
       prop queryFilters "sort" = sort →
       prop queryFilters "desc" = desc →
       (∀ c, cursor = Some c → c ≠ "" →
             ∃ key, getStartKey c (formattedIndex (template_index template) sortKey)
                    = Ok key) →
       ∃ options,
         asks_store
           (fun entity_query => getOrders entity_query db requested queryFilters cursor)
           db (template_key template queryFilters) options
         ∧ index options
           = template_index template +:+ "-" +:+ resolved_sort_key sortKey +:+ "-all"
         ∧ (ToBoolean sortKey = true →
            (∃ c, parseComparisonFilter sort = Ok (Some c)) →
            reverse options = Some (selected_direction desc))
         ∧ (ToBoolean sortKey = false ∨ parseComparisonFilter sort = Ok None →
            reverse options = None)).
Proof.
  intros Hsort.
  assert (∀ partitionKey name,
     (∀ c, cursor = Some c → c ≠ "" →
           ∃ key, getStartKey c (formattedIndex name sortKey) = Ok key) →
     ∃ options,
       asks_store
         (fun entity_query =>
            queryOrderEntity entity_query db partitionKey name requested cursor
              sortKey sort desc)
         db partitionKey options
       ∧ index options = name +:+ "-" +:+ resolved_sort_key sortKey +:+ "-all"
       ∧ (ToBoolean sortKey = true →
          (∃ c, parseComparisonFilter sort = Ok (Some c)) →
          reverse options = Some (selected_direction desc))
       ∧ (ToBoolean sortKey = false ∨ parseComparisonFilter sort = Ok None →
          reverse options = None)) as Hquery.
  { intros partitionKey name Hcursor.
    destruct (queryOptions_built name requested cursor sortKey sort desc Hsort Hcursor)
      as [options Hoptions].
    exists options. split; [by apply queryOrderEntity_asks_store|].
    apply queryOptions_Ok in Hoptions as (parsed & Hparsed & Hindex & _ & Hreverse).
    split; [|split].
    - rewrite Hindex. unfold formattedIndex, resolved_sort_key. by destruct sortKey.
    - intros Htruthy [c Hc]. rewrite Hreverse, Htruthy. rewrite Htruthy, Hc in Hparsed.
      by injection Hparsed as <-.
    - intros [Hfalsy|Hnone]; rewrite Hreverse.
      + by rewrite Hfalsy.
      + destruct (ToBoolean sortKey); [|done]. rewrite Hnone in Hparsed.
        by injection Hparsed as <-. }
  split; [exact Hquery|].
  intros queryFilters template Hin HD <- <- <- Hcursor.
  destruct (Hquery (template_key template queryFilters) (template_index template) Hcursor)
    as (options & Hasks & Hrest).
  exists options. split; [|exact Hrest].
  intros entity_query. rewrite (getOrders_template_query _ _ _ _ _ _ Hin HD).
  apply Hasks.
Qed.

End RangeQuery.

(** The reference repository, run against a store of one's choice. *)
Abbreviation reference_query entity_query :=
  (queryOrderEntity Reference.TABLE_KEY_values Reference.encode Reference.decode
     Reference.JSON_parse Reference.JSON_stringify Reference.parseComparisonFilter
     entity_query).
Abbreviation reference_route entity_query :=
  (getOrders Reference.TABLE_KEY_values Reference.encode Reference.decode
     Reference.JSON_parse Reference.JSON_stringify Reference.parseComparisonFilter
     entity_query).

(** The limit, the index name and the direction a store reports back. *)
Abbreviation heard_limit := (fun options : QueryOptions => JSArray [JSNumber (limit options)]).
Abbreviation heard_scan :=
  (fun options : QueryOptions =>
     JSArray [JSString (index options); default JSNull (reverse options)]).

(** A request for 100 orders, and a request without a limit through
    [getOrders]: the store hears 50. *)
Lemma effective_limit_witness :
  let db := {| orders_table := ∅; nonce_table := ∅ |} in
  reference_query (telltale_store heard_limit)
    db (JSString "0xofferer") "offerer" (Some 100) None JSUndefined JSUndefined JSUndefined
  = Ok {| orders := [];
          cursor := Some (Reference.encode (Reference.JSON_stringify
                                              (JSArray [JSNumber 50]))) |}
  ∧ reference_route (telltale_store heard_limit)
      db None {[ "filler" := JSString "0xfiller" ]} None
    = Ok {| orders := [];
            cursor := Some (Reference.encode (Reference.JSON_stringify
                                                (JSArray [JSNumber 50]))) |}.
Proof.
  intros db.
  assert (ToBoolean JSUndefined = true →
          ∃ parsed, Reference.parseComparisonFilter JSUndefined = Ok parsed) as Hsort
    by discriminate.
  split.
  - destruct (proj1 (effective_limit Reference.TABLE_KEY_values Reference.encode
                       Reference.decode Reference.JSON_parse Reference.JSON_stringify
                       Reference.parseComparisonFilter db (Some 100) None
                       JSUndefined JSUndefined JSUndefined Hsort)
                (JSString "0xofferer") "offerer" ltac:(discriminate))
      as (options & Hasks & Hmin & _ & _).
    rewrite (Hasks (telltale_store heard_limit)).
    unfold telltale_store, page_of. cbn [mbind result_bind Items LastEvaluatedKey ToBoolean].
    rewrite (Hmin 100 eq_refl ltac:(lia)). reflexivity.
  - destruct (proj2 (effective_limit Reference.TABLE_KEY_values Reference.encode
                       Reference.decode Reference.JSON_parse Reference.JSON_stringify
                       Reference.parseComparisonFilter db None None
                       JSUndefined JSUndefined JSUndefined Hsort)
                {[ "filler" := JSString "0xfiller" ]} ["filler"])
      as (options & Hasks & _ & Hdefault & _).
    + refine (bool_decide_unpack _ _). vm_compute. exact I.
    + refine (bool_decide_unpack _ _). vm_compute. exact I.
    + reflexivity.
    + reflexivity.
    + reflexivity.
    + discriminate.
    + rewrite (Hasks (telltale_store heard_limit)).
      unfold telltale_store, page_of.
      cbn [mbind result_bind Items LastEvaluatedKey ToBoolean].
      rewrite (Hdefault (or_intror eq_refl)). reflexivity.
Defined.

(** C8 as stated fails: a query without a sort key and without a [desc] flag
    hands no direction to the store.  A store that reports the direction it
    was handed tells the two apart. *)
Lemma scan_direction_counterexample : ¬ scan_direction_as_stated.
Proof.
  intros Hclaim.
  destruct (Hclaim Reference.TABLE_KEY_values Reference.encode Reference.decode
              Reference.JSON_parse Reference.JSON_stringify
              Reference.parseComparisonFilter
              {| orders_table := ∅; nonce_table := ∅ |} (JSString "0xofferer")
              "offerer" (Some 10) None JSUndefined JSUndefined JSUndefined)
    as (options & Hasks & _ & Hreverse); [discriminate..|].
  specialize (Hasks (telltale_store (fun options => default JSUndefined (reverse options)))).
  assert (reference_query
            (telltale_store (fun options => default JSUndefined (reverse options)))
            {| orders_table := ∅; nonce_table := ∅ |} (JSString "0xofferer")
            "offerer" (Some 10) None JSUndefined JSUndefined JSUndefined
          = Ok {| orders := []; cursor := None |}) as Hruns by (vm_compute; reflexivity).
  pose proof (eq_trans (eq_sym Hruns) Hasks) as Hheard.
  unfold telltale_store, page_of in Hheard.
  cbn [mbind result_bind Items LastEvaluatedKey] in Hheard.
  rewrite Hreverse in Hheard. discriminate Hheard.
Qed.

(** A sorted query hands the store the index of its sort key and the
    direction: descending by default, the [desc] flag when supplied; a query
    without a sort key hands it no direction. *)
Lemma scan_direction_witness :
  let db := {| orders_table := ∅; nonce_table := ∅ |} in
  let heard (name : string) (direction : JSValue) : result QueryResult :=
    Ok {| orders := [];
          cursor := Some (Reference.encode (Reference.JSON_stringify
                            (JSArray [JSString name; direction]))) |} in
  reference_query (telltale_store heard_scan)
    db (JSString "0xofferer") "offerer" (Some 10) None (JSString "createdAt")
    (JSString "gt(1700)") JSUndefined
  = heard "offerer-createdAt-all" (JSBoolean true)
  ∧ reference_query (telltale_store heard_scan)
      db (JSString "0xofferer") "offerer" (Some 10) None (JSString "createdAt")
      (JSString "gt(1700)") (JSBoolean false)
    = heard "offerer-createdAt-all" (JSBoolean false)
  ∧ reference_route (telltale_store heard_scan)
      db (Some 10) {[ "orderStatus" := JSString "open" ]} None
    = heard "orderStatus-createdAt-all" JSNull.
Proof.
  assert (Reference.parseComparisonFilter (JSString "gt(1700)")
          = Ok (Some {| operator := op_gt; values := [1700] |})) as Hgt
    by (vm_compute; reflexivity).
  assert (∀ sortKey, ToBoolean sortKey = true →
          ∃ parsed, Reference.parseComparisonFilter (JSString "gt(1700)") = Ok parsed)
    as Hsort by (intros _ _; eexists; exact Hgt).
  assert (∃ c, Reference.parseComparisonFilter (JSString "gt(1700)") = Ok (Some c))
    as Hparsed by (eexists; exact Hgt).
  intros db heard.
  split; [|split].
  - destruct (proj1 (scan_direction Reference.TABLE_KEY_values Reference.encode
                       Reference.decode Reference.JSON_parse Reference.JSON_stringify
                       Reference.parseComparisonFilter db (Some 10) None
                       (JSString "createdAt") (JSString "gt(1700)") JSUndefined
                       (Hsort _))
                (JSString "0xofferer") "offerer" ltac:(discriminate))
      as (options & Hasks & Hindex & Hreverse & _).
    rewrite (Hasks (telltale_store heard_scan)).
    unfold telltale_store, page_of, heard.
    cbn [mbind result_bind Items LastEvaluatedKey ToBoolean].
    rewrite Hindex, (Hreverse eq_refl Hparsed). reflexivity.
  - destruct (proj1 (scan_direction Reference.TABLE_KEY_values Reference.encode
                       Reference.decode Reference.JSON_parse Reference.JSON_stringify
                       Reference.parseComparisonFilter db (Some 10) None
                       (JSString "createdAt") (JSString "gt(1700)") (JSBoolean false)
                       (Hsort _))
                (JSString "0xofferer") "offerer" ltac:(discriminate))
      as (options & Hasks & Hindex & Hreverse & _).
    rewrite (Hasks (telltale_store heard_scan)).
    unfold telltale_store, page_of, heard.
    cbn [mbind result_bind Items LastEvaluatedKey ToBoolean].
    rewrite Hindex, (Hreverse eq_refl Hparsed). reflexivity.
  - destruct (proj2 (scan_direction Reference.TABLE_KEY_values Reference.encode
                       Reference.decode Reference.JSON_parse Reference.JSON_stringify
                       Reference.parseComparisonFilter db (Some 10) None
                       JSUndefined JSUndefined JSUndefined ltac:(discriminate))
                {[ "orderStatus" := JSString "open" ]} ["orderStatus"])
      as (options & Hasks & Hindex & _ & Hnone).
    + refine (bool_decide_unpack _ _). vm_compute. exact I.
    + refine (bool_decide_unpack _ _). vm_compute. exact I.
    + reflexivity.
    + reflexivity.
    + reflexivity.
    + discriminate.
    + rewrite (Hasks (telltale_store heard_scan)).
      unfold telltale_store, page_of, heard.
      cbn [mbind result_bind Items LastEvaluatedKey ToBoolean].
      rewrite Hindex, (Hnone (or_introl eq_refl)). reflexivity.
Defined.

End QueryFacts.

(** * A run from write to paged read *)

Module EndToEnd.
Import Repository Catalog.

(** Two orders of one offerer are written; a query for that offerer with a
    limit of one returns one order and a cursor; the cursor is accepted by
    the index it was issued for and refused by another. *)
Example write_then_page :
  ∃ db1 db2 page next,
    putOrderAndUpdateNonceTransaction Reference.currentTimestampInSeconds
      Reference.MOCK_ORDER_ENTITY {| orders_table := ∅; nonce_table := ∅ |} = Ok db1
    ∧ putOrderAndUpdateNonceTransaction Reference.currentTimestampInSeconds
        (<["orderHash" := JSString "0xa2444ef6"]> Reference.MOCK_ORDER_ENTITY) db1
      = Ok db2
    ∧ RoutingFacts.reference_getOrders db2 (Some 1)
        {[ "offerer" := JSString "0xofferer" ]} None
      = Ok {| orders := [page]; cursor := Some next |}
    ∧ prop page "offerer_orderStatus" = JSString "0xofferer_open"
    ∧ (∃ key, CursorFacts.reference_getStartKey next "offerer-createdAt-all" = Ok key)
    ∧ CursorFacts.reference_getStartKey next "orderStatus-createdAt-all"
      = Throw invalid_cursor.
Proof.
  do 4 eexists.
  split; [vm_compute; reflexivity|].
  split; [vm_compute; reflexivity|].
  split; [vm_compute; reflexivity|].
  split; [vm_compute; reflexivity|].
  split; [eexists; vm_compute; reflexivity|].
  vm_compute. reflexivity.
Qed.

End EndToEnd.

(** * Further properties of the validator *)

Module ValidatorExtras.
Import Validator ExtraSpec.

Lemma isValidUint256_range (value : Z) :
  isValidUint256 value = true ↔ 0 <= value < 2 ^ 256.
Proof.
  unfold isValidUint256. rewrite andb_true_iff, Z.leb_le, Z.ltb_lt.
  by rewrite Z.shiftl_1_l.
Qed.

Lemma well_formed_ok : well_formed ok_response.
Proof. by left. Qed.

Lemma well_formed_invalid (reason : string) : well_formed (invalid reason).
Proof. right. split; [done|]. by exists reason. Qed.

Lemma first_failure_well_formed (checks : list OrderValidationResponse) :
  Forall well_formed checks → well_formed (first_failure checks).
Proof.
  induction 1 as [|r checks Hr _ IH]; simpl; [apply well_formed_ok|].
  by destruct (valid r) eqn:Hvalid.
Qed.

Lemma first_failure_valid (checks : list OrderValidationResponse) :
  valid (first_failure checks) = true ↔ Forall (fun r => valid r = true) checks.
Proof.
  induction checks as [|r checks IH]; simpl; [by split; [constructor|]|].
  rewrite Forall_cons. destruct (valid r) eqn:Hr.
  - rewrite IH. naive_solver.
  - rewrite Hr. naive_solver.
Qed.

Section Validation.
Variable isValidNonce : string -> option string.
Variable isValidEthAddress : string -> option string.
Variable isValidOrderHash : string -> option string.
Variable getCurrentTime : unit -> Z.
Variable minOffset : Z.

Local Abbreviation validateDeadline := (validateDeadline getCurrentTime minOffset).
Local Abbreviation validateNonce := (validateNonce isValidNonce).
Local Abbreviation validateOfferer := (validateOfferer isValidEthAddress).
Local Abbreviation validateReactor := (validateReactor isValidEthAddress).
Local Abbreviation validateInputToken := (validateInputToken isValidEthAddress).
Local Abbreviation validateOutputs := (validateOutputs isValidEthAddress).
Local Abbreviation validateHash := (validateHash isValidOrderHash).
Local Abbreviation output_acceptable := (output_acceptable isValidEthAddress).
Local Abbreviation validate :=
  (validate isValidNonce isValidEthAddress isValidOrderHash getCurrentTime minOffset).

Lemma validateOutputs_cons (output : DutchOutput) (rest : list DutchOutput) :
  valid (validateOutputs (output :: rest)) = true
  ↔ output_acceptable output ∧ valid (validateOutputs rest) = true.
Proof.
  unfold ExtraSpec.output_acceptable. rewrite <- !isValidUint256_range. simpl.
  destruct (isValidEthAddress (token output)); simpl; [naive_solver|].
  destruct (isValidEthAddress (recipient output)); simpl; [naive_solver|].
  destruct (isValidUint256 (startAmount output)); simpl; [|naive_solver].
  destruct (isValidUint256 (endAmount output)); simpl; [|naive_solver].
  case_decide; simpl; naive_solver lia.
Qed.

Lemma validateOutputs_valid (dutchOutputs : list DutchOutput) :
  valid (validateOutputs dutchOutputs) = true ↔ Forall output_acceptable dutchOutputs.
Proof.
  induction dutchOutputs as [|output rest IH].
  - split; [constructor|done].
  - by rewrite validateOutputs_cons, Forall_cons, IH.
Qed.

(** X1.  [validateOutputs] accepts a list of outputs exactly when every
    output has a well-formed token and recipient, both amounts within
    [0, 2^256), and an end amount not above the start amount; the empty list
    is accepted. *)
Theorem validateOutputs_accepts_iff (dutchOutputs : list DutchOutput) :
  valid (validateOutputs dutchOutputs) = true ↔ Forall output_acceptable dutchOutputs.
Proof.
  split.
  - intros Hvalid. by apply validateOutputs_valid.
  - intros Hall. induction Hall as [|output rest Houtput _ IH]; [done|].
    by apply validateOutputs_cons.
Qed.

(** X2.  The outputs check of a concatenation passes exactly when it passes
    on both parts: an output is judged on its own, wherever it stands. *)
Theorem validateOutputs_app (outputs1 outputs2 : list DutchOutput) :
  valid (validateOutputs (outputs1 ++ outputs2))
  = valid (validateOutputs outputs1) && valid (validateOutputs outputs2).
Proof.
  apply eq_true_iff_eq.
  rewrite andb_true_iff, !validateOutputs_valid. apply Forall_app.
Qed.

(** The nested tests of [validate], as one conjunction. *)
Lemma validate_valid (order : DutchLimitOrder) :
  valid (validate order) = true
  ↔ valid (validateDeadline (deadline (info order))) = true
    ∧ valid (validateStartTime (startTime (info order)) (deadline (info order))) = true
    ∧ valid (validateNonce (nonce (info order))) = true
    ∧ valid (validateOfferer (offerer (info order))) = true
    ∧ valid (validateReactor (reactor (info order))) = true
    ∧ valid (validateInputToken (input_token (input (info order)))) = true
    ∧ valid (validateInputAmount (amount (input (info order)))) = true
    ∧ valid (validateOutputs (outputs (info order))) = true
    ∧ valid (validateHash (hash order)) = true.
Proof.
  unfold Validator.validate. cbv zeta.
  repeat match goal with
  | |- context [negb (valid ?r)] =>
      let H := fresh "H" in
      destruct (valid r) eqn:H; cbn [negb];
      [|rewrite H; clear; intuition discriminate]
  end.
  clear. by intuition.
Qed.

Lemma validateDeadline_valid (deadline : Z) :
  valid (validateDeadline deadline) = true
  ↔ getCurrentTime tt + minOffset <= deadline
      <= getCurrentTime tt + ONE_YEAR_IN_SECONDS.
Proof. unfold Validator.validateDeadline. repeat case_decide; simpl; naive_solver lia. Qed.

Lemma validateStartTime_valid (startTime deadline : Z) :
  valid (validateStartTime startTime deadline) = true ↔ startTime <= deadline.
Proof. unfold validateStartTime. case_decide; simpl; naive_solver lia. Qed.

Lemma validateNonce_valid (nonce : Z) :
  valid (validateNonce nonce) = true ↔ isValidNonce (pretty nonce) = None.
Proof. unfold Validator.validateNonce. by destruct (isValidNonce _). Qed.

Lemma validateOfferer_valid (offerer : string) :
  valid (validateOfferer offerer) = true ↔ isValidEthAddress offerer = None.
Proof. unfold Validator.validateOfferer. by destruct (isValidEthAddress _). Qed.

Lemma validateReactor_valid (reactor : string) :
  valid (validateReactor reactor) = true ↔ isValidEthAddress reactor = None.
Proof. unfold Validator.validateReactor. by destruct (isValidEthAddress _). Qed.

Lemma validateInputToken_valid (token : string) :
  valid (validateInputToken token) = true ↔ isValidEthAddress token = None.
Proof. unfold Validator.validateInputToken. by destruct (isValidEthAddress _). Qed.

Lemma validateInputAmount_valid (amount : Z) :
  valid (validateInputAmount amount) = true ↔ 0 <= amount < 2 ^ 256.
Proof.
  rewrite <- isValidUint256_range. unfold validateInputAmount.
  by destruct (isValidUint256 amount).
Qed.

Lemma validateHash_valid (orderHash : string) :
  valid (validateHash orderHash) = true ↔ isValidOrderHash orderHash = None.
Proof. unfold Validator.validateHash. by destruct (isValidOrderHash _). Qed.

(** X3.  [validate] accepts an order exactly when the deadline lies between
    [now + minOffset] and [now + one year], the start time is not after the
    deadline, the nonce, offerer, reactor, input token and hash pass their
    field validators, the input amount is within [0, 2^256), and every
    output is acceptable. *)
Theorem validate_accepts_iff (order : DutchLimitOrder) :
  valid (validate order) = true
  ↔ getCurrentTime tt + minOffset <= deadline (info order)
      <= getCurrentTime tt + ONE_YEAR_IN_SECONDS
    ∧ startTime (info order) <= deadline (info order)
    ∧ isValidNonce (pretty (nonce (info order))) = None
    ∧ isValidEthAddress (offerer (info order)) = None
    ∧ isValidEthAddress (reactor (info order)) = None
    ∧ isValidEthAddress (input_token (input (info order))) = None
    ∧ 0 <= amount (input (info order)) < 2 ^ 256
    ∧ Forall output_acceptable (outputs (info order))
    ∧ isValidOrderHash (hash order) = None.
Proof.
  rewrite validate_valid, validateDeadline_valid, validateStartTime_valid,
    validateNonce_valid, validateOfferer_valid, validateReactor_valid,
    validateInputToken_valid, validateInputAmount_valid,
    validateOutputs_valid, validateHash_valid.
  reflexivity.
Qed.

(** Every check answers a well-formed response. *)
Lemma validateOutputs_well_formed (dutchOutputs : list DutchOutput) :
  well_formed (validateOutputs dutchOutputs).
Proof.
  induction dutchOutputs as [|output rest IH]; simpl; [apply well_formed_ok|].
  destruct (isValidEthAddress (token output)); [apply well_formed_invalid|].
  destruct (isValidEthAddress (recipient output)); [apply well_formed_invalid|].
  destruct (negb (isValidUint256 (startAmount output))); [apply well_formed_invalid|].
  destruct (negb (isValidUint256 (endAmount output))); [apply well_formed_invalid|].
  case_decide; [apply well_formed_invalid|exact IH].
Qed.

Lemma checks_well_formed (order : DutchLimitOrder) :
  well_formed (validateDeadline (deadline (info order)))
  ∧ well_formed (validateStartTime (startTime (info order)) (deadline (info order)))
  ∧ well_formed (validateNonce (nonce (info order)))
  ∧ well_formed (validateOfferer (offerer (info order)))
  ∧ well_formed (validateReactor (reactor (info order)))
  ∧ well_formed (validateInputToken (input_token (input (info order))))
  ∧ well_formed (validateInputAmount (amount (input (info order))))
  ∧ well_formed (validateHash (hash order)).
Proof.
  unfold Validator.validateDeadline, validateStartTime, Validator.validateNonce,
    Validator.validateOfferer, Validator.validateReactor,
    Validator.validateInputToken, validateInputAmount, Validator.validateHash.
  repeat split;
    repeat first [ case_decide | case_match ];
    first [ apply well_formed_invalid | apply well_formed_ok ].
Qed.

(** X4.  Every rejection carries a reason and every acceptance carries none:
    the response of [validate] has a reason string exactly when it is not
    valid. *)
Theorem validate_reason_iff_invalid (order : DutchLimitOrder) :
  (valid (validate order) = true ∧ errorString (validate order) = None)
  ∨ (valid (validate order) = false
     ∧ ∃ reason, errorString (validate order) = Some reason).
Proof.
  change (well_formed (validate order)).
  pose proof (validateOutputs_well_formed (outputs (info order))) as Houtputs.
  destruct (checks_well_formed order) as (H1 & H2 & H3 & H4 & H5 & H6 & H7 & H9).
  unfold Validator.validate. cbv zeta.
  repeat match goal with
  | |- context [negb (valid ?r)] => destruct (valid r); cbn [negb]; [|assumption]
  end.
  apply well_formed_ok.
Qed.

(** X5.  A validator whose [minOffset] exceeds one year accepts no order:
    the two deadline bounds leave no deadline between them. *)
Theorem validate_rejects_all_when_offset_exceeds_year (order : DutchLimitOrder) :
  minOffset > ONE_YEAR_IN_SECONDS → valid (validate order) = false.
Proof.
  intros Hoffset. apply not_true_is_false.
  rewrite validate_valid, validateDeadline_valid. lia.
Qed.

End Validation.

Lemma validate_rejects_all_when_offset_exceeds_year_witness :
  valid (ValidatorFacts.reference_validate 1000 (ONE_YEAR_IN_SECONDS + 1)
           (Reference.with_deadline (1000 + ONE_YEAR_IN_SECONDS)
              Reference.sample_order)) = false.
Proof.
  apply (validate_rejects_all_when_offset_exceeds_year Reference.isValidNonce
           Reference.isValidEthAddress Reference.isValidOrderHash (fun _ => 1000)
           (ONE_YEAR_IN_SECONDS + 1)).
  vm_compute. reflexivity.
Defined.

End ValidatorExtras.

(** * Further properties of the routing *)

Module RoutingExtras.
Import Repository Catalog RoutingFacts.

(** X6.  At most one template matches a filter set: the cases of the
    [switch] of [getOrders] that test a template exclude one another, so
    their order is immaterial. *)
Theorem at_most_one_template_matches (queryFilters : Item)
    (template template' : list string) :
  template ∈ templates → template' ∈ templates →
  areParamsRequested template (getRequestedParams queryFilters) = true →
  areParamsRequested template' (getRequestedParams queryFilters) = true →
  template = template'.
Proof.
  intros Hin Hin'.
  rewrite !areParamsRequested_set_equality by by apply templates_NoDup.
  intros Heq%bool_decide_eq_true Heq'%bool_decide_eq_true.
  rewrite <- Heq' in Heq. clear Heq'. revert Heq.
  assert (Forall (fun t => Forall (fun t' =>
            list_to_set t = (list_to_set t' : gset string) → t = t') templates)
            templates) as Hall.
  { refine (bool_decide_unpack _ _). vm_compute. exact I. }
  rewrite Forall_forall in Hall. specialize (Hall template Hin).
  rewrite Forall_forall in Hall. by apply Hall.
Qed.

Lemma at_most_one_template_matches_witness :
  ["offerer"; "orderStatus"] = ["offerer"; "orderStatus"].
Proof.
  refine (at_most_one_template_matches
            {[ "orderStatus" := JSString "open"; "offerer" := JSString "0xA" ]}
            ["offerer"; "orderStatus"] ["offerer"; "orderStatus"] _ _ _ _);
    first [ refine (bool_decide_unpack _ _); vm_compute; exact I
          | vm_compute; reflexivity ].
Defined.

Lemma requestedDimensions_insert_modifier (queryFilters : Item) (m : string)
    (v : JSValue) :
  m ∈ modifiers →
  requestedDimensions (<[m := v]> queryFilters) = requestedDimensions queryFilters.
Proof. intros Hm. unfold requestedDimensions. rewrite dom_insert_L. set_solver. Qed.

Lemma getRequestedParams_insert_modifier (queryFilters : Item) (m : string)
    (v : JSValue) :
  m ∈ modifiers →
  getRequestedParams (<[m := v]> queryFilters) ≡ₚ getRequestedParams queryFilters.
Proof.
  intros Hm. apply NoDup_Permutation; [apply getRequestedParams_NoDup..|].
  intros x. by rewrite !elem_of_getRequestedParams, requestedDimensions_insert_modifier.
Qed.

(** X7.  The modifier keys are invisible to the matching: setting [sortKey],
    [sort] or [desc] in a filter set, to any value, changes neither which
    templates match nor whether a dimension is requested. *)
Theorem modifiers_do_not_affect_matching (queryFilters : Item) (m : string)
    (v : JSValue) (queryParams : list string) (dimension : string) :
  m ∈ [GET_QUERY_PARAMS.SORT_KEY; GET_QUERY_PARAMS.SORT; GET_QUERY_PARAMS.DESC] →
  areParamsRequested queryParams (getRequestedParams (<[m := v]> queryFilters))
  = areParamsRequested queryParams (getRequestedParams queryFilters)
  ∧ includes (getRequestedParams (<[m := v]> queryFilters)) dimension
    = includes (getRequestedParams queryFilters) dimension.
Proof.
  intros Hm.
  assert (m ∈ modifiers) as Hm'.
  { unfold modifiers. revert Hm. rewrite !elem_of_cons, elem_of_nil.
    unfold GET_QUERY_PARAMS.SORT_KEY, GET_QUERY_PARAMS.SORT, GET_QUERY_PARAMS.DESC.
    set_solver. }
  pose proof (getRequestedParams_insert_modifier queryFilters m v Hm') as Hperm.
  split.
  - unfold areParamsRequested, every, includes. rewrite Hperm. f_equal.
    induction queryParams as [|x queryParams IH]; simpl; [done|].
    rewrite IH. f_equal. apply bool_decide_ext. by rewrite Hperm.
  - unfold includes. apply bool_decide_ext. by rewrite Hperm.
Qed.

Lemma modifiers_do_not_affect_matching_witness :
  let queryFilters : Item := {[ "offerer" := JSString "0xA" ]} in
  areParamsRequested ["offerer"]
    (getRequestedParams (<["desc" := JSBoolean false]> queryFilters))
  = areParamsRequested ["offerer"] (getRequestedParams queryFilters)
  ∧ includes (getRequestedParams (<["desc" := JSBoolean false]> queryFilters)) "desc"
    = includes (getRequestedParams queryFilters) "desc".
Proof.
  intros queryFilters.
  apply (modifiers_do_not_affect_matching queryFilters "desc" (JSBoolean false)).
  refine (bool_decide_unpack _ _). vm_compute. exact I.
Defined.

Section Routing.
Variable TABLE_KEY_values : list string.
Variable encode : string -> string.
Variable decode : string -> option string.
Variable JSON_parse : string -> option JSValue.
Variable JSON_stringify : JSValue -> string.
Variable parseComparisonFilter : JSValue -> result (option ComparisonFilter).
Variable entity_query : DB -> JSValue -> QueryOptions -> result QueryResponse.

Local Abbreviation getOrders :=
  (getOrders TABLE_KEY_values encode decode JSON_parse JSON_stringify
     parseComparisonFilter entity_query).
Local Abbreviation queryOrderEntity :=
  (queryOrderEntity TABLE_KEY_values encode decode JSON_parse JSON_stringify
     parseComparisonFilter entity_query).
Local Abbreviation queryOptions :=
  (queryOptions TABLE_KEY_values decode JSON_parse parseComparisonFilter).

(** X8.  A filter set that names no dimension, that is, the empty one or
    one made of modifier keys only, fails with the invalid-query error. *)
Theorem getOrders_without_dimension (db : DB) (limit : option Z)
    (queryFilters : Item) (cursor : option string) :
  dom queryFilters ⊆ modifiers →
  getOrders db limit queryFilters cursor = Throw invalid_query.
Proof.
  intros Hdom.
  assert (requestedDimensions queryFilters = ∅) as HD
    by (unfold requestedDimensions; set_solver).
  rewrite getOrders_unfold. cbv zeta. rewrite HD.
  settle_dimension_tests. reflexivity.
Qed.

End Routing.

Lemma getOrders_without_dimension_witness :
  reference_getOrders {| orders_table := ∅; nonce_table := ∅ |} (Some 10)
    {[ "sortKey" := JSString "createdAt"; "sort" := JSString "gt(1)" ]} None
  = Throw invalid_query.
Proof.
  apply getOrders_without_dimension.
  refine (bool_decide_unpack _ _). vm_compute. exact I.
Defined.

End RoutingExtras.

(** * The composite attributes as partition keys *)

Module KeyExtras.
Import Repository Catalog Composites ExtraSpec.






End KeyExtras.

(** * Further properties of the cursors *)

Module CursorExtras.
Import Repository Catalog CursorFacts.

Lemma pretty_N_go_not_o (x : N) (s s' : string) :
  s ≠ String "o" s' → pretty_N_go x s ≠ String "o" s'.
Proof.
  revert s. induction (N.lt_wf_0 x) as [x _ IH]; intros s Hs.
  assert (x = 0 ∨ 0 < x)%N as [->|Hx] by lia.
  - by rewrite pretty_N_go_0.
  - rewrite pretty_N_go_step by done. apply IH.
    { by apply N.div_lt. }
    unfold pretty_N_char. by repeat case_match.
Qed.

(** The index keys of a string or an array never name the primary key. *)
Lemma orderHash_not_index_key (n : nat) : "orderHash" ∉ index_keys n.
Proof.
  unfold index_keys. intros (i & Hi & _)%list_elem_of_fmap.
  unfold pretty, pretty_nat, pretty, pretty_N in Hi.
  case_decide; [done|]. symmetry in Hi. by apply pretty_N_go_not_o in Hi.
Qed.

Section Cursor.
Variable TABLE_KEY_values : list string.
Variable decode : string -> option string.
Variable JSON_parse : string -> option JSValue.

Local Abbreviation validKeys := (validKeys TABLE_KEY_values).
Local Abbreviation getStartKey := (getStartKey TABLE_KEY_values decode JSON_parse).

Lemma orderHash_valid (index : string) : "orderHash" ∈ validKeys index.
Proof. unfold Repository.validKeys. apply elem_of_app. left. by apply list_elem_of_singleton. Qed.

(** What an accepted cursor went through. *)
Lemma getStartKey_Ok (cursor index : string) (key : JSValue) :
  getStartKey cursor index = Ok key →
  decode cursor ≫= JSON_parse = Some key
  ∧ ∃ keys, Object_keys_of key = Ok keys ∧ keys ≡ₚ validKeys index.
Proof.
  unfold Repository.getStartKey.
  destruct (decode cursor ≫= JSON_parse) as [parsed|] eqn:Hparse; [|done].
  destruct (Object_keys_of parsed) as [keys|e] eqn:Hkeys; [|done].
  cbv beta iota zeta delta [mbind result_bind].
  destruct (negb (length keys =? length (validKeys index))%nat
            || negb (every (fun key => includes (validKeys index) key) keys))
    eqn:Htest; [done|].
  intros [= <-]. split; [done|]. exists keys. split; [done|].
  apply orb_false_iff in Htest as [Hlen%negb_false_iff Hall%negb_false_iff].
  apply Nat.eqb_eq in Hlen. unfold every in Hall. rewrite forallb_forall in Hall.
  apply submseteq_length_Permutation; [|lia].
  apply NoDup_submseteq; [by eapply Object_keys_of_NoDup|].
  intros x Hx%list_elem_of_In%Hall. by apply bool_decide_eq_true in Hx.
Qed.

(** An accepted key is an object that names the valid keys. *)
Lemma getStartKey_Ok_object (cursor index : string) (key : JSValue) :
  getStartKey cursor index = Ok key →
  decode cursor ≫= JSON_parse = Some key
  ∧ ∃ fields, key = JSObject fields ∧ remove_dups fields.*1 ≡ₚ validKeys index.
Proof.
  intros (Hparse & keys & Hkeys & Hperm)%getStartKey_Ok. split; [done|].
  assert ("orderHash" ∈ keys) as Hhash by (rewrite Hperm; apply orderHash_valid).
  destruct key as [| |b|n|s|elems|fields]; simpl in Hkeys; try done;
    injection Hkeys as <-.
  - by apply elem_of_nil in Hhash.
  - by apply elem_of_nil in Hhash.
  - by apply orderHash_not_index_key in Hhash.
  - by apply orderHash_not_index_key in Hhash.
  - by exists fields.
Qed.

(** X10.  [getStartKey] accepts a cursor exactly when it decodes and parses
    to an object whose property names are, up to order, the list of valid
    keys of the index; it then returns that object. *)
Theorem getStartKey_accepts_iff (cursor index : string) (key : JSValue) :
  getStartKey cursor index = Ok key
  ↔ decode cursor ≫= JSON_parse = Some key
    ∧ ∃ fields, key = JSObject fields ∧ remove_dups fields.*1 ≡ₚ validKeys index.
Proof.
  split; [apply getStartKey_Ok_object|].
  - intros (Hparse & fields & -> & Hperm).
    eapply getStartKey_accepts; [done|done|..].
    + rewrite <- Hperm. apply NoDup_remove_dups.
    + apply set_eq. intros x. by rewrite !elem_of_list_to_set, Hperm.
Qed.

(** X11.  An accepted continuation key always holds the primary key
    [orderHash], and each of its other properties is a table key that the
    index name spells out between its dashes. *)
Theorem accepted_key_fields (cursor index : string) (key : JSValue) :
  getStartKey cursor index = Ok key →
  ∃ fields, key = JSObject fields
    ∧ "orderHash" ∈ fields.*1
    ∧ ∀ k, k ∈ fields.*1 →
        k = "orderHash" ∨ (k ∈ TABLE_KEY_values ∧ k ∈ split "-" index ∧ k ≠ "").
Proof.
  intros (_ & fields & -> & Hperm)%getStartKey_Ok_object.
  exists fields. split; [done|]. split.
  - rewrite <- elem_of_remove_dups, Hperm. apply orderHash_valid.
  - intros k. rewrite <- elem_of_remove_dups, Hperm.
    unfold Repository.validKeys.
    rewrite elem_of_app, list_elem_of_singleton, !list_elem_of_filter.
    unfold TABLE_KEY.ORDER_HASH. tauto.
Qed.

End Cursor.

Lemma accepted_key_fields_witness :
  ∃ fields,
    JSObject [ ("orderHash", JSString "0xabc"); ("offerer", JSString "0xA");
               ("createdAt", JSNumber 1700) ] = JSObject fields
    ∧ "orderHash" ∈ fields.*1
    ∧ ∀ k, k ∈ fields.*1 →
        k = "orderHash"
        ∨ (k ∈ Reference.TABLE_KEY_values ∧ k ∈ split "-" "offerer-createdAt-all"
           ∧ k ≠ "").
Proof.
  apply (accepted_key_fields Reference.TABLE_KEY_values Reference.decode
           Reference.JSON_parse
           "eyJvcmRlckhhc2giOiIweGFiYyIsIm9mZmVyZXIiOiIweEEiLCJjcmVhdGVkQXQiOjE3MDB9").
  vm_compute. reflexivity.
Defined.

End CursorExtras.

(** * Further properties of the range queries *)

Module QueryExtras.
Import Repository Catalog QueryClaims RoutingFacts QueryFacts.

Section RangeQuery.
Variable TABLE_KEY_values : list string.
Variable encode : string -> string.
Variable decode : string -> option string.
Variable JSON_parse : string -> option JSValue.
Variable JSON_stringify : JSValue -> string.
Variable parseComparisonFilter : JSValue -> result (option ComparisonFilter).

Local Abbreviation getStartKey := (getStartKey TABLE_KEY_values decode JSON_parse).
Local Abbreviation queryOptions :=
  (queryOptions TABLE_KEY_values decode JSON_parse parseComparisonFilter).
Local Abbreviation queryOrderEntity entity_query :=
  (queryOrderEntity TABLE_KEY_values encode decode JSON_parse JSON_stringify
     parseComparisonFilter entity_query).
Local Abbreviation getOrders entity_query :=
  (getOrders TABLE_KEY_values encode decode JSON_parse JSON_stringify
     parseComparisonFilter entity_query).
Local Abbreviation asks_store := (asks_store encode JSON_stringify).

Lemma queryOrderEntity_empty_cursor entity_query (db : DB) (partitionKey : JSValue)
    (name : string) (limit : option Z) (sortKey sort desc : JSValue) :
  queryOrderEntity entity_query db partitionKey name limit (Some "") sortKey sort desc
  = queryOrderEntity entity_query db partitionKey name limit None sortKey sort desc.
Proof. reflexivity. Qed.

(** X12.  An empty cursor string is no cursor: [getOrders] answers it as it
    answers the first page, and does not refuse it as an invalid cursor. *)
Theorem getOrders_empty_cursor entity_query (db : DB) (limit : option Z)
    (queryFilters : Item) :
  getOrders entity_query db limit queryFilters (Some "")
  = getOrders entity_query db limit queryFilters None.
Proof.
  unfold Repository.getOrders.
  repeat match goal with
  | |- (if ?b then _ else _) = _ => destruct b; [apply queryOrderEntity_empty_cursor|]
  end.
  reflexivity.
Qed.

Lemma queryOrderEntity_sort_ignored entity_query (db : DB) (partitionKey : JSValue)
    (name : string) (limit : option Z) (cursor : option string)
    (sortKey sort desc sort' desc' : JSValue) :
  ToBoolean sortKey = false →
  queryOrderEntity entity_query db partitionKey name limit cursor sortKey sort desc
  = queryOrderEntity entity_query db partitionKey name limit cursor sortKey sort' desc'.
Proof.
  intros Hsort. unfold Repository.queryOrderEntity, Repository.queryOptions.
  by rewrite Hsort.
Qed.

(** X13.  Without a sort key the comparator and the direction are ignored:
    a filter set whose [sortKey] is absent or falsy is answered the same
    whatever its [sort] and [desc] members are. *)
Theorem getOrders_ignores_sort_without_sortKey entity_query (db : DB)
    (limit : option Z) (queryFilters : Item) (cursor : option string)
    (sort desc : JSValue) :
  ToBoolean (prop queryFilters "sortKey") = false →
  getOrders entity_query db limit
    (<["sort" := sort]> (<["desc" := desc]> queryFilters)) cursor
  = getOrders entity_query db limit queryFilters cursor.
Proof.
  intros Hsort.
  set (queryFilters' := <["sort" := sort]> (<["desc" := desc]> queryFilters)).
  assert (∀ k, k ≠ "sort" → k ≠ "desc" → prop queryFilters' k = prop queryFilters k)
    as Hprop.
  { intros k H1 H2. unfold prop, queryFilters'. by rewrite !lookup_insert_ne. }
  assert (requestedDimensions queryFilters' = requestedDimensions queryFilters) as HD.
  { unfold queryFilters', requestedDimensions, modifiers.
    rewrite !dom_insert_L. set_solver. }
  assert (∀ template, template ∈ templates →
            template_key template queryFilters' = template_key template queryFilters)
    as Hkey.
  { intros template Hin. unfold templates in Hin.
    repeat (apply elem_of_cons in Hin as [->|Hin]); [..|by apply elem_of_nil in Hin];
      unfold template_key; cbn [fmap list_fmap];
      by rewrite ?(Hprop "filler"), ?(Hprop "offerer"), ?(Hprop "orderStatus"),
           ?(Hprop "chainId") by done. }
  assert (∀ template, template ∈ templates →
    queryOrderEntity entity_query db (template_key template queryFilters')
      (template_index template) limit cursor
      (prop queryFilters' "sortKey") (prop queryFilters' "sort")
      (prop queryFilters' "desc")
    = queryOrderEntity entity_query db (template_key template queryFilters)
        (template_index template) limit cursor
        (prop queryFilters "sortKey") (prop queryFilters "sort")
        (prop queryFilters "desc")) as Hquery.
  { intros template Hin. rewrite (Hkey template Hin), (Hprop "sortKey") by done.
    by apply queryOrderEntity_sort_ignored. }
  rewrite !getOrders_unfold. cbv zeta. rewrite HD.
  rewrite (Hprop "orderHash"), (Hprop "orderHashes") by done.
  repeat match goal with
  | |- (if bool_decide ?P then _ else _) = _ =>
      destruct (bool_decide P);
      [first [ apply Hquery; refine (bool_decide_unpack _ _); vm_compute; exact I
             | reflexivity ]|]
  end.
  reflexivity.
Qed.

(** X14.  There is no lower bound on the limit: a negative requested limit
    reaches the store as it is. *)
Theorem negative_limit_reaches_store (db : DB) (partitionKey : JSValue) (name : string)
    (l : Z) (cursor : option string) (sortKey sort desc : JSValue) :
  l < 0 →
  (ToBoolean sortKey = true → ∃ parsed, parseComparisonFilter sort = Ok parsed) →
  (∀ c, cursor = Some c → c ≠ "" →
        ∃ key, getStartKey c (formattedIndex name sortKey) = Ok key) →
  ∃ options,
    asks_store
      (fun entity_query =>
         queryOrderEntity entity_query db partitionKey name (Some l) cursor
           sortKey sort desc)
      db partitionKey options
    ∧ limit options = l.
Proof.
  intros Hl Hsort Hcursor.
  destruct (queryOptions_built TABLE_KEY_values decode JSON_parse parseComparisonFilter
              name (Some l) cursor sortKey sort desc Hsort Hcursor)
    as [options Hoptions].
  exists options. split; [by apply queryOrderEntity_asks_store|].
  apply queryOptions_Ok in Hoptions as (_ & _ & _ & Hlimit & _).
  rewrite Hlimit. unfold MAX_ORDERS. destruct (Z.eqb_spec l 0); lia.
Qed.

(** X15.  The next page starts at the key of the cursor: a query with a
    cursor that [getStartKey] accepts for its index asks the store for that
    index with the accepted key as start key, whatever limit is requested. *)
Theorem accepted_cursor_is_start_key (db : DB) (partitionKey : JSValue)
    (name : string) (limit : option Z) (next : string) (sortKey sort desc key : JSValue) :
  next ≠ "" →
  getStartKey next (formattedIndex name sortKey) = Ok key →
  (ToBoolean sortKey = true → ∃ parsed, parseComparisonFilter sort = Ok parsed) →
  ∃ options,
    asks_store
      (fun entity_query =>
         queryOrderEntity entity_query db partitionKey name limit (Some next)
           sortKey sort desc)
      db partitionKey options
    ∧ startKey options = Some key
    ∧ index options = formattedIndex name sortKey.
Proof.
  intros Hnext Hkey Hsort.
  assert (∃ parsed, (if ToBoolean sortKey then parseComparisonFilter sort else Ok None)
                    = Ok parsed) as [parsed Hparsed].
  { destruct (ToBoolean sortKey); [by apply Hsort|by eexists]. }
  eexists. split.
  - apply queryOrderEntity_asks_store. unfold Repository.queryOptions.
    rewrite Hparsed. cbn [mbind result_bind].
    apply String.eqb_neq in Hnext. rewrite Hnext. cbn [negb]. rewrite Hkey.
    reflexivity.
  - done.
Qed.

(** X16.  A refused cursor stops the query before the store is asked: when
    the comparator, if one is read, parses, the query fails with the error of
    [getStartKey], whatever the store is. *)
Theorem refused_cursor_stops_query entity_query (db : DB) (partitionKey : JSValue)
    (name : string) (limit : option Z) (c : string) (sortKey sort desc : JSValue)
    (e : JSError) :
  c ≠ "" →
  getStartKey c (formattedIndex name sortKey) = Throw e →
  (ToBoolean sortKey = true → ∃ parsed, parseComparisonFilter sort = Ok parsed) →
  queryOrderEntity entity_query db partitionKey name limit (Some c) sortKey sort desc
  = Throw e.
Proof.
  intros Hc Hkey Hsort.
  assert (∃ parsed, (if ToBoolean sortKey then parseComparisonFilter sort else Ok None)
                    = Ok parsed) as [parsed Hparsed].
  { destruct (ToBoolean sortKey); [by apply Hsort|by eexists]. }
  unfold Repository.queryOrderEntity, Repository.queryOptions.
  rewrite Hparsed. cbn [mbind result_bind].
  apply String.eqb_neq in Hc. rewrite Hc. cbn [negb]. by rewrite Hkey.
Qed.

(** X17.  A refused comparator stops a sorted query first: the query fails
    with the comparator's error whatever the cursor and the store are. *)
Theorem refused_comparator_stops_query entity_query (db : DB) (partitionKey : JSValue)
    (name : string) (limit : option Z) (cursor : option string)
    (sortKey sort desc : JSValue) (e : JSError) :
  ToBoolean sortKey = true →
  parseComparisonFilter sort = Throw e →
  queryOrderEntity entity_query db partitionKey name limit cursor sortKey sort desc
  = Throw e.
Proof.
  intros Hsort Hrefused.
  unfold Repository.queryOrderEntity, Repository.queryOptions.
  by rewrite Hsort, Hrefused.
Qed.

End RangeQuery.

Lemma getOrders_ignores_sort_without_sortKey_witness :
  reference_route Reference.entity_query ReferenceRest.two_orders (Some 10)
    (<["sort" := JSString "gt(1)"]>
       (<["desc" := JSBoolean false]> {[ "offerer" := JSString "0xofferer" ]})) None
  = reference_route Reference.entity_query ReferenceRest.two_orders (Some 10)
      {[ "offerer" := JSString "0xofferer" ]} None.
Proof.
  apply getOrders_ignores_sort_without_sortKey. reflexivity.
Defined.

Lemma negative_limit_reaches_store_witness :
  reference_query (telltale_store heard_limit) ReferenceRest.empty_db
    (JSString "0xofferer") "offerer" (Some (-5)) None JSUndefined JSUndefined JSUndefined
  = Ok {| orders := [];
          cursor := Some (Reference.encode (Reference.JSON_stringify
                                              (JSArray [JSNumber (-5)]))) |}.
Proof.
  destruct (negative_limit_reaches_store Reference.TABLE_KEY_values Reference.encode
              Reference.decode Reference.JSON_parse Reference.JSON_stringify
              Reference.parseComparisonFilter ReferenceRest.empty_db
              (JSString "0xofferer") "offerer" (-5) None JSUndefined JSUndefined
              JSUndefined ltac:(lia) ltac:(discriminate) ltac:(discriminate))
    as (options & Hasks & Hlimit).
  rewrite (Hasks (telltale_store heard_limit)).
  unfold telltale_store, page_of. cbn [mbind result_bind Items LastEvaluatedKey ToBoolean].
  rewrite Hlimit. reflexivity.
Defined.

Lemma accepted_cursor_is_start_key_witness :
  let key := JSObject [ ("orderHash", JSString "0xabc"); ("offerer", JSString "0xA");
                        ("createdAt", JSNumber 1700) ] in
  reference_query
    (telltale_store (fun options => default JSNull (startKey options)))
    ReferenceRest.empty_db (JSString "0xA") "offerer" (Some 10)
    (Some "eyJvcmRlckhhc2giOiIweGFiYyIsIm9mZmVyZXIiOiIweEEiLCJjcmVhdGVkQXQiOjE3MDB9")
    JSUndefined JSUndefined JSUndefined
  = Ok {| orders := [];
          cursor := Some (Reference.encode (Reference.JSON_stringify key)) |}.
Proof.
  intros key.
  destruct (accepted_cursor_is_start_key Reference.TABLE_KEY_values Reference.encode
              Reference.decode Reference.JSON_parse Reference.JSON_stringify
              Reference.parseComparisonFilter ReferenceRest.empty_db
              (JSString "0xA") "offerer" (Some 10)
              "eyJvcmRlckhhc2giOiIweGFiYyIsIm9mZmVyZXIiOiIweEEiLCJjcmVhdGVkQXQiOjE3MDB9"
              JSUndefined JSUndefined JSUndefined key)
    as (options & Hasks & Hstart & _).
  - discriminate.
  - vm_compute. reflexivity.
  - discriminate.
  - rewrite (Hasks (telltale_store (fun options => default JSNull (startKey options)))).
    unfold telltale_store, page_of.
    cbn [mbind result_bind Items LastEvaluatedKey]. rewrite Hstart. reflexivity.
Defined.

Lemma refused_cursor_stops_query_witness :
  reference_query Reference.entity_query ReferenceRest.two_orders
    (JSString "0xfiller") "filler" (Some 10)
    (Some "eyJvcmRlckhhc2giOiIweGFiYyIsIm9mZmVyZXIiOiIweEEiLCJjcmVhdGVkQXQiOjE3MDB9")
    JSUndefined JSUndefined JSUndefined
  = Throw invalid_cursor.
Proof.
  apply refused_cursor_stops_query.
  - discriminate.
  - vm_compute. reflexivity.
  - discriminate.
Defined.

Lemma refused_comparator_stops_query_witness :
  reference_query Reference.entity_query ReferenceRest.two_orders
    (JSString "0xofferer") "offerer" (Some 10) (Some "not a cursor")
    (JSString "createdAt") (JSString "around(7)") JSUndefined
  = Throw (Error "Unable to parse operator and value for query param").
Proof.
  apply refused_comparator_stops_query.
  - reflexivity.
  - vm_compute. reflexivity.
Defined.

End QueryExtras.

(** * The nonce table and the primary-key operations *)

Module StoreExtras.
Import Repository RepositoryRest.

Section Store.
Variable currentTimestampInSeconds : unit -> JSValue.
Variable generateRandomNonce : unit -> JSValue.

Local Abbreviation putOrderAndUpdateNonceTransaction :=
  (putOrderAndUpdateNonceTransaction currentTimestampInSeconds).
Local Abbreviation getNonceByAddressAndChain :=
  (getNonceByAddressAndChain generateRandomNonce).

(** X18.  The nonce is read back under the key it was written under: after
    an order of an offerer on a chain is written, the nonce of that address
    and chain is the order's nonce, and the order is found by its hash. *)
Theorem nonce_read_after_write (order : Item) (db : DB) (h address : string)
    (chainId : Z) :
  prop order "orderHash" = JSString h →
  prop order "offerer" = JSString address →
  prop order "chainId" = JSNumber chainId →
  ∃ db' item,
    putOrderAndUpdateNonceTransaction order db = Ok db'
    ∧ getNonceByAddressAndChain db' address chainId = prop order "nonce"
    ∧ getByHash db' (JSString h) = Ok (Some item)
    ∧ prop item "nonce" = prop order "nonce".
Proof.
  intros Hhash Hofferer Hchain.
  destruct (WriteFacts.put_writes currentTimestampInSeconds order db h Hhash)
    as (db' & item & Hput & Hitem & _ & _ & _ & Hframe & record & Hrecord & Hnonce).
  exists db', item. split; [exact Hput|].
  rewrite Hofferer, Hchain in Hrecord. cbn [ToString] in Hrecord.
  split; [|split].
  - unfold RepositoryRest.getNonceByAddressAndChain, nonceEntity_query.
    rewrite Hrecord. unfold prop. by rewrite Hnonce.
  - unfold getByHash, entity_get. cbn [store_key mbind result_bind]. by rewrite Hitem.
  - unfold prop. rewrite Hframe; [done|].
    refine (bool_decide_unpack _ _). vm_compute. exact I.
Qed.

(** X19.  An address and chain without a record get a generated nonce. *)
Theorem nonce_of_unknown_address (db : DB) (address : string) (chainId : Z) :
  nonce_table db !! (address +:+ "-" +:+ pretty chainId) = None →
  getNonceByAddressAndChain db address chainId = generateRandomNonce tt.
Proof.
  intros Hnone. unfold RepositoryRest.getNonceByAddressAndChain, nonceEntity_query.
  by rewrite Hnone.
Qed.

End Store.

Lemma orders_table_deleteOrders (orderHashes : list string) (db : DB) (h : string) :
  orders_table (deleteOrders orderHashes db) !! h
  = if bool_decide (h ∈ orderHashes) then None else orders_table db !! h.
Proof.
  revert db. induction orderHashes as [|h' orderHashes IH]; intros db; [done|].
  cbn [deleteOrders foldl]. fold (deleteOrders orderHashes (entity_delete h' db)).
  rewrite IH. unfold entity_delete. cbn [orders_table].
  destruct (decide (h = h')) as [->|Hne].
  - rewrite lookup_delete_eq.
    rewrite (bool_decide_eq_true_2 (h' ∈ h' :: orderHashes)) by set_solver.
    by case_bool_decide.
  - rewrite lookup_delete_ne by done.
    destruct (decide (h ∈ orderHashes)) as [Hin|Hnotin].
    + rewrite !bool_decide_eq_true_2 by set_solver. done.
    + rewrite !bool_decide_eq_false_2 by set_solver. done.
Qed.

Lemma nonce_table_deleteOrders (orderHashes : list string) (db : DB) :
  nonce_table (deleteOrders orderHashes db) = nonce_table db.
Proof.
  revert db. induction orderHashes as [|h orderHashes IH]; intros db; [done|].
  cbn [deleteOrders foldl]. fold (deleteOrders orderHashes (entity_delete h db)).
  by rewrite IH.
Qed.

(** X20.  [deleteOrders] removes the orders of the given hashes and nothing
    else: a deleted hash is no longer found, every other hash is found as
    before, and the nonce table is untouched. *)
Theorem deleteOrders_removes_exactly (orderHashes : list string) (db : DB) :
  (∀ h, h ∈ orderHashes → getByHash (deleteOrders orderHashes db) (JSString h) = Ok None)
  ∧ (∀ h, h ∉ orderHashes →
       getByHash (deleteOrders orderHashes db) (JSString h) = getByHash db (JSString h))
  ∧ nonce_table (deleteOrders orderHashes db) = nonce_table db.
Proof.
  split; [|split].
  - intros h Hin. unfold getByHash, entity_get. cbn [store_key mbind result_bind].
    by rewrite orders_table_deleteOrders, bool_decide_eq_true_2.
  - intros h Hnotin. unfold getByHash, entity_get. cbn [store_key mbind result_bind].
    by rewrite orders_table_deleteOrders, bool_decide_eq_false_2.
  - apply nonce_table_deleteOrders.
Qed.

(** X21.  [updateOrderStatus] on a hash that is not in the table fails with
    the error of [checkDefined] and writes nothing. *)
Theorem updateOrderStatus_unknown_order (db : DB) (h status : string)
    (txHash settledAmounts : JSValue) :
  orders_table db !! h = None →
  updateOrderStatus h status txHash settledAmounts db
  = Throw (Error "cannot find order by hash when updating order status").
Proof.
  intros Hnone. unfold updateOrderStatus, getByHash, entity_get.
  cbn [store_key mbind result_bind]. by rewrite Hnone.
Qed.

Lemma nonce_read_after_write_witness :
  ∃ db' item,
    putOrderAndUpdateNonceTransaction Reference.currentTimestampInSeconds
      Reference.MOCK_ORDER_ENTITY ReferenceRest.empty_db = Ok db'
    ∧ getNonceByAddressAndChain ReferenceRest.generateRandomNonce db' "0xofferer" 1
      = prop Reference.MOCK_ORDER_ENTITY "nonce"
    ∧ getByHash db' (JSString "0xc57af022") = Ok (Some item)
    ∧ prop item "nonce" = prop Reference.MOCK_ORDER_ENTITY "nonce".
Proof.
  apply (nonce_read_after_write Reference.currentTimestampInSeconds
           ReferenceRest.generateRandomNonce Reference.MOCK_ORDER_ENTITY
           ReferenceRest.empty_db "0xc57af022" "0xofferer" 1);
    vm_compute; reflexivity.
Defined.

Lemma nonce_of_unknown_address_witness :
  getNonceByAddressAndChain ReferenceRest.generateRandomNonce
    ReferenceRest.two_orders "0xsomeone" 1
  = JSString "0x2a".
Proof.
  apply (nonce_of_unknown_address ReferenceRest.generateRandomNonce
           ReferenceRest.two_orders "0xsomeone" 1).
  vm_compute. reflexivity.
Defined.

Lemma updateOrderStatus_unknown_order_witness :
  updateOrderStatus "0xmissing" "filled" JSUndefined JSUndefined ReferenceRest.two_orders
  = Throw (Error "cannot find order by hash when updating order status").
Proof.
  apply updateOrderStatus_unknown_order. vm_compute. reflexivity.
Defined.

End StoreExtras.
